(** * Terragrunt MCP server: documentation cache and retrieval engine

    A shallow embedding of [TerragruntDocsManager] (the cache engine and
    the retrieval operations), of [ToolHandler] (the tool boundary), of
    [ResourceHandler] (the resources) and of the request handlers of the
    server, followed by the properties established about them.

    Conventions of the embedding:
    - JavaScript strings are modelled by [string] (8-bit characters,
      the code points 0 to 255).
    - A JavaScript [Map] is an association list kept in insertion order.
    - [async] methods are terms of the resumption monad [Async]: every
      [await] on an external operation is a node of the tree, [throw] and
      [try]/[catch] are explicit, and the fields of the manager objects
      live in a heap indexed by object references.
    - The file system, the network and the clock are a [World]; [run]
      executes a method to completion against it, [Sched.steps]
      interleaves several pending calls at their [await] points. *)

From Stdlib Require Import List String Ascii ZArith Bool Lia Arith.
From Stdlib Require Import Sorted DecimalString.
From Stdlib Require OrderedTypeEx.
Import ListNotations.
Local Open Scope string_scope.
Local Open Scope Z_scope.

Set Implicit Arguments.

(* ================================================================= *)
(** ** JavaScript strings *)

Module Js.

(** The lower-case form of a character of the 8-bit range: the letters
    [A] to [Z], and the accented capitals 192 to 222 but the
    multiplication sign 215. *)
Definition lowerChar (c : ascii) : ascii :=
  let n := nat_of_ascii c in
  if (((65 <=? n) && (n <=? 90))
      || ((192 <=? n) && (n <=? 222) && negb (n =? 215)))%nat
  then ascii_of_nat (n + 32) else c.

(** [s.toLowerCase()] *)
Fixpoint toLowerCase (s : string) : string :=
  match s with
  | EmptyString => EmptyString
  | String c s' => String (lowerChar c) (toLowerCase s')
  end.

(** [s.startsWith(p)] *)
Fixpoint startsWith (s p : string) : bool :=
  match p, s with
  | EmptyString, _ => true
  | String _ _, EmptyString => false
  | String a p', String b s' => Ascii.eqb a b && startsWith s' p'
  end.

(** [s.includes(sub)] *)
Fixpoint includes (s sub : string) : bool :=
  startsWith s sub ||
  match s with
  | EmptyString => false
  | String _ s' => includes s' sub
  end.

(** [s.endsWith(p)] *)
Fixpoint endsWith (s p : string) : bool :=
  String.eqb s p ||
  match s with
  | EmptyString => false
  | String _ s' => endsWith s' p
  end.

(** The characters matched by [\s] (and stripped by [trim]) in the
    8-bit range: tab, line feed, vertical tab, form feed, carriage
    return, space and no-break space. *)
Definition isSpace (c : ascii) : bool :=
  let n := nat_of_ascii c in
  (((9 <=? n) && (n <=? 13)) || (n =? 32) || (n =? 160))%nat.

Fixpoint trimStart (s : string) : string :=
  match s with
  | EmptyString => EmptyString
  | String c s' => if isSpace c then trimStart s' else s
  end.

(** Drops the trailing white space: a character is kept when something
    that is not white space follows it or when it is not white space. *)
Fixpoint trimEnd (s : string) : string :=
  match s with
  | EmptyString => EmptyString
  | String c s' =>
      match trimEnd s' with
      | EmptyString => if isSpace c then EmptyString else String c EmptyString
      | t => String c t
      end
  end.

(** [s.trim()] *)
Definition trim (s : string) : string := trimEnd (trimStart s).

(** [s.length] *)
Definition length (s : string) : Z := Z.of_nat (String.length s).

(** [s.substring(0, n)] for a non-negative [n]. *)
Definition substring0 (n : nat) (s : string) : string := String.substring 0 n s.

(** A string is truthy when it is not empty. *)
Definition truthy (s : string) : bool :=
  match s with EmptyString => false | _ => true end.

(** [s.split(sep)] for a one-character separator. *)
Fixpoint split (sep : ascii) (s : string) : list string :=
  match s with
  | EmptyString => [EmptyString]
  | String c s' =>
      if Ascii.eqb c sep then EmptyString :: split sep s'
      else match split sep s' with
           | [] => [String c EmptyString]
           | w :: ws => String c w :: ws
           end
  end.

(** [a.slice(start, end)] on arrays, with the relative indices of the
    language: a negative index counts from the end, and both are
    clamped to the bounds of the array. *)
Definition relIndex (len i : Z) : Z :=
  if i <? 0 then Z.max (len + i) 0 else Z.min i len.

Definition slice {A} (l : list A) (start stop : Z) : list A :=
  let len := Z.of_nat (List.length l) in
  let k := relIndex len start in
  let final := relIndex len stop in
  firstn (Z.to_nat (final - k)) (skipn (Z.to_nat k) l).

(** [Array.from(new Set(l))]: the first occurrence of every element, in
    order. *)
Fixpoint dedupFrom (seen : list string) (l : list string) : list string :=
  match l with
  | [] => []
  | x :: l' =>
      if existsb (String.eqb x) seen then dedupFrom seen l'
      else x :: dedupFrom (x :: seen) l'
  end.

Definition dedup (l : list string) : list string := dedupFrom [] l.

(** [a.find(p)] *)
Definition find {A} (p : A -> bool) (l : list A) : option A := List.find p l.

(** [a.sort(cmp)]: the sort of the language is stable, so for a
    consistent comparison function its result does not depend on the
    algorithm; it is modelled by insertion, each element going in front
    of the first element that must come strictly after it. *)
Fixpoint insertBy {A} (cmp : A -> A -> Z) (x : A) (l : list A) : list A :=
  match l with
  | [] => [x]
  | y :: l' => if cmp y x <=? 0 then y :: insertBy cmp x l' else x :: y :: l'
  end.

Definition sort {A} (cmp : A -> A -> Z) (l : list A) : list A :=
  fold_left (fun acc x => insertBy cmp x acc) l [].

End Js.

(* ================================================================= *)
(** ** Regular expressions

    The fragment of the regular expressions of the language that the
    source uses: character classes, sequencing, greedy and lazy
    iteration, matched by backtracking in the priority order of the
    language, with the [g] flag (all the matches, left to right, without
    overlap). *)

Module Regex.

Inductive re : Type :=
| Chr (p : ascii -> bool)
| Eps
| Seq (a b : re)
| Star (greedy : bool) (a : re).

Definition Plus (greedy : bool) (a : re) : re := Seq a (Star greedy a).

(** A literal under the [i] flag. *)
Fixpoint lit (s : string) : re :=
  match s with
  | EmptyString => Eps
  | String c s' => Seq (Chr (fun x => Ascii.eqb (Js.lowerChar x) (Js.lowerChar c))) (lit s')
  end.

Definition isWord (c : ascii) : bool :=
  let n := nat_of_ascii c in
  (((48 <=? n) && (n <=? 57)) || ((65 <=? n) && (n <=? 90))
   || ((97 <=? n) && (n <=? 122)) || (n =? 95))%nat.

Definition space : re := Chr Js.isSpace.
Definition word : re := Chr isWord.
Definition anyChar : re := Chr (fun _ => true).
Definition newline : ascii := ascii_of_nat 10.
Definition tab : ascii := ascii_of_nat 9.
Definition chr (c : ascii) : re := Chr (Ascii.eqb c).
Definition notChr (c : ascii) : re := Chr (fun x => negb (Ascii.eqb c x)).

(** [exec r s k] matches [r] at the start of [s] and hands the rest of
    the string to the continuation [k]; a failing continuation makes the
    matcher backtrack. An iteration that consumes nothing is not
    repeated. *)
Fixpoint exec (r : re) : string -> (string -> option string) -> option string :=
  match r with
  | Chr p => fun s k =>
      match s with
      | String c s' => if p c then k s' else None
      | EmptyString => None
      end
  | Eps => fun s k => k s
  | Seq a b => fun s k => exec a s (fun s' => exec b s' k)
  | Star greedy a => fun s k =>
      (fix loop (n : nat) (s : string) {struct n} : option string :=
         match n with
         | O => k s
         | S n' =>
             let again :=
               exec a s (fun s' =>
                 if (String.length s' <? String.length s)%nat then loop n' s' else None) in
             if greedy then
               match again with Some x => Some x | None => k s end
             else
               match k s with Some x => Some x | None => again end
         end) (String.length s) s
  end.

(** The length of the match of [r] at the start of [s], if any. *)
Definition matchAt (r : re) (s : string) : option nat :=
  match exec r s (fun rest => Some rest) with
  | Some rest => Some (String.length s - String.length rest)%nat
  | None => None
  end.

(** [s.match(r)] for a pattern with the [g] flag, [null] being the
    empty list: [skip] counts the characters of the previous match that
    are still to be passed over. *)
Fixpoint matchAllFrom (r : re) (skip : nat) (s : string) {struct s} : list string :=
  match skip with
  | S k =>
      match s with
      | EmptyString => []
      | String _ s' => matchAllFrom r k s'
      end
  | O =>
      match matchAt r s with
      | Some n =>
          String.substring 0 n s ::
          match s with
          | EmptyString => []
          | String _ s' => matchAllFrom r (Nat.pred n) s'
          end
      | None =>
          match s with
          | EmptyString => []
          | String _ s' => matchAllFrom r 0 s'
          end
      end
  end.

Definition matchAll (r : re) (s : string) : list string := matchAllFrom r 0 s.

(** [s.replace(r, by)] for a pattern with the [g] flag. *)
Fixpoint replaceFrom (r : re) (by_ : string) (skip : nat) (s : string) {struct s} : string :=
  match skip with
  | S k =>
      match s with
      | EmptyString => EmptyString
      | String _ s' => replaceFrom r by_ k s'
      end
  | O =>
      match matchAt r s with
      | Some (S n) =>
          by_ ++
          match s with
          | EmptyString => EmptyString
          | String _ s' => replaceFrom r by_ n s'
          end
      | Some O =>
          by_ ++
          match s with
          | EmptyString => EmptyString
          | String c s' => String c (replaceFrom r by_ 0 s')
          end
      | None =>
          match s with
          | EmptyString => EmptyString
          | String c s' => String c (replaceFrom r by_ 0 s')
          end
      end
  end.

Definition replaceAll (r : re) (by_ : string) (s : string) : string :=
  replaceFrom r by_ 0 s.

End Regex.

(* ================================================================= *)
(** ** Data model *)

(** A [Date]: the milliseconds since the epoch, or the invalid date
    (whose [getTime()] is [NaN]). *)
Definition Date : Type := option Z.

Record TerragruntDoc : Type := mkDoc {
  title : string;
  url : string;
  content : string;
  section : string;
  lastUpdated : option Z
}.

Record CacheMetadata : Type := mkMeta {
  meta_lastFetchTime : Date;
  docsCount : Z
}.

(** A page of the documentation index: [{ url, title, section }]. *)
Record Page : Type := mkPage {
  page_url : string;
  page_title : string;
  page_section : string
}.

(** *** The [Map] of the language, in insertion order *)

Module JsMap.

Definition t : Type := list (string * TerragruntDoc).

Definition empty : t := [].

(** [m.set(k, v)]: an existing key keeps its position. *)
Fixpoint set (k : string) (v : TerragruntDoc) (m : t) : t :=
  match m with
  | [] => [(k, v)]
  | (k', v') :: m' =>
      if String.eqb k' k then (k', v) :: m' else (k', v') :: set k v m'
  end.

(** [Array.from(m.values())] *)
Definition values (m : t) : list TerragruntDoc := map snd m.

(** [m.size] *)
Definition size (m : t) : Z := Z.of_nat (List.length m).

End JsMap.

(** *** The fields of a [TerragruntDocsManager] *)

Record DocsManager : Type := mkManager {
  docsCache : JsMap.t;
  lastFetchTime : option Date     (* [Date | null] *)
}.

Definition newDocsManager : DocsManager :=
  {| docsCache := JsMap.empty; lastFetchTime := None |}.

Definition baseUrl : string := "https://terragrunt.gruntwork.io".

(** 24 hours, in milliseconds. *)
Definition cacheExpiry : Z := 24 * 60 * 60 * 1000.

(* ================================================================= *)
(** ** The outside world *)

Inductive Exn : Type :=
| NetworkError | FsError | SyntaxError | TypeError | RangeError.

Inductive File : Type := CacheFile | MetadataFile.

(** The values that the text of a file can stand for. *)
Inductive JsonValue : Type :=
| JNull
| JMetadata (m : CacheMetadata)
| JDocs (l : list (option TerragruntDoc))   (* an array; [None] is a [null] entry *)
| JObject.                                  (* any other object *)

(** The text of a file: the serialization of a value, or something
    that [JSON.parse] rejects. *)
Inductive FileText : Type :=
| Garbage
| Json (v : JsonValue).

Inductive FileState : Type :=
| Absent
| Unreadable
| Holds (t : FileText).

(** What the selectors of the source find in an HTML document. *)
Record Anchor : Type := mkAnchor { href : string; text : string }.

Record Html : Type := mkHtml {
  navAnchors : list Anchor;        (* nav, .sidebar, .menu links to /docs/ *)
  contentAnchors : list Anchor;    (* .content, main links to /docs/ *)
  containerText : option string;   (* text of the first content container found *)
  bodyText : string                (* text of body, navigation removed *)
}.

Record Response : Type := mkResponse {
  ok : bool;
  status : Z;
  body : option Html               (* [None]: reading the body fails *)
}.

Record World : Type := mkWorld {
  clock : Z;                            (* [Date.now()] *)
  latency : Z;                          (* time taken by one operation *)
  disk : File -> FileState;
  canMkdir : bool;
  canWrite : File -> bool;
  net : string -> option Response;      (* [None]: the request fails *)
  requests : list string;               (* the requests sent, latest first *)
  inflight : list (File * FileText)     (* writes started and no longer
                                           awaited, latest first *)
}.

(** The operations awaited by the source, indexed by their results. *)
Inductive IO : Type -> Type :=
| FsAccess (f : File) : IO unit
| FsReadFile (f : File) : IO FileText
| FsWriteFile (f : File) (t : FileText) : IO unit
| FsWriteFiles (f1 : File) (t1 : FileText) (f2 : File) (t2 : FileText) : IO unit
| FsMkdir : IO unit
| Fetch (u : string) : IO Response
| ResponseText (r : Response) : IO Html.

Definition file_eqb (f g : File) : bool :=
  match f, g with
  | CacheFile, CacheFile | MetadataFile, MetadataFile => true
  | _, _ => false
  end.

Definition tick (w : World) : World :=
  {| clock := clock w + latency w; latency := latency w; disk := disk w;
     canMkdir := canMkdir w; canWrite := canWrite w; net := net w;
     requests := requests w; inflight := inflight w |}.

Definition writeDisk (f : File) (t : FileText) (w : World) : World :=
  {| clock := clock w; latency := latency w;
     disk := fun g => if file_eqb g f then Holds t else disk w g;
     canMkdir := canMkdir w; canWrite := canWrite w; net := net w;
     requests := requests w; inflight := inflight w |}.

Definition logRequest (u : string) (w : World) : World :=
  {| clock := clock w; latency := latency w; disk := disk w;
     canMkdir := canMkdir w; canWrite := canWrite w; net := net w;
     requests := u :: requests w; inflight := inflight w |}.

(** A write that was started and that its caller has stopped waiting
    for: it has not reached the disk for sure, and it will. *)
Definition leaveInFlight (f : File) (t : FileText) (w : World) : World :=
  {| clock := clock w; latency := latency w; disk := disk w;
     canMkdir := canMkdir w; canWrite := canWrite w; net := net w;
     requests := requests w; inflight := (f, t) :: inflight w |}.

(** The writes in flight reach the disk, the oldest first. Nothing in a
    call waits for them: when they land is up to the environment. *)
Definition landWrites (w : World) : World :=
  fold_right (fun ft w' => writeDisk (fst ft) (snd ft) w')
    {| clock := clock w; latency := latency w; disk := disk w;
       canMkdir := canMkdir w; canWrite := canWrite w; net := net w;
       requests := requests w; inflight := [] |}
    (inflight w).

(** The outcome of an operation (a rejection or a result) and the world
    after it. *)
Definition perform {R} (op : IO R) (w : World) : (Exn + R) * World :=
  match op in IO R return (Exn + R) * World with
  | FsAccess f =>
      (match disk w f with Absent => inl FsError | _ => inr tt end, tick w)
  | FsReadFile f =>
      (match disk w f with Holds t => inr t | _ => inl FsError end, tick w)
  | FsWriteFile f t =>
      if canWrite w f then (inr tt, tick (writeDisk f t w))
      else (inl FsError, tick w)
  | FsWriteFiles f1 t1 f2 t2 =>
      (* [Promise.all] of two writes started together: it is fulfilled
         when both are done, and rejected as soon as one is refused,
         the other one being left in flight *)
      match canWrite w f1, canWrite w f2 with
      | true, true => (inr tt, tick (writeDisk f2 t2 (tick (writeDisk f1 t1 w))))
      | true, false => (inl FsError, tick (leaveInFlight f1 t1 w))
      | false, true => (inl FsError, tick (leaveInFlight f2 t2 w))
      | false, false => (inl FsError, tick w)
      end
  | FsMkdir =>
      (if canMkdir w then inr tt else inl FsError, tick w)
  | Fetch u =>
      (match net w u with Some r => inr r | None => inl NetworkError end,
       tick (logRequest u w))
  | ResponseText r =>
      (match body r with Some h => inr h | None => inl NetworkError end, tick w)
  end.

(* ================================================================= *)
(** ** Asynchronous methods *)

(** The objects that own a documentation manager: the resource handler
    of the server, the tool handler, and the resource handler that the
    tool handler constructs for its searches each construct one. *)
Inductive Ref : Type := ResourceDocs | ToolDocs | ToolResourceDocs.

Definition Heap : Type := Ref -> DocsManager.

Definition ref_eqb (a b : Ref) : bool :=
  match a, b with
  | ResourceDocs, ResourceDocs | ToolDocs, ToolDocs
  | ToolResourceDocs, ToolResourceDocs => true
  | _, _ => false
  end.

Definition update (h : Heap) (o : Ref) (m : DocsManager) : Heap :=
  fun o' => if ref_eqb o' o then m else h o'.

Inductive Async (A : Type) : Type :=
| Ret (a : A)
| Throw (e : Exn)
| Load (o : Ref) (k : DocsManager -> Async A)
| Store (o : Ref) (m : DocsManager) (k : Async A)
| DateNow (k : Z -> Async A)
| Await (R : Type) (op : IO R) (k : Exn + R -> Async A).

Arguments Ret {A} a.
Arguments Throw {A} e.
Arguments Load {A} o k.
Arguments Store {A} o m k.
Arguments DateNow {A} k.
Arguments Await {A R} op k.

Fixpoint bind {A B} (m : Async A) (f : A -> Async B) : Async B :=
  match m with
  | Ret a => f a
  | Throw e => Throw e
  | Load o k => Load o (fun s => bind (k s) f)
  | Store o s k => Store o s (bind k f)
  | DateNow k => DateNow (fun t => bind (k t) f)
  | Await op k => Await op (fun r => bind (k r) f)
  end.

(** [try { m } catch (e) { h e }] *)
Fixpoint tryCatch {A} (m : Async A) (h : Exn -> Async A) : Async A :=
  match m with
  | Ret a => Ret a
  | Throw e => h e
  | Load o k => Load o (fun s => tryCatch (k s) h)
  | Store o s k => Store o s (tryCatch k h)
  | DateNow k => DateNow (fun t => tryCatch (k t) h)
  | Await op k => Await op (fun r => tryCatch (k r) h)
  end.

Notation "x <- m ;; f" := (bind m (fun x => f))
  (at level 61, m at next level, right associativity).
Notation "m ;;; f" := (bind m (fun _ => f))
  (at level 61, right associativity).

(** [await p]: a rejection is thrown at the point of the [await]. *)
Definition await {R} (op : IO R) : Async R :=
  Await op (fun r => match r with inl e => Throw e | inr v => Ret v end).

(** [await p.then(() => true).catch(() => false)] *)
Definition awaitOk {R} (op : IO R) : Async bool :=
  Await op (fun r => match r with inl _ => Ret false | inr _ => Ret true end).

Definition load (o : Ref) : Async DocsManager := Load o (fun s => Ret s).
Definition store (o : Ref) (m : DocsManager) : Async unit := Store o m (Ret tt).
Definition dateNow : Async Z := DateNow (fun t => Ret t).

Definition liftExn {A} (r : Exn + A) : Async A :=
  match r with inl e => Throw e | inr a => Ret a end.

(** Running a call to completion. *)
Fixpoint run {A} (m : Async A) (h : Heap) (w : World) : (Exn + A) * Heap * World :=
  match m with
  | Ret a => (inr a, h, w)
  | Throw e => (inl e, h, w)
  | Load o k => run (k (h o)) h w
  | Store o s k => run k (update h o s) w
  | DateNow k => run (k (clock w)) h w
  | Await op k => let (r, w') := perform op w in run (k r) h w'
  end.

(* ================================================================= *)
(** ** [TerragruntDocsManager] *)

(** *** Numbers that may be [NaN] *)

(** [now - d.getTime()] *)
Definition elapsedSince (now : Z) (d : Date) : option Z :=
  option_map (fun t => now - t) d.

(** [x > y]: a comparison with [NaN] is false. *)
Definition numGt (x : option Z) (y : Z) : bool :=
  match x with Some v => y <? v | None => false end.

(** *** JSON *)

Definition JSON_parse (t : FileText) : Exn + JsonValue :=
  match t with Garbage => inl SyntaxError | Json v => inr v end.

Definition JSON_stringify (v : JsonValue) : FileText := Json v.

(** [new Date(metadata.lastFetchTime)]: reading a property of [null]
    throws, a missing property gives the invalid date. *)
Definition dateOfLastFetchTime (v : JsonValue) : Exn + Date :=
  match v with
  | JNull => inl TypeError
  | JMetadata m => inr (meta_lastFetchTime m)
  | JDocs _ | JObject => inr None
  end.

(** The entries visited by [docs.forEach]: only an array has the
    method. *)
Definition arrayEntries (v : JsonValue) : Exn + list (option TerragruntDoc) :=
  match v with
  | JDocs l => inr l
  | JNull | JMetadata _ | JObject => inl TypeError
  end.

(** *** Updates of the fields *)

Definition clearCache (this : Ref) : Async unit :=
  self <- load this ;;
  store this {| docsCache := JsMap.empty; lastFetchTime := lastFetchTime self |}.

Definition cacheSet (this : Ref) (d : TerragruntDoc) : Async unit :=
  self <- load this ;;
  store this {| docsCache := JsMap.set (url d) d (docsCache self);
                lastFetchTime := lastFetchTime self |}.

Definition setLastFetchTime (this : Ref) (d : Date) : Async unit :=
  self <- load this ;;
  store this {| docsCache := docsCache self; lastFetchTime := Some d |}.

Definition cacheValues (this : Ref) : Async (list TerragruntDoc) :=
  self <- load this ;;
  Ret (JsMap.values (docsCache self)).

(** *** The persistent snapshot *)

Definition ensureCacheDir : Async unit :=
  tryCatch (await FsMkdir) (fun _ => Ret tt).

(** [docs.forEach(doc => this.docsCache.set(doc.url, doc))] *)
Fixpoint forEachSet (this : Ref) (docs : list (option TerragruntDoc)) : Async unit :=
  match docs with
  | [] => Ret tt
  | None :: _ => Throw TypeError
  | Some d :: rest => cacheSet this d ;;; forEachSet this rest
  end.

Definition loadCacheFromDisk (this : Ref) : Async bool :=
  tryCatch
    (docsExists <- awaitOk (FsAccess CacheFile) ;;
     metadataExists <- awaitOk (FsAccess MetadataFile) ;;
     if negb docsExists || negb metadataExists then Ret false
     else
       metadataContent <- await (FsReadFile MetadataFile) ;;
       metadata <- liftExn (JSON_parse metadataContent) ;;
       now <- dateNow ;;
       fetched <- liftExn (dateOfLastFetchTime metadata) ;;
       let cacheAge := elapsedSince now fetched in
       if numGt cacheAge cacheExpiry then Ret false
       else
         docsContent <- await (FsReadFile CacheFile) ;;
         docs <- liftExn (JSON_parse docsContent) ;;
         clearCache this ;;;
         entries <- liftExn (arrayEntries docs) ;;
         forEachSet this entries ;;;
         setLastFetchTime this fetched ;;;
         Ret true)
    (fun _ => Ret false).

Definition saveCacheToDisk (this : Ref) : Async unit :=
  tryCatch
    (ensureCacheDir ;;;
     self <- load this ;;
     let docs := JsMap.values (docsCache self) in
     stamp <- match lastFetchTime self with
              | Some (Some t) => Ret (Some t)
              | Some None => Throw RangeError     (* [toISOString] of an invalid date *)
              | None => now <- dateNow ;; Ret (Some now)
              end ;;
     let metadata := {| meta_lastFetchTime := stamp;
                        docsCount := Z.of_nat (List.length docs) |} in
     await (FsWriteFiles CacheFile (JSON_stringify (JDocs (map Some docs)))
                         MetadataFile (JSON_stringify (JMetadata metadata))))
    (fun _ => Ret tt).

(** *** The corpus source *)

Definition extractSection (href : string) : string :=
  let pathParts := filter Js.truthy (Js.split "/" href) in
  match pathParts with
  | _ :: s :: _ => s
  | _ => "general"
  end.

(** The body of the two [each] callbacks. *)
Definition addAnchor (pages : list Page) (a : Anchor) : list Page :=
  let title := Js.trim (text a) in
  if Js.truthy (href a) && Js.truthy title
     && negb (existsb (fun p => String.eqb (page_url p) (baseUrl ++ href a)) pages)
  then pages ++ [ {| page_url := baseUrl ++ href a; page_title := title;
                     page_section := extractSection (href a) |} ]
  else pages.

Definition coreDocs : list Page :=
  [ {| page_url := baseUrl ++ "/docs/getting-started/quick-start/";
       page_title := "Quick Start"; page_section := "getting-started" |};
    {| page_url := baseUrl ++ "/docs/reference/config-blocks-and-attributes/";
       page_title := "Configuration Reference"; page_section := "reference" |};
    {| page_url := baseUrl ++ "/docs/features/keep-your-terraform-code-dry/";
       page_title := "Keep Your Code DRY"; page_section := "features" |};
    {| page_url := baseUrl ++ "/docs/features/execute-terraform-commands-on-multiple-modules-at-once/";
       page_title := "Multiple Modules"; page_section := "features" |} ].

Definition addCoreDoc (pages : list Page) (coreDoc : Page) : list Page :=
  if negb (existsb (fun p => String.eqb (page_url p) (page_url coreDoc)) pages)
  then pages ++ [coreDoc] else pages.

Definition indexUrl : string := baseUrl ++ "/docs/".

Definition getDocumentationPages : Async (list Page) :=
  response <- await (Fetch indexUrl) ;;
  html <- await (ResponseText response) ;;
  let pages := fold_left addAnchor (navAnchors html) [] in
  let pages := fold_left addAnchor (contentAnchors html) pages in
  let pages := fold_left addCoreDoc coreDocs pages in
  Ret pages.

Definition cleanContent (content : string) : string :=
  let s := Regex.replaceAll (Regex.Plus true Regex.space) " " content in
  let s := Regex.replaceAll
             (Regex.Seq (Regex.chr Regex.newline)
                (Regex.Seq (Regex.Star true Regex.space) (Regex.chr Regex.newline)))
             (String Regex.newline EmptyString) s in
  let s := Regex.replaceAll (Regex.Plus true (Regex.chr Regex.tab)) " " s in
  Js.trim s.

Definition fetchDocumentPage (page : Page) : Async (option TerragruntDoc) :=
  tryCatch
    (response <- await (Fetch (page_url page)) ;;
     if negb (ok response) then Ret None
     else
       html <- await (ResponseText response) ;;
       let content :=
         match containerText html with
         | Some t => Js.trim t
         | None => EmptyString
         end in
       let content :=
         if negb (Js.truthy content) then Js.trim (bodyText html) else content in
       if negb (Js.truthy content) then Ret None
       else
         now <- dateNow ;;
         Ret (Some {| title := page_title page; url := page_url page;
                      content := cleanContent content;
                      section := page_section page;
                      lastUpdated := Some now |}))
    (fun _ => Ret None).

(** The loop over the pages of [refreshDocsCache]. *)
Fixpoint fetchPages (this : Ref) (docPages : list Page) : Async unit :=
  match docPages with
  | [] => Ret tt
  | page :: rest =>
      doc <- fetchDocumentPage page ;;
      match doc with
      | Some d => cacheSet this d
      | None => Ret tt
      end ;;;
      fetchPages this rest
  end.

Definition refreshDocsCache (this : Ref) : Async unit :=
  tryCatch
    (docPages <- getDocumentationPages ;;
     clearCache this ;;;
     fetchPages this docPages ;;;
     now <- dateNow ;;
     setLastFetchTime this (Some now) ;;;
     saveCacheToDisk this)
    (fun _ => Ret tt).

(** *** The cache engine *)

Definition shouldRefreshCache (this : Ref) : Async bool :=
  self <- load this ;;
  match lastFetchTime self with
  | None => Ret true
  | Some d => now <- dateNow ;; Ret (numGt (elapsedSince now d) cacheExpiry)
  end.

Definition fetchLatestDocs (this : Ref) : Async (list TerragruntDoc) :=
  self <- load this ;;
  early <-
    (if JsMap.size (docsCache self) =? 0 then
       loaded <- loadCacheFromDisk this ;;
       if loaded then
         stale <- shouldRefreshCache this ;;
         if negb stale then docs <- cacheValues this ;; Ret (Some docs)
         else Ret None
       else Ret None
     else Ret None) ;;
  match early with
  | Some docs => Ret docs
  | None =>
      stale <- shouldRefreshCache this ;;
      (if stale then refreshDocsCache this else Ret tt) ;;;
      cacheValues this
  end.

(** *** The retrieval operations *)

(** [field.toLowerCase().includes(q)] *)
Definition lowerIncludes (field q : string) : bool :=
  Js.includes (Js.toLowerCase field) q.

(** The predicate of the [filter] of [searchDocs]. *)
Definition searchMatches (lowercaseQuery : string) (doc : TerragruntDoc) : bool :=
  lowerIncludes (title doc) lowercaseQuery
  || lowerIncludes (content doc) lowercaseQuery
  || lowerIncludes (section doc) lowercaseQuery.

(** The comparison function of the [sort] of [searchDocs]. *)
Definition searchCompare (lowercaseQuery : string) (a b : TerragruntDoc) : Z :=
  let aTitle := lowerIncludes (title a) lowercaseQuery in
  let bTitle := lowerIncludes (title b) lowercaseQuery in
  if aTitle && negb bTitle then -1
  else if negb aTitle && bTitle then 1
  else
    let aSection := lowerIncludes (section a) lowercaseQuery in
    let bSection := lowerIncludes (section b) lowercaseQuery in
    if aSection && negb bSection then -1
    else if negb aSection && bSection then 1
    else 0.

Definition searchDocs (this : Ref) (query : string) : Async (list TerragruntDoc) :=
  docs <- fetchLatestDocs this ;;
  let lowercaseQuery := Js.toLowerCase query in
  Ret (Js.sort (searchCompare lowercaseQuery)
         (filter (searchMatches lowercaseQuery) docs)).

Definition getDocBySection (this : Ref) (sec : string) : Async (list TerragruntDoc) :=
  docs <- fetchLatestDocs this ;;
  Ret (filter (fun doc => String.eqb (section doc) sec) docs).

(** The default order of [sort] on strings. *)
Definition stringCompare (a b : string) : Z :=
  match String.compare a b with Lt => -1 | Eq => 0 | Gt => 1 end.

Definition getAvailableSections (this : Ref) : Async (list string) :=
  docs <- fetchLatestDocs this ;;
  Ret (Js.sort stringCompare (Js.dedup (map section docs))).

(** The three predicates of [getCliCommandHelp]. *)
Definition isCliDoc (doc : TerragruntDoc) : bool :=
  String.eqb (section doc) "reference" && Js.includes (url doc) "/cli/commands/".

Definition cliExact (command : string) (doc : TerragruntDoc) : bool :=
  String.eqb (Js.toLowerCase (title doc)) (Js.toLowerCase command)
  || Js.includes (Js.toLowerCase (url doc)) ("/" ++ Js.toLowerCase command ++ "/")
  || Js.endsWith (Js.toLowerCase (url doc)) ("/" ++ Js.toLowerCase command).

Definition cliPartial (command : string) (doc : TerragruntDoc) : bool :=
  Js.includes (Js.toLowerCase (title doc)) (Js.toLowerCase command)
  || Js.includes (Js.toLowerCase (content doc)) (command ++ " ").

Definition getCliCommandHelp (this : Ref) (command : string)
  : Async (option TerragruntDoc) :=
  docs <- fetchLatestDocs this ;;
  let cliDocs := filter isCliDoc docs in
  let exactMatch := Js.find (cliExact command) cliDocs in
  match exactMatch with
  | Some doc => Ret (Some doc)
  | None =>
      let partialMatch := Js.find (cliPartial command) cliDocs in
      Ret partialMatch
  end.

Definition isHclDoc (doc : TerragruntDoc) : bool :=
  String.eqb (section doc) "reference"
  && (Js.includes (url doc) "/hcl/blocks"
      || Js.includes (url doc) "/hcl/attributes"
      || Js.includes (url doc) "/hcl/functions"
      || Js.includes (url doc) "/config-blocks-and-attributes").

Definition getHclConfigReference (this : Ref) (blockOrAttribute : string)
  : Async (list TerragruntDoc) :=
  docs <- fetchLatestDocs this ;;
  let query := Js.toLowerCase blockOrAttribute in
  let hclDocs := filter isHclDoc docs in
  Ret (filter (fun doc => lowerIncludes (title doc) query
                          || lowerIncludes (content doc) query) hclDocs).

(** *** Code examples *)

Module Patterns.
Import Regex.

Definition quote : ascii := ascii_of_nat 34.

(** [{[\s\S]*?}] *)
Definition block : re := Seq (chr "{") (Seq (Star false anyChar) (chr "}")).

(** A quoted, non-empty name: a quote, one or more characters that
    are not quotes, a quote. *)
Definition quoted : re := Seq (chr quote) (Seq (Plus true (notChr quote)) (chr quote)).

(** [/terragrunt\s+\w+[^\n]*/gi] *)
Definition terragruntCommand : re :=
  Seq (lit "terragrunt") (Seq (Plus true space) (Seq (Plus true word) (Star true (notChr newline)))).

(** [/terraform\s*{[\s\S]*?}/gi] *)
Definition terraformBlock : re := Seq (lit "terraform") (Seq (Star true space) block).

(** [/remote_state\s*{[\s\S]*?}/gi] *)
Definition remoteStateBlock : re := Seq (lit "remote_state") (Seq (Star true space) block).

(** [dependency], then a quoted name, then a block, with optional
    white space between them (flags [gi]). *)
Definition dependencyBlock : re :=
  Seq (lit "dependency") (Seq (Star true space) (Seq quoted (Seq (Star true space) block))).

(** [include], then a quoted name, then a block, with optional white
    space between them (flags [gi]). *)
Definition includeBlock : re :=
  Seq (lit "include") (Seq (Star true space) (Seq quoted (Seq (Star true space) block))).

(** [/inputs\s*=\s*{[\s\S]*?}/gi] *)
Definition inputsBlock : re :=
  Seq (lit "inputs") (Seq (Star true space) (Seq (chr "=") (Seq (Star true space) block))).

Definition codePatterns : list re :=
  [ terragruntCommand; terraformBlock; remoteStateBlock;
    dependencyBlock; includeBlock; inputsBlock ].

End Patterns.

Definition extractCodeBlocks (content : string) : list string :=
  let examples :=
    fold_left
      (fun examples pattern =>
         (examples ++ map Js.trim (Regex.matchAll pattern content))%list)
      Patterns.codePatterns [] in
  Js.slice (Js.dedup examples) 0 5.

Record CodeExamples : Type := mkExamples {
  doc : TerragruntDoc;
  examples : list string
}.

Definition topicMatches (query : string) (d : TerragruntDoc) : bool :=
  lowerIncludes (title d) query || lowerIncludes (content d) query.

(** The loop of [getCodeExamples] over the capped candidates. *)
Fixpoint collectExamples (results : list CodeExamples) (docs : list TerragruntDoc)
  : list CodeExamples :=
  match docs with
  | [] => results
  | d :: rest =>
      let examples := extractCodeBlocks (content d) in
      if Z.of_nat (List.length examples) >? 0
      then collectExamples (results ++ [ {| doc := d; examples := examples |} ])%list rest
      else collectExamples results rest
  end.

Definition getCodeExamples (this : Ref) (topic : string) : Async (list CodeExamples) :=
  docs <- fetchLatestDocs this ;;
  let query := Js.toLowerCase topic in
  let relevantDocs := filter (topicMatches query) docs in
  Ret (collectExamples [] (Js.slice relevantDocs 0 10)).

(* ================================================================= *)
(** ** [ResourceHandler] and [ToolHandler] *)

(** [ResourceHandler.searchDocumentation], on the resource handler of
    the tool handler: it queries the manager of that handler. *)
Definition searchDocumentation (query : string) : Async (list TerragruntDoc) :=
  searchDocs ToolResourceDocs query.

(** The arguments of a tool call; an absent property is [None]. *)
Record Args : Type := mkArgs {
  arg_query : option string;
  arg_limit : option Z;
  arg_section : option string;
  arg_command : option string;
  arg_config : option string;
  arg_topic : option string
}.

(** An entry of a result: a document with its text cut to size. *)
Record Excerpt : Type := mkExcerpt {
  ex_title : string;
  ex_url : string;
  ex_section : string;
  ex_text : string;
  ex_lastUpdated : option Z
}.

Record ExampleEntry : Type := mkEntry {
  documentTitle : string;
  documentUrl : string;
  entry_section : string;
  codeSnippets : list string;
  snippetCount : Z
}.

(** The objects returned by the tools. *)
Inductive ToolResult : Type :=
| ErrorResult (error : string)
| SearchResult (query : string) (results : list Excerpt) (total : Z) (hasMore : bool)
| SectionsResult (sections : list (string * Z)) (totalSections totalDocs : Z)
| SectionNotFound (sec error : string) (availableSections : list string)
| SectionDocs (sec : string) (docs : list Excerpt) (totalDocs : Z)
| CommandNotFound (command error suggestion : string)
| CommandHelp (command : string) (help : Excerpt)
| ConfigNotFound (config error suggestion : string)
| ConfigReference (config : string) (results : list Excerpt) (totalResults : Z)
| ExamplesNotFound (topic error suggestion : string)
| ExamplesResult (topic : string) (examples : list ExampleEntry)
                 (totalDocuments : Z) (hasMore : bool).

(** [s.length > n ? s.substring(0, n) + '...' : s] *)
Definition truncate (n : nat) (s : string) : string :=
  if Js.length s >? Z.of_nat n then Js.substring0 n s ++ "..." else s.

Definition excerpt (n : nat) (d : TerragruntDoc) : Excerpt :=
  {| ex_title := title d; ex_url := url d; ex_section := section d;
     ex_text := truncate n (content d); ex_lastUpdated := lastUpdated d |}.

Definition arrayLength {A} (l : list A) : Z := Z.of_nat (List.length l).

Definition searchTerragruntDocs (query : string) (limit : Z) : Async ToolResult :=
  results <- searchDocumentation query ;;
  Ret (SearchResult query
         (map (excerpt 300) (Js.slice results 0 limit))
         (arrayLength results)
         (arrayLength results >? limit)).

Definition getTerragruntSections : Async ToolResult :=
  sections <- getAvailableSections ToolDocs ;;
  docs <- fetchLatestDocs ToolDocs ;;
  Ret (SectionsResult
         (map (fun s => (s, arrayLength (filter (fun d => String.eqb (section d) s) docs)))
              sections)
         (arrayLength sections) (arrayLength docs)).

Definition getSectionDocs (sec : string) : Async ToolResult :=
  docs <- getDocBySection ToolDocs sec ;;
  if arrayLength docs =? 0 then
    available <- getAvailableSections ToolDocs ;;
    Ret (SectionNotFound sec ("No documentation found for section: " ++ sec) available)
  else
    Ret (SectionDocs sec (map (excerpt 500) docs) (arrayLength docs)).

Definition toolGetCliCommandHelp (command : string) : Async ToolResult :=
  found <- getCliCommandHelp ToolDocs command ;;
  match found with
  | None =>
      Ret (CommandNotFound command
             ("No CLI command documentation found for: " ++ command)
             ("Try searching with search_terragrunt_docs or use get_section_docs with section "
                ++ String Patterns.quote
                     ("reference"
                        ++ String Patterns.quote " to see all available CLI commands")))
  | Some d =>
      Ret (CommandHelp command
             {| ex_title := title d; ex_url := url d; ex_section := section d;
                ex_text := content d; ex_lastUpdated := lastUpdated d |})
  end.

Definition toolGetHclConfigReference (config : string) : Async ToolResult :=
  docs <- getHclConfigReference ToolDocs config ;;
  if arrayLength docs =? 0 then
    Ret (ConfigNotFound config
           ("No HCL configuration documentation found for: " ++ config)
           ("Try searching with search_terragrunt_docs or use get_section_docs with section "
              ++ String Patterns.quote
                   ("reference"
                      ++ String Patterns.quote " to see all available HCL configurations")))
  else
    Ret (ConfigReference config (map (excerpt 800) docs) (arrayLength docs)).

Definition toolGetCodeExamples (topic : string) (limit : Z) : Async ToolResult :=
  results <- getCodeExamples ToolDocs topic ;;
  if arrayLength results =? 0 then
    Ret (ExamplesNotFound topic ("No code examples found for: " ++ topic)
           "Try a broader search term or use search_terragrunt_docs to find relevant documentation")
  else
    Ret (ExamplesResult topic
           (map (fun r => {| documentTitle := title (doc r);
                             documentUrl := url (doc r);
                             entry_section := section (doc r);
                             codeSnippets := examples r;
                             snippetCount := arrayLength (examples r) |})
                (Js.slice results 0 limit))
           (arrayLength results)
           (arrayLength results >? limit)).

(** [args?.p], and whether it is truthy. *)
Definition prop {A} (p : Args -> option A) (args : option Args) : option A :=
  match args with Some a => p a | None => None end.

Definition truthyArg (v : option string) : option string :=
  match v with
  | Some s => if Js.truthy s then Some s else None
  | None => None
  end.

(** A parameter with the default value 5. *)
Definition limitOr5 (limit : option Z) : Z :=
  match limit with Some n => n | None => 5 end.

Definition message (e : Exn) : string :=
  match e with
  | NetworkError => "request failed"
  | FsError => "file system error"
  | SyntaxError => "Unexpected token in JSON"
  | TypeError => "Cannot read properties"
  | RangeError => "Invalid time value"
  end.

Definition executeTool (name : string) (args : option Args) : Async ToolResult :=
  tryCatch
    (if String.eqb name "search_terragrunt_docs" then
       match truthyArg (prop arg_query args) with
       | None => Ret (ErrorResult "query parameter is required")
       | Some q => searchTerragruntDocs q (limitOr5 (prop arg_limit args))
       end
     else if String.eqb name "get_terragrunt_sections" then
       getTerragruntSections
     else if String.eqb name "get_section_docs" then
       match truthyArg (prop arg_section args) with
       | None => Ret (ErrorResult "section parameter is required")
       | Some s => getSectionDocs s
       end
     else if String.eqb name "get_cli_command_help" then
       match truthyArg (prop arg_command args) with
       | None => Ret (ErrorResult "command parameter is required")
       | Some c => toolGetCliCommandHelp c
       end
     else if String.eqb name "get_hcl_config_reference" then
       match truthyArg (prop arg_config args) with
       | None => Ret (ErrorResult "config parameter is required")
       | Some c => toolGetHclConfigReference c
       end
     else if String.eqb name "get_code_examples" then
       match truthyArg (prop arg_topic args) with
       | None => Ret (ErrorResult "topic parameter is required")
       | Some t => toolGetCodeExamples t (limitOr5 (prop arg_limit args))
       end
     else
       Ret (ErrorResult ("Unknown tool: " ++ name)))
    (fun e => Ret (ErrorResult (message e))).

(* ================================================================= *)
(** ** Interleaved calls

    Several calls can be pending at once; the language runs one of them
    at a time and switches between them only at an [await]. A pending
    call is the rest of its tree; a step runs one call up to and
    including its next awaited operation. *)

Module Sched.

(** Runs the synchronous code at the head of a call: up to its end or
    up to the next [await], which is performed. *)
Fixpoint segment {A} (m : Async A) (h : Heap) (w : World) : Async A * Heap * World :=
  match m with
  | Ret a => (Ret a, h, w)
  | Throw e => (Throw e, h, w)
  | Load o k => segment (k (h o)) h w
  | Store o s k => segment k (update h o s) w
  | DateNow k => segment (k (clock w)) h w
  | Await op k => let (r, w') := perform op w in (k r, h, w')
  end.

(** The state of two pending calls and the world they share. *)
Record Config (A B : Type) : Type := mkConfig {
  left : Async A;
  right : Async B;
  heap : Heap;
  world : World
}.

Inductive Turn : Type := L | R.

Definition step {A B} (t : Turn) (c : Config A B) : Config A B :=
  match t with
  | L => let '(m, h, w) := segment (left c) (heap c) (world c) in
         {| left := m; right := right c; heap := h; world := w |}
  | R => let '(m, h, w) := segment (right c) (heap c) (world c) in
         {| left := left c; right := m; heap := h; world := w |}
  end.

Definition steps {A B} (ts : list Turn) (c : Config A B) : Config A B :=
  fold_left (fun c t => step t c) ts c.

(** The value of a call that has returned. *)
Definition returned {A} (m : Async A) : option A :=
  match m with Ret a => Some a | _ => None end.

(** The states of the heap at the points where a call running alone
    is suspended, the state at its end being last. *)
Fixpoint suspensions {A} (m : Async A) (h : Heap) (w : World) : list Heap :=
  match m with
  | Ret _ | Throw _ => [h]
  | Load o k => suspensions (k (h o)) h w
  | Store o s k => suspensions k (update h o s) w
  | DateNow k => suspensions (k (clock w)) h w
  | Await op k => let (r, w') := perform op w in h :: suspensions (k r) h w'
  end.

End Sched.

(* ================================================================= *)
(** ** Vocabulary of the properties *)

Local Open Scope list_scope.

(** A call returns: it runs to completion with a value, whatever the
    heap and the world. *)
Definition Returns {A} (m : Async A) : Prop :=
  forall h w, exists a h' w', run m h w = (inr a, h', w').

(** The value with which a call ends, the heap and the world put
    aside. *)
Definition outcome {A} (m : Async A) (h : Heap) (w : World) : Exn + A :=
  fst (fst (run m h w)).

(** The documents of [docs] whose title hit is [t] and whose section
    hit is [s], in the order of [docs]. *)
Definition rankGroup (lq : string) (t s : bool) (docs : list TerragruntDoc)
  : list TerragruntDoc :=
  filter (fun d => Bool.eqb (lowerIncludes (title d) lq) t
                   && Bool.eqb (lowerIncludes (section d) lq) s) docs.

Definition ranked (lq : string) (docs : list TerragruntDoc) : list TerragruntDoc :=
  rankGroup lq true true docs ++ rankGroup lq true false docs
  ++ rankGroup lq false true docs ++ rankGroup lq false false docs.

(* ================================================================= *)
(** ** Sample inputs *)

Module Sample.

Definition hour : Z := 60 * 60 * 1000.

(** A manager whose in-process corpus is [docs], fetched at [t]. *)
Definition holding (docs : list TerragruntDoc) (t : Z) : DocsManager :=
  {| docsCache := fold_left (fun m d => JsMap.set (url d) d m) docs JsMap.empty;
     lastFetchTime := Some (Some t) |}.

(** Both managers hold [docs], fetched at [t]. *)
Definition warm (docs : list TerragruntDoc) (t : Z) : Heap :=
  fun _ => holding docs t.

(** Both managers are as constructed: nothing in memory. *)
Definition cold : Heap := fun _ => newDocsManager.

(** A snapshot of [docs] taken at [t]. *)
Definition snapshot (docs : list TerragruntDoc) (t : Z) (f : File) : FileState :=
  match f with
  | CacheFile => Holds (JSON_stringify (JDocs (map Some docs)))
  | MetadataFile =>
      Holds (JSON_stringify
               (JMetadata {| meta_lastFetchTime := Some t;
                             docsCount := Z.of_nat (List.length docs) |}))
  end.

Definition noSnapshot (f : File) : FileState := Absent.

(** A world at time [now] whose network is down. *)
Definition offline (now : Z) (d : File -> FileState) : World :=
  {| clock := now; latency := 0; disk := d; canMkdir := true;
     canWrite := fun _ => true; net := fun _ => None; requests := [];
     inflight := [] |}.

Definition overview : TerragruntDoc :=
  {| title := "Overview";
     url := "https://terragrunt.gruntwork.io/docs/features/overview/";
     content := "Overview"; section := "features"; lastUpdated := None |}.

Definition quickStart : TerragruntDoc :=
  {| title := "Quick Start";
     url := "https://terragrunt.gruntwork.io/docs/getting-started/quick-start/";
     content := "Install Terragrunt and run terragrunt plan in a unit.";
     section := "getting-started"; lastUpdated := None |}.

End Sample.

(* ================================================================= *)
(** ** The command lookup, tier by tier *)

(** Tier 1: the title is the command, letter case apart. *)
Definition tierTitleEquals (command : string) (d : TerragruntDoc) : bool :=
  String.eqb (Js.toLowerCase (title d)) (Js.toLowerCase command).

(** Tier 2: the command is a path segment of the url, letter case
    apart. *)
Definition tierUrlSegment (command : string) (d : TerragruntDoc) : bool :=
  Js.includes (Js.toLowerCase (url d)) (("/" ++ Js.toLowerCase command) ++ "/")%string
  || Js.endsWith (Js.toLowerCase (url d)) ("/" ++ Js.toLowerCase command)%string.

(** Tier 3: the title contains the command, letter case apart. *)
Definition tierTitleContains (command : string) (d : TerragruntDoc) : bool :=
  Js.includes (Js.toLowerCase (title d)) (Js.toLowerCase command).

(** Tier 4: the command followed by a space occurs in the content (the
    source looks for it in the lower-cased content). *)
Definition tierContentContains (command : string) (d : TerragruntDoc) : bool :=
  Js.includes (Js.toLowerCase (content d)) (command ++ " ")%string.

Definition orElse {A} (x y : option A) : option A :=
  match x with Some a => Some a | None => y end.

(** The lookup as the specification words it: the four tiers are tried
    strictly one after the other over the candidates, and the first
    tier that has a hit gives the result. *)
Definition lookupCommandHelp_spec (command : string) (docs : list TerragruntDoc)
  : option TerragruntDoc :=
  let candidates :=
    filter (fun d => String.eqb (section d) "reference"
                     && Js.includes (url d) "/cli/commands/") docs in
  orElse (find (tierTitleEquals command) candidates)
    (orElse (find (tierUrlSegment command) candidates)
       (orElse (find (tierTitleContains command) candidates)
          (find (tierContentContains command) candidates))).

Module SampleCli.

Definition runPlan : TerragruntDoc :=
  {| title := "Run";
     url := "https://terragrunt.gruntwork.io/docs/reference/cli/commands/run/plan/";
     content := "Run an OpenTofu or Terraform command.";
     section := "reference"; lastUpdated := None |}.

Definition plan : TerragruntDoc :=
  {| title := "Plan";
     url := "https://terragrunt.gruntwork.io/docs/reference/cli/commands/plan-all/";
     content := "Shows the changes of every unit.";
     section := "reference"; lastUpdated := None |}.

End SampleCli.

(* ================================================================= *)
(** ** A stale snapshot and a source that is down *)

Module SampleStale.

(** The snapshot was taken 25 hours before the call. *)
Definition takenAt : Z := 75 * Sample.hour.
Definition now : Z := 100 * Sample.hour.

Definition world : World :=
  Sample.offline now (Sample.snapshot [Sample.overview; Sample.quickStart] takenAt).

End SampleStale.

(* ================================================================= *)
(** ** A source that is up *)

Module SampleOnline.

Definition plainPage (t : string) : Response :=
  {| ok := true; status := 200;
     body := Some {| navAnchors := []; contentAnchors := [];
                     containerText := Some t; bodyText := t |} |}.

Definition index : Response :=
  {| ok := true; status := 200;
     body := Some {| navAnchors :=
                       [ {| href := "/docs/features/units/"; text := "Units" |};
                         {| href := "/docs/features/stacks/"; text := "Stacks" |} ];
                     contentAnchors := [];
                     containerText := None; bodyText := "" |} |}.

Definition unitsUrl : string := (baseUrl ++ "/docs/features/units/")%string.
Definition stacksUrl : string := (baseUrl ++ "/docs/features/stacks/")%string.

(** The index and its two pages are served; every other request
    fails. *)
Definition network (u : string) : option Response :=
  if String.eqb u indexUrl then Some index
  else if String.eqb u unitsUrl then Some (plainPage "A unit is a directory.")
  else if String.eqb u stacksUrl then Some (plainPage "A stack is a set of units.")
  else None.

Definition now : Z := 100 * Sample.hour.

Definition world : World :=
  {| clock := now; latency := 0; disk := Sample.noSnapshot; canMkdir := true;
     canWrite := fun _ => true; net := network; requests := [];
     inflight := [] |}.

Definition units : TerragruntDoc :=
  {| title := "Units"; url := unitsUrl; content := "A unit is a directory.";
     section := "features"; lastUpdated := Some now |}.

Definition stacks : TerragruntDoc :=
  {| title := "Stacks"; url := stacksUrl; content := "A stack is a set of units.";
     section := "features"; lastUpdated := Some now |}.

(** The corpus before the refresh: one document, fetched long ago. *)
Definition staleHeap : Heap := Sample.warm [Sample.overview] 0.

End SampleOnline.

(* ================================================================= *)
(** ** Generations of the corpus *)

(** The corpus obtained by storing [docs] one after the other in an
    empty map. *)
Definition cacheOf (docs : list TerragruntDoc) : JsMap.t :=
  fold_left (fun m d => JsMap.set (url d) d m) docs JsMap.empty.

(** Calls that never assign a field of a manager. *)
Inductive NoStore {A : Type} : Async A -> Prop :=
| NoStore_Ret (a : A) : NoStore (Ret a)
| NoStore_Throw (e : Exn) : NoStore (Throw e)
| NoStore_Load (o : Ref) (k : DocsManager -> Async A) :
    (forall s, NoStore (k s)) -> NoStore (Load o k)
| NoStore_DateNow (k : Z -> Async A) :
    (forall t, NoStore (k t)) -> NoStore (DateNow k)
| NoStore_Await (R : Type) (op : IO R) (k : Exn + R -> Async A) :
    (forall r, NoStore (k r)) -> NoStore (Await op k).

Module SampleRace.
Import SampleOnline.

(** A first caller refreshes the stale corpus while a reader searches
    it. *)
Definition start : Sched.Config (list TerragruntDoc) (list TerragruntDoc) :=
  {| Sched.left := fetchLatestDocs ResourceDocs;
     Sched.right := searchDocs ResourceDocs "i";
     Sched.heap := staleHeap;
     Sched.world := world |}.

(** The first caller sends its request for the index; the reader runs
    its own refresh up to the saving of the snapshot; the answer to the
    first caller arrives, and it clears the corpus and stores the first
    page; the reader saves and finishes. *)
Definition schedule : list Sched.Turn :=
  [Sched.L]
  ++ repeat Sched.R 11
  ++ [Sched.L; Sched.L; Sched.L; Sched.L]
  ++ [Sched.R; Sched.R].

End SampleRace.

Module SampleReload.
Import SampleOnline.

(** The corpus in memory is stale, and the snapshot on disk, which both
    managers share, was written an hour ago. *)
Definition world : World :=
  {| clock := now; latency := 0;
     disk := Sample.snapshot [Sample.overview] (99 * Sample.hour);
     canMkdir := true; canWrite := fun _ => true; net := network;
     requests := []; inflight := [] |}.

Definition start : Sched.Config (list TerragruntDoc) (list TerragruntDoc) :=
  {| Sched.left := fetchLatestDocs ResourceDocs;
     Sched.right := searchDocs ResourceDocs "i";
     Sched.heap := staleHeap;
     Sched.world := world |}.

(** The first caller fetches the index, clears the corpus and sends its
    request for the first page; the reader finds the corpus empty, loads
    the snapshot into it and returns; the first caller stores its pages
    on top of that, saves and returns. *)
Definition schedule : list Sched.Turn :=
  repeat Sched.L 3 ++ repeat Sched.R 5 ++ repeat Sched.L 10.

End SampleReload.

(* ================================================================= *)
(** ** A source that answers with an error status *)

Module SampleError.

Definition errorPage : Response :=
  {| ok := false; status := 500;
     body := Some {| navAnchors := []; contentAnchors := [];
                     containerText := None;
                     bodyText := "Internal Server Error" |} |}.

(** Every request is answered, with status 500. *)
Definition world : World :=
  {| clock := 100 * Sample.hour; latency := 0; disk := Sample.noSnapshot;
     canMkdir := true; canWrite := fun _ => true;
     net := fun _ => Some errorPage; requests := []; inflight := [] |}.

(** The in-process corpus holds one document, fetched long ago. *)
Definition staleHeap : Heap := Sample.warm [Sample.overview] 0.

End SampleError.

(* ================================================================= *)
(** ** Twenty documents with code *)

Module SampleExamples.

(** The [n]-th document: all of them match the topic [dependency] and
    hold the same three fragments, one of them twice. *)
Definition numbered (n : nat) : TerragruntDoc :=
  let tag := String.concat "" (repeat "i" n) in
  {| title := ("Dependency " ++ tag)%string;
     url := (baseUrl ++ "/docs/features/dependency-" ++ tag ++ "/")%string;
     content := "Run terragrunt plan first. Then terraform { source = 1 } and inputs = { id = 1 } or inputs = { id = 1 } again.";
     section := "features"; lastUpdated := None |}.

Definition corpus : list TerragruntDoc := map numbered (seq 0 20).

Definition fragments : list string :=
  [ "terragrunt plan first. Then terraform { source = 1 } and inputs = { id = 1 } or inputs = { id = 1 } again.";
    "terraform { source = 1 }";
    "inputs = { id = 1 }" ].

End SampleExamples.

(* ================================================================= *)
(** ** States of a manager *)

(** The corpus of [m] is not stale at [now]: it has a fetch time, and
    the test [now - lastFetchTime > cacheExpiry] is false (as it is for
    an invalid date). *)
Definition Fresh (m : DocsManager) (now : Z) : Prop :=
  exists d : Date,
    lastFetchTime m = Some d /\ numGt (elapsedSince now d) cacheExpiry = false.

(** The manager holds documents and they are not stale. *)
Definition Warm (this : Ref) (h : Heap) (w : World) : Prop :=
  docsCache (h this) <> [] /\ Fresh (h this) (clock w).

(** Every key of the map is the url of the document stored under it,
    and no key occurs twice. *)
Definition WellKeyed (m : JsMap.t) : Prop :=
  Forall (fun kv => fst kv = url (snd kv)) m /\ NoDup (map fst m).

(** The disk holds a snapshot of [docs] whose metadata gives the fetch
    time [fetched]. *)
Definition ValidSnapshot (w : World) (docs : list TerragruntDoc) (fetched : Date) : Prop :=
  disk w CacheFile = Holds (Json (JDocs (map Some docs))) /\
  exists v : JsonValue,
    disk w MetadataFile = Holds (Json v) /\ dateOfLastFetchTime v = inr fetched.

(** The snapshot is absent: one of its two files does not exist. *)
Definition NoSnapshot (w : World) : Prop :=
  disk w CacheFile = Absent \/ disk w MetadataFile = Absent.

(** A call keeps the property [I] of the heap: if [I] holds when the
    call starts, it holds when the call ends. *)
Definition Keeps (I : Heap -> Prop) {A} (m : Async A) : Prop :=
  forall h w, I h -> I (snd (fst (run m h w))).

(** The pages gathered so far have distinct urls and titles that are
    not empty. *)
Definition GoodPages (pages : list Page) : Prop :=
  NoDup (map page_url pages) /\
  Forall (fun p => Js.truthy (page_title p) = true) pages.

(** The strict order of strings by character codes. *)
Definition strLt (a b : string) : Prop := String.compare a b = Lt.

(* ================================================================= *)
(** ** The tools and their required parameters *)

(** The names that [executeTool] dispatches on. *)
Definition toolNames : list string :=
  [ "search_terragrunt_docs"; "get_terragrunt_sections"; "get_section_docs";
    "get_cli_command_help"; "get_hcl_config_reference"; "get_code_examples" ].

(** The tools that require a parameter: the name of the tool, the
    parameter, and the message of the error when it is missing. *)
Definition guardedTools : list (string * (Args -> option string) * string) :=
  [ ("search_terragrunt_docs", arg_query, "query parameter is required");
    ("get_section_docs", arg_section, "section parameter is required");
    ("get_cli_command_help", arg_command, "command parameter is required");
    ("get_hcl_config_reference", arg_config, "config parameter is required");
    ("get_code_examples", arg_topic, "topic parameter is required") ].

(* ================================================================= *)
(** ** [ResourceHandler]: the resources *)

Module JsText.

(** The line feed. *)
Definition nl : string := String (ascii_of_nat 10) EmptyString.

(** An integer in a template: its decimal digits. *)
Definition numberToString (z : Z) : string := NilZero.string_of_int (Z.to_int z).

(** [s.replace(pat, '')] for a string [pat]: the first occurrence of
    [pat] is removed. *)
Fixpoint removeFirst (s pat : string) : string :=
  if Js.startsWith s pat then String.substring (String.length pat) (String.length s) s
  else match s with
       | EmptyString => EmptyString
       | String c s' => String c (removeFirst s' pat)
       end.

End JsText.

Record Resource : Type := mkResource {
  res_uri : string;
  res_name : string;
  res_description : string;
  res_mimeType : string
}.

(** What [getResource] returns: one text and its type. *)
Record ResourceContents : Type := mkContents {
  rc_text : string;
  rc_mimeType : string
}.

Definition overviewUri : string := "terragrunt://docs/overview".
Definition sectionPrefix : string := "terragrunt://docs/section/".
Definition pagePrefix : string := "terragrunt://docs/page/".
Definition errorUri : string := "terragrunt://error".

Definition overviewResource : Resource :=
  {| res_uri := overviewUri;
     res_name := "Terragrunt Documentation Overview";
     res_description := "Complete overview of all Terragrunt documentation";
     res_mimeType := "text/markdown" |}.

Definition errorResource : Resource :=
  {| res_uri := errorUri;
     res_name := "Documentation Error";
     res_description := "Failed to load Terragrunt documentation";
     res_mimeType := "text/plain" |}.

Definition sectionResource (s : string) : Resource :=
  {| res_uri := (sectionPrefix ++ s)%string;
     res_name := ("Terragrunt " ++ s ++ " Documentation")%string;
     res_description :=
       ("Documentation for Terragrunt " ++ s ++ " features and concepts")%string;
     res_mimeType := "text/markdown" |}.

Definition markdown (t : string) : ResourceContents :=
  {| rc_text := t; rc_mimeType := "text/markdown" |}.

Definition plain (t : string) : ResourceContents :=
  {| rc_text := t; rc_mimeType := "text/plain" |}.

(** The text of the overview: the loop over the sections. *)
Definition overviewSection (docs : list TerragruntDoc) (content sec : string) : string :=
  let sectionDocs := filter (fun d => String.eqb (section d) sec) docs in
  let content :=
    (content ++ "### " ++ sec ++ " ("
       ++ JsText.numberToString (arrayLength sectionDocs) ++ " pages)"
       ++ JsText.nl ++ JsText.nl)%string in
  let content :=
    fold_left
      (fun c d => (c ++ "- [" ++ title d ++ "](" ++ url d ++ ")" ++ JsText.nl)%string)
      (Js.slice sectionDocs 0 10) content in
  let content :=
    if arrayLength sectionDocs >? 10
    then (content ++ "- ... and "
            ++ JsText.numberToString (arrayLength sectionDocs - 10)
            ++ " more pages" ++ JsText.nl)%string
    else content in
  (content ++ JsText.nl)%string.

Definition overviewText (docs : list TerragruntDoc) (sections : list string) : string :=
  fold_left (overviewSection docs) sections
    ("# Terragrunt Documentation Overview" ++ JsText.nl ++ JsText.nl
       ++ "Total documentation pages: " ++ JsText.numberToString (arrayLength docs)
       ++ JsText.nl ++ JsText.nl
       ++ "## Available Sections:" ++ JsText.nl ++ JsText.nl)%string.

Definition sectionText (sec : string) (docs : list TerragruntDoc) : string :=
  ("# Terragrunt " ++ sec ++ " Documentation" ++ JsText.nl ++ JsText.nl
     ++ String.concat JsText.nl
          (map (fun d => ("## " ++ title d ++ JsText.nl ++ JsText.nl ++ content d
                            ++ JsText.nl ++ JsText.nl ++ "---" ++ JsText.nl)%string)
               docs))%string.

Section Resources.

(** The functions of the language that the resource handler calls:
    whether a string is well formed ([s.isWellFormed()]: it holds no
    lone surrogate), the encoding of a uri component, which throws a
    [URIError] on a string that is not well formed and gives
    [encodeURIComponent s] on one that is, its decoding ([None] when it
    throws: the component is malformed), and the text of a date. *)
Variable isWellFormed : string -> bool.
Variable encodeURIComponent : string -> string.
Variable decodeURIComponent : string -> option string.
Variable toISOString : Z -> string.

Definition pageResource (d : TerragruntDoc) : Resource :=
  {| res_uri := (pagePrefix ++ encodeURIComponent (url d))%string;
     res_name := title d;
     res_description :=
       ("Documentation: " ++ title d ++ " (" ++ section d ++ ")")%string;
     res_mimeType := "text/markdown" |}.

(** The loop over the pages: [inr] is the array once every page is
    pushed, [inl] the array as it is when [encodeURIComponent] throws. *)
Fixpoint pushPages (resources : list Resource) (docs : list TerragruntDoc)
  : list Resource + list Resource :=
  match docs with
  | [] => inr resources
  | d :: rest =>
      if isWellFormed (url d) then pushPages (resources ++ [pageResource d]) rest
      else inl resources
  end.

(** [ResourceHandler.listResources]. The array [resources] is filled
    inside the [try]: nothing is pushed before the two calls have
    returned, then come the sections and the pages, and the overview is
    put in front last. The handler of the [try] pushes the error
    resource onto whatever the array holds when the exception is
    thrown. *)
Definition listResources : Async (list Resource) :=
  gathered <-
    tryCatch
      (docs <- fetchLatestDocs ResourceDocs ;;
       sections <- getAvailableSections ResourceDocs ;;
       let limitedDocs := Js.slice docs 0 50 in
       Ret (pushPages (map sectionResource sections) limitedDocs))
      (fun _ => Ret (inl [])) ;;
  match gathered with
  | inr resources => Ret (overviewResource :: resources)
  | inl resources => Ret (resources ++ [errorResource])
  end.

Definition pageText (d : TerragruntDoc) : string :=
  ("# " ++ title d ++ JsText.nl ++ JsText.nl
     ++ "**Source:** [" ++ url d ++ "](" ++ url d ++ ")" ++ JsText.nl
     ++ "**Section:** " ++ section d ++ JsText.nl
     ++ "**Last Updated:** "
     ++ match lastUpdated d with
        | Some t => toISOString t
        | None => "undefined"
        end
     ++ JsText.nl ++ JsText.nl ++ "---" ++ JsText.nl ++ JsText.nl
     ++ content d)%string.

(** The body of the [try] of [getResource]: [inl msg] stands for
    [throw new Error(msg)], which ends the branch it is in. *)
Definition getResourceBody (uri : string) : Async (string + ResourceContents) :=
  if String.eqb uri overviewUri then
    docs <- fetchLatestDocs ResourceDocs ;;
    sections <- getAvailableSections ResourceDocs ;;
    Ret (inr (markdown (overviewText docs sections)))
  else if Js.startsWith uri sectionPrefix then
    let sec := JsText.removeFirst uri sectionPrefix in
    docs <- getDocBySection ResourceDocs sec ;;
    if arrayLength docs =? 0
    then Ret (inl ("No documentation found for section: " ++ sec)%string)
    else Ret (inr (markdown (sectionText sec docs)))
  else if Js.startsWith uri pagePrefix then
    match decodeURIComponent (JsText.removeFirst uri pagePrefix) with
    | None => Ret (inl "URI malformed")
    | Some pageUrl =>
        docs <- fetchLatestDocs ResourceDocs ;;
        match Js.find (fun d => String.eqb (url d) pageUrl) docs with
        | None => Ret (inl ("Documentation page not found: " ++ pageUrl)%string)
        | Some d => Ret (inr (markdown (pageText d)))
        end
    end
  else if String.eqb uri errorUri then
    Ret (inr (plain "Failed to load Terragrunt documentation. Please check your internet connection and try again."))
  else
    Ret (inl ("Unknown resource URI: " ++ uri)%string).

(** [ResourceHandler.getResource] *)
Definition getResource (uri : string) : Async ResourceContents :=
  r <- tryCatch (getResourceBody uri) (fun e => Ret (inl (message e))) ;;
  Ret match r with
      | inl msg => plain ("Error: " ++ msg)%string
      | inr c => c
      end.

End Resources.

(* ================================================================= *)
(** ** An instance of the uri functions

    The percent-encoding of the language on the strings of the model,
    whose characters are the code points 0 to 255: a character that is
    not unreserved is written as the bytes of its UTF-8 form, one byte
    below 128 and two bytes from 128 on. The decoding accepts what
    the language accepts and decodes into that range; anything else is
    rejected. *)

Module Uri.

Definition between (lo hi n : nat) : bool := ((lo <=? n) && (n <=? hi))%nat.

(** Letters, digits and [- _ . ! ~ * ' ( )]. *)
Definition isUnreserved (c : ascii) : bool :=
  let n := nat_of_ascii c in
  between 65 90 n || between 97 122 n || between 48 57 n
  || existsb (Nat.eqb n) [45; 95; 46; 33; 126; 42; 39; 40; 41]%nat.

Definition hexDigit (n : nat) : ascii :=
  if (n <? 10)%nat then ascii_of_nat (48 + n) else ascii_of_nat (55 + n).

Definition percent : ascii := ascii_of_nat 37.

Definition escape (b : nat) : string :=
  String percent (String (hexDigit (b / 16)) (String (hexDigit (b mod 16)) EmptyString)).

Definition encodeChar (c : ascii) : string :=
  let n := nat_of_ascii c in
  if isUnreserved c then String c EmptyString
  else if (n <? 128)%nat then escape n
  else (escape (192 + n / 64) ++ escape (128 + n mod 64))%string.

Fixpoint encodeURIComponent (s : string) : string :=
  match s with
  | EmptyString => EmptyString
  | String c s' => (encodeChar c ++ encodeURIComponent s')%string
  end.

Definition hexValue (c : ascii) : option nat :=
  let n := nat_of_ascii c in
  if between 48 57 n then Some (n - 48)%nat
  else if between 65 70 n then Some (n - 55)%nat
  else if between 97 102 n then Some (n - 87)%nat
  else None.

Definition byteOf (h1 h2 : ascii) : option nat :=
  match hexValue h1, hexValue h2 with
  | Some a, Some b => Some (16 * a + b)%nat
  | _, _ => None
  end.

Fixpoint decodeURIComponent (s : string) : option string :=
  match s with
  | EmptyString => Some EmptyString
  | String c rest =>
      if negb (Ascii.eqb c percent) then option_map (String c) (decodeURIComponent rest)
      else
        match rest with
        | String h1 (String h2 rest2) =>
            match byteOf h1 h2 with
            | None => None
            | Some b =>
                if (b <? 128)%nat
                then option_map (String (ascii_of_nat b)) (decodeURIComponent rest2)
                else if between 194 195 b then
                  match rest2 with
                  | String p (String h3 (String h4 rest3)) =>
                      match byteOf h3 h4 with
                      | Some b2 =>
                          if Ascii.eqb p percent && between 128 191 b2
                          then option_map
                                 (String (ascii_of_nat ((b - 192) * 64 + (b2 - 128))))
                                 (decodeURIComponent rest3)
                          else None
                      | None => None
                      end
                  | _ => None
                  end
                else None
            end
        | _ => None
        end
  end.

(** [z] in decimal, with zeros in front up to [width] digits. *)
Definition pad (width : nat) (z : Z) : string :=
  let s := JsText.numberToString z in
  (String.concat "" (repeat "0" (width - String.length s)%nat) ++ s)%string.

(** The year of an ISO date: four digits, or a sign and six digits
    outside of 0 to 9999. *)
Definition year (y : Z) : string :=
  if ((0 <=? y) && (y <=? 9999))%Z then pad 4 y
  else ((if (y <? 0)%Z then "-" else "+") ++ pad 6 (Z.abs y))%string.

(** [new Date(t).toISOString()]: the date of the proleptic Gregorian
    calendar and the time of day, in UTC, of [t] milliseconds after the
    epoch. *)
Definition toISOString (t : Z) : string :=
  let days := t / 86400000 in
  let ms := t mod 86400000 in
  let z := days + 719468 in
  let era := z / 146097 in
  let doe := z - era * 146097 in
  let yoe := (doe - doe / 1460 + doe / 36524 - doe / 146096) / 365 in
  let doy := doe - (365 * yoe + yoe / 4 - yoe / 100) in
  let mp := (5 * doy + 2) / 153 in
  let d := doy - (153 * mp + 2) / 5 + 1 in
  let m := if (mp <? 10)%Z then mp + 3 else mp - 9 in
  let y := yoe + era * 400 + (if (m <=? 2)%Z then 1 else 0) in
  (year y ++ "-" ++ pad 2 m ++ "-" ++ pad 2 d ++ "T"
     ++ pad 2 (ms / 3600000) ++ ":" ++ pad 2 (ms / 60000 mod 60) ++ ":"
     ++ pad 2 (ms / 1000 mod 60) ++ "." ++ pad 3 (ms mod 1000) ++ "Z")%string.

End Uri.

(* ================================================================= *)
(** ** The words that open a code fragment *)

(** The literal that each pattern of [extractCodeBlocks] starts with,
    in the order of the patterns. *)
Definition codeKeywords : list string :=
  [ "terragrunt"; "terraform"; "remote_state"; "dependency"; "include"; "inputs" ].

(* ================================================================= *)
(** ** The request handlers of the server

    The four handlers that [setupHandlers] registers; the one that
    lists the tools calls nothing that can fail and is left out. A
    request reaches a handler with the parameters that its schema
    requires. *)

(** The answer to a tool call: the text of its one content item, and
    whether [isError] is set. *)
Record CallToolResponse : Type := mkCallToolResponse {
  ctr_text : string;
  ctr_isError : bool
}.

Section Server.

(** [JSON.stringify(result, null, 2)] on the objects of the tools. *)
Variable stringify : ToolResult -> string.
Variable isWellFormed : string -> bool.
Variable encodeURIComponent : string -> string.
Variable decodeURIComponent : string -> option string.
Variable toISOString : Z -> string.

Definition listResourcesHandler : Async (list Resource) :=
  tryCatch (listResources isWellFormed encodeURIComponent) (fun _ => Ret []).

(** The answer holds the [contents] of the resource: the type of the
    text is dropped. *)
Definition readResourceHandler (uri : string) : Async string :=
  tryCatch
    (resource <- getResource decodeURIComponent toISOString uri ;;
     Ret (rc_text resource))
    (fun e => Ret ("Error: " ++ message e)%string).

Definition callToolHandler (name : string) (args : option Args) : Async CallToolResponse :=
  tryCatch
    (result <- executeTool name args ;;
     Ret {| ctr_text := stringify result; ctr_isError := false |})
    (fun e => Ret {| ctr_text := ("Error: " ++ message e)%string; ctr_isError := true |}).

End Server.

(* ================================================================= *)
(** * Properties *)

(** ** Running sequences and handlers *)

Section RunLaws.

Context {A B : Type}.

Lemma run_bind (m : Async A) (f : A -> Async B) (h : Heap) (w : World) :
  run (bind m f) h w =
  match run m h w with
  | (inr a, h', w') => run (f a) h' w'
  | (inl e, h', w') => (inl e, h', w')
  end.
Proof.
  revert h w.
  induction m as [a | e | o k IH | o s k IH | k IH | R op k IH];
    intros h w; simpl.
  - destruct (run (f a) h w) as [[[e | b] h'] w']; reflexivity.
  - reflexivity.
  - apply IH.
  - apply IH.
  - apply IH.
  - destruct (perform op w) as [r w']. apply IH.
Qed.

Lemma run_tryCatch (m : Async A) (c : Exn -> Async A) (h : Heap) (w : World) :
  run (tryCatch m c) h w =
  match run m h w with
  | (inl e, h', w') => run (c e) h' w'
  | r => r
  end.
Proof.
  revert h w.
  induction m as [a | e | o k IH | o s k IH | k IH | R op k IH];
    intros h w; simpl.
  - reflexivity.
  - destruct (run (c e) h w) as [[[e' | b] h'] w']; reflexivity.
  - apply IH.
  - apply IH.
  - apply IH.
  - destruct (perform op w) as [r w']. apply IH.
Qed.

End RunLaws.

Lemma returns_ret {A} (a : A) : Returns (Ret a).
Proof. intros h w. exists a, h, w. reflexivity. Qed.

Lemma returns_bind {A B} (m : Async A) (f : A -> Async B) :
  Returns m -> (forall a, Returns (f a)) -> Returns (bind m f).
Proof.
  intros Hm Hf h w. destruct (Hm h w) as (a & h1 & w1 & E1).
  destruct (Hf a h1 w1) as (b & h2 & w2 & E2).
  exists b, h2, w2. rewrite run_bind, E1. exact E2.
Qed.

(** A [try] whose handler returns always returns, whatever its body
    throws. *)
Lemma returns_tryCatch {A} (m : Async A) (c : Exn -> Async A) :
  (forall e, Returns (c e)) -> Returns (tryCatch m c).
Proof.
  intros Hc h w. rewrite run_tryCatch.
  destruct (run m h w) as [[[e | a] h1] w1].
  - apply Hc.
  - exists a, h1, w1. reflexivity.
Qed.

Lemma returns_load (o : Ref) : Returns (load o).
Proof. intros h w. exists (h o), h, w. reflexivity. Qed.

Lemma returns_dateNow : Returns dateNow.
Proof. intros h w. exists (clock w), h, w. reflexivity. Qed.

Lemma returns_loadCacheFromDisk (this : Ref) : Returns (loadCacheFromDisk this).
Proof. apply returns_tryCatch. intros _. apply returns_ret. Qed.

Lemma returns_saveCacheToDisk (this : Ref) : Returns (saveCacheToDisk this).
Proof. apply returns_tryCatch. intros _. apply returns_ret. Qed.

Lemma returns_refreshDocsCache (this : Ref) : Returns (refreshDocsCache this).
Proof. apply returns_tryCatch. intros _. apply returns_ret. Qed.

Lemma returns_shouldRefreshCache (this : Ref) : Returns (shouldRefreshCache this).
Proof.
  apply returns_bind; [apply returns_load |].
  intros self. destruct (lastFetchTime self).
  - apply returns_bind; [apply returns_dateNow | intros; apply returns_ret].
  - apply returns_ret.
Qed.

Lemma returns_cacheValues (this : Ref) : Returns (cacheValues this).
Proof.
  apply returns_bind; [apply returns_load | intros; apply returns_ret].
Qed.

(** The corpus source, on the contrary, can throw: the request for the
    index is not guarded. *)
Lemma getDocumentationPages_throws (h : Heap) (w : World) :
  net w indexUrl = None ->
  fst (fst (run getDocumentationPages h w)) = inl NetworkError.
Proof.
  intros E. unfold getDocumentationPages, await. simpl. rewrite E. reflexivity.
Qed.

Lemma fetchLatestDocs_total (this : Ref) : Returns (fetchLatestDocs this).
Proof.
  unfold fetchLatestDocs.
  apply returns_bind; [apply returns_load |]. intros self.
  apply returns_bind.
  - destruct (JsMap.size (docsCache self) =? 0); [| apply returns_ret].
    apply returns_bind; [apply returns_loadCacheFromDisk |].
    intros [|]; [| apply returns_ret].
    apply returns_bind; [apply returns_shouldRefreshCache |].
    intros [|]; cbn [negb]; [apply returns_ret |].
    apply returns_bind; [apply returns_cacheValues | intros; apply returns_ret].
  - intros [docs |]; [apply returns_ret |].
    apply returns_bind; [apply returns_shouldRefreshCache |].
    intros stale. apply returns_bind; [| intros; apply returns_cacheValues].
    destruct stale; [apply returns_refreshDocsCache | apply returns_ret].
Qed.

(** C1. [fetchLatestDocs] terminates and returns a list of documents
    (possibly empty) for every state of the in-process cache (the heap),
    and every disk and network (the world): whatever the corpus source,
    the loading of the snapshot or its saving throw is caught inside,
    and the call never ends by an exception. (Every awaited operation
    of the world settles: it is fulfilled or rejected.) *)
Theorem fetchLatestDocs_never_throws (this : Ref) (h : Heap) (w : World) :
  exists (docs : list TerragruntDoc) (h' : Heap) (w' : World),
    run (fetchLatestDocs this) h w = (inr docs, h', w').
Proof. exact (fetchLatestDocs_total this h w). Qed.

(* ----------------------------------------------------------------- *)
(** ** Search: matching and ranking *)

Section StableSort.

Context {A : Type} (cmp : A -> A -> Z).

Lemma sort_snoc (l : list A) (x : A) :
  Js.sort cmp (l ++ [x]) = Js.insertBy cmp x (Js.sort cmp l).
Proof. unfold Js.sort. rewrite fold_left_app. reflexivity. Qed.

(** An element is inserted after the elements that may stay before it,
    in front of the first one that may not. *)
Lemma insertBy_between (x : A) (l1 l2 : list A) :
  (forall y, In y l1 -> (cmp y x <=? 0) = true) ->
  (forall y, In y l2 -> (cmp y x <=? 0) = false) ->
  Js.insertBy cmp x (l1 ++ l2) = l1 ++ x :: l2.
Proof.
  intros H1 H2. induction l1 as [| y l1 IH]; simpl.
  - destruct l2 as [| y l2]; simpl; [reflexivity |].
    rewrite (H2 y) by (left; reflexivity). reflexivity.
  - rewrite (H1 y) by (left; reflexivity). f_equal.
    apply IH. intros z Hz. apply H1. right. exact Hz.
Qed.

End StableSort.

Lemma filter_snoc {A} (p : A -> bool) (l : list A) (x : A) :
  filter p (l ++ [x]) = filter p l ++ (if p x then [x] else []).
Proof. rewrite filter_app. simpl. destruct (p x); reflexivity. Qed.

Lemma rankGroup_In (lq : string) (t s : bool) (docs : list TerragruntDoc) (d : TerragruntDoc) :
  In d (rankGroup lq t s docs) ->
  lowerIncludes (title d) lq = t /\ lowerIncludes (section d) lq = s.
Proof.
  unfold rankGroup. rewrite filter_In. intros [_ H].
  apply andb_true_iff in H. destruct H as [H1 H2].
  split; apply Bool.eqb_prop; assumption.
Qed.

Lemma searchCompare_le (lq : string) (a b : TerragruntDoc) :
  (searchCompare lq a b <=? 0) =
  match lowerIncludes (title a) lq, lowerIncludes (title b) lq with
  | true, false => true
  | false, true => false
  | _, _ => orb (lowerIncludes (section a) lq) (negb (lowerIncludes (section b) lq))
  end.
Proof.
  unfold searchCompare.
  destruct (lowerIncludes (title a) lq), (lowerIncludes (title b) lq),
    (lowerIncludes (section a) lq), (lowerIncludes (section b) lq); reflexivity.
Qed.

Ltac group_facts :=
  repeat match goal with
  | H : In _ (_ ++ _) |- _ => apply in_app_or in H; destruct H as [H | H]
  | H : In _ (rankGroup _ _ _ _) |- _ =>
      apply rankGroup_In in H; destruct H as [?Ht ?Hs]
  end.

(** The stable sort of [searchDocs] lays the documents out in the four
    groups, each in its original order. *)
Lemma sort_searchCompare (lq : string) (docs : list TerragruntDoc) :
  Js.sort (searchCompare lq) docs = ranked lq docs.
Proof.
  induction docs as [| x docs IH] using rev_ind; [reflexivity |].
  rewrite sort_snoc, IH. unfold ranked, rankGroup.
  rewrite !filter_snoc. fold (rankGroup lq true true docs)
    (rankGroup lq true false docs) (rankGroup lq false true docs)
    (rankGroup lq false false docs).
  destruct (lowerIncludes (title x) lq) eqn:Tx,
    (lowerIncludes (section x) lq) eqn:Sx; cbn [Bool.eqb andb];
    rewrite ?app_nil_r.
  - rewrite <- app_assoc. cbn [app].
    apply insertBy_between; intros y Hy; rewrite searchCompare_le, Tx, Sx;
      group_facts; rewrite Ht, ?Hs; reflexivity.
  - rewrite <- (app_assoc _ [x]). cbn [app].
    rewrite (app_assoc (rankGroup lq true true docs)).
    rewrite (app_assoc (rankGroup lq true true docs) (rankGroup lq true false docs) (x :: _)).
    apply insertBy_between; intros y Hy; rewrite searchCompare_le, Tx, Sx;
      group_facts; rewrite Ht, ?Hs; reflexivity.
  - rewrite <- (app_assoc _ [x]). cbn [app].
    rewrite !(app_assoc (rankGroup lq true true docs)).
    rewrite !(app_assoc (rankGroup lq true true docs ++ rankGroup lq true false docs)).
    apply insertBy_between; intros y Hy; rewrite searchCompare_le, Tx, Sx;
      group_facts; rewrite Ht, ?Hs; reflexivity.
  - rewrite !(app_assoc (rankGroup lq true true docs)).
    rewrite !(app_assoc (rankGroup lq true true docs ++ rankGroup lq true false docs)).
    rewrite (app_assoc _ (rankGroup lq false false docs) [x]).
    rewrite <- (app_nil_r (_ ++ rankGroup lq false false docs)) at 1.
    rewrite insertBy_between; [reflexivity | |]; intros y Hy;
      [| destruct Hy]; rewrite searchCompare_le, Tx, Sx;
      group_facts; rewrite Ht, ?Hs; reflexivity.
Qed.

Lemma rankGroup_filter (lq : string) (t s : bool) (docs : list TerragruntDoc) :
  rankGroup lq t s docs =
  filter (fun d => (if t then fun b => b else negb) (lowerIncludes (title d) lq)
                   && (if s then fun b => b else negb) (lowerIncludes (section d) lq))
         docs.
Proof.
  apply filter_ext. intros d.
  destruct t, s, (lowerIncludes (title d) lq), (lowerIncludes (section d) lq);
    reflexivity.
Qed.

(** C4. For every corpus and every query (in particular every query
    that is neither empty nor made of white space only), [searchDocs]
    returns exactly the documents whose title, content or section
    contains the case-folded query, laid out as: those whose title and
    section contain it, then those whose title only contains it, then
    those whose section only contains it, then the others; each of the
    four groups is a [filter] of the corpus, so documents tied on both
    criteria keep the order of the corpus. *)
Theorem searchDocs_matches_ranked (this : Ref) (query : string) (h : Heap) (w : World) :
  let hit (field : TerragruntDoc -> string) (d : TerragruntDoc) :=
    Js.includes (Js.toLowerCase (field d)) (Js.toLowerCase query) in
  exists (docs : list TerragruntDoc) (h' : Heap) (w' : World),
    run (fetchLatestDocs this) h w = (inr docs, h', w') /\
    let matches :=
      filter (fun d => hit title d || hit content d || hit section d) docs in
    run (searchDocs this query) h w =
    (inr (filter (fun d => hit title d && hit section d) matches
          ++ filter (fun d => hit title d && negb (hit section d)) matches
          ++ filter (fun d => negb (hit title d) && hit section d) matches
          ++ filter (fun d => negb (hit title d) && negb (hit section d)) matches),
     h', w').
Proof.
  intros hit.
  destruct (fetchLatestDocs_total this h w) as (docs & h' & w' & E).
  exists docs, h', w'. split; [exact E |].
  unfold searchDocs. rewrite run_bind, E. cbn [run].
  rewrite sort_searchCompare. unfold ranked. rewrite !rankGroup_filter.
  reflexivity.
Qed.

Lemma includes_empty (s : string) : Js.includes s "" = true.
Proof. destruct s; reflexivity. Qed.

Lemma filter_true {A} (p : A -> bool) (l : list A) :
  (forall x, p x = true) -> filter p l = l.
Proof.
  intros H. induction l as [| x l IH]; simpl; [reflexivity |].
  rewrite H, IH. reflexivity.
Qed.

Lemma filter_false {A} (p : A -> bool) (l : list A) :
  (forall x, p x = false) -> filter p l = [].
Proof.
  intros H. induction l as [| x l IH]; simpl; [reflexivity |].
  rewrite H, IH. reflexivity.
Qed.

Lemma insertBy_In {A} (cmp : A -> A -> Z) (x z : A) (l : list A) :
  In z (Js.insertBy cmp x l) <-> z = x \/ In z l.
Proof.
  induction l as [| y l IH]; simpl.
  - intuition.
  - destruct (cmp y x <=? 0); simpl; rewrite ?IH; intuition.
Qed.

Lemma sort_In {A} (cmp : A -> A -> Z) (z : A) (l : list A) :
  In z (Js.sort cmp l) <-> In z l.
Proof.
  unfold Js.sort.
  assert (G : forall acc, In z (fold_left (fun acc x => Js.insertBy cmp x acc) l acc)
                          <-> In z l \/ In z acc).
  { induction l as [| x l IH]; intros acc; simpl.
    - tauto.
    - rewrite IH, insertBy_In. split; [intros [H | [-> | H]] | intros [[-> | H] | H]]; auto. }
  rewrite G. simpl. tauto.
Qed.

Lemma isSpace_lowerChar (c : ascii) : Js.isSpace (Js.lowerChar c) = Js.isSpace c.
Proof.
  destruct c as [[] [] [] [] [] [] [] []]; reflexivity.
Qed.

(** White space has no letter case. *)
Lemma lowerChar_space (c : ascii) : Js.isSpace c = true -> Js.lowerChar c = c.
Proof.
  destruct c as [[] [] [] [] [] [] [] []]; intros H; try reflexivity; discriminate H.
Qed.

Lemma eqb_lowerChar_space (b a : ascii) :
  Js.isSpace b = true -> Ascii.eqb b (Js.lowerChar a) = Ascii.eqb b a.
Proof.
  intros Hb. destruct (Ascii.eqb_spec b a) as [<- | Hne].
  - rewrite lowerChar_space by exact Hb. apply Ascii.eqb_refl.
  - apply Ascii.eqb_neq. intros E. apply Hne.
    assert (Ha : Js.isSpace a = true) by (rewrite <- isSpace_lowerChar, <- E; exact Hb).
    rewrite (lowerChar_space a Ha) in E. exact E.
Qed.

(** A text that trimming empties is made of white space. *)
Lemma trim_empty_spaces (q : string) :
  Js.trim q = EmptyString ->
  forall c, In c (list_ascii_of_string q) -> Js.isSpace c = true.
Proof.
  unfold Js.trim. induction q as [| b q IH]; intros H c Hc; [destruct Hc |].
  cbn [Js.trimStart] in H. destruct (Js.isSpace b) eqn:Eb.
  - destruct Hc as [<- | Hc]; [exact Eb | exact (IH H c Hc)].
  - cbn [Js.trimEnd] in H. rewrite Eb in H.
    destruct (Js.trimEnd q); discriminate H.
Qed.

Lemma toLowerCase_spaces (q : string) :
  (forall c, In c (list_ascii_of_string q) -> Js.isSpace c = true) ->
  Js.toLowerCase q = q.
Proof.
  induction q as [| b q IH]; intros H; [reflexivity |].
  simpl. rewrite lowerChar_space by (apply H; left; reflexivity).
  rewrite IH by (intros c Hc; apply H; right; exact Hc). reflexivity.
Qed.

(** Lower-casing a text moves no white space. *)
Lemma startsWith_lower_spaces (q : string) :
  (forall c, In c (list_ascii_of_string q) -> Js.isSpace c = true) ->
  forall s, Js.startsWith (Js.toLowerCase s) q = Js.startsWith s q.
Proof.
  induction q as [| b q IH]; intros H s.
  - destruct s; reflexivity.
  - destruct s as [| a s]; [reflexivity |].
    cbn [Js.toLowerCase Js.startsWith].
    rewrite eqb_lowerChar_space by (apply H; left; reflexivity).
    rewrite IH by (intros c Hc; apply H; right; exact Hc). reflexivity.
Qed.

Lemma includes_lower_spaces (q s : string) :
  (forall c, In c (list_ascii_of_string q) -> Js.isSpace c = true) ->
  Js.includes (Js.toLowerCase s) q = Js.includes s q.
Proof.
  intros H. induction s as [| a s IH].
  - cbn [Js.toLowerCase Js.includes].
    rewrite <- (startsWith_lower_spaces q H EmptyString). reflexivity.
  - cbn [Js.includes]. rewrite <- IH.
    rewrite <- (startsWith_lower_spaces q H (String a s)). reflexivity.
Qed.

(** C5, as the code has it. For every corpus, [searchDocs] with the
    empty query returns every document of the corpus, unfiltered and in
    the order of the corpus (so the count is the size of the corpus). A
    query made of white space is not trimmed: it is matched like any
    other query, and the documents returned are those whose title,
    content or section holds that very run of white space. *)
Theorem searchDocs_empty_query (this : Ref) (h : Heap) (w : World) :
  exists (docs : list TerragruntDoc) (h' : Heap) (w' : World),
    run (fetchLatestDocs this) h w = (inr docs, h', w') /\
    run (searchDocs this "") h w = (inr docs, h', w') /\
    forall query : string,
      Js.trim query = ""%string ->
      exists matches : list TerragruntDoc,
        run (searchDocs this query) h w = (inr matches, h', w') /\
        forall d, In d matches <->
                  In d docs /\
                  (Js.includes (title d) query || Js.includes (content d) query
                   || Js.includes (section d) query) = true.
Proof.
  destruct (fetchLatestDocs_total this h w) as (docs & h' & w' & E).
  exists docs, h', w'. split; [exact E |]. split.
  - unfold searchDocs. rewrite run_bind, E. cbn [run Js.toLowerCase].
    rewrite sort_searchCompare.
    assert (Hall : forall s, lowerIncludes s "" = true)
      by (intros s; apply includes_empty).
    rewrite (filter_true (searchMatches "")).
    2:{ intros d. unfold searchMatches. rewrite !Hall. reflexivity. }
    unfold ranked, rankGroup.
    rewrite (filter_true _ docs).
    2:{ intros d. rewrite !Hall. reflexivity. }
    rewrite !(filter_false _ docs).
    2-4: intros d; rewrite !Hall; reflexivity.
    rewrite !app_nil_r. reflexivity.
  - intros query Hq.
    pose proof (trim_empty_spaces query Hq) as Hs.
    exists (Js.sort (searchCompare query) (filter (searchMatches query) docs)).
    split.
    + unfold searchDocs. rewrite run_bind, E. cbn [run].
      rewrite (toLowerCase_spaces query Hs). reflexivity.
    + intros d. rewrite sort_In, filter_In. unfold searchMatches, lowerIncludes.
      rewrite !(includes_lower_spaces query _ Hs). reflexivity.
Qed.

(** C5 as stated fails on a query of one space: the corpus holds one
    document, none of whose fields contains a space, and the search
    returns nothing. *)
Lemma searchDocs_whitespace_query_counterexample :
  let h := Sample.warm [Sample.overview] 0 in
  let w := Sample.offline Sample.hour Sample.noSnapshot in
  Js.trim " " = "" /\
  outcome (fetchLatestDocs ResourceDocs) h w = inr [Sample.overview] /\
  outcome (searchDocs ResourceDocs " ") h w = inr [].
Proof. repeat split. Qed.

(* ----------------------------------------------------------------- *)
(** ** Command lookup *)

Lemma toLowerCase_app (a b : string) :
  Js.toLowerCase (a ++ b)%string = (Js.toLowerCase a ++ Js.toLowerCase b)%string.
Proof. induction a as [| c a IH]; simpl; [reflexivity | rewrite IH; reflexivity]. Qed.

Lemma cliExact_tiers (command : string) (d : TerragruntDoc) :
  cliExact command d = tierTitleEquals command d || tierUrlSegment command d.
Proof.
  unfold cliExact, tierTitleEquals, tierUrlSegment.
  rewrite <- orb_assoc. repeat f_equal.
Qed.

Lemma cliPartial_tiers (command : string) (d : TerragruntDoc) :
  cliPartial command d = tierTitleContains command d || tierContentContains command d.
Proof. reflexivity. Qed.

Lemma find_ext {A} (p q : A -> bool) (l : list A) :
  (forall x, p x = q x) -> find p l = find q l.
Proof.
  intros H. induction l as [| x l IH]; simpl; [reflexivity |].
  rewrite H, IH. reflexivity.
Qed.

Lemma find_none_iff {A} (p : A -> bool) (l : list A) :
  find p l = None <-> forall x, In x l -> p x = false.
Proof.
  split; [apply find_none |].
  induction l as [| x l IH]; simpl; intros H; [reflexivity |].
  rewrite (H x) by (left; reflexivity). apply IH.
  intros y Hy. apply H. right. exact Hy.
Qed.

(** C6, as the code has it. [getCliCommandHelp] keeps as candidates the
    documents whose section is the reference section and whose url
    contains the path of the CLI commands. It returns the first
    candidate, in the order of the corpus, that passes tier 1 or
    tier 2 (title equal to the command, or the command as a path segment
    of the url, letter case apart); failing that, the first candidate
    that passes tier 3 or tier 4 (title containing the command, letter
    case apart, or the command as it is given, followed by a space, in
    the lower-cased content); it returns [null], without throwing,
    exactly when no candidate passes any of the four tiers. For a
    command without capital letter, tier 4 is the match of the command
    and a space within the content, letter case apart. *)
Theorem getCliCommandHelp_two_stages (this : Ref) (command : string) (h : Heap) (w : World) :
  exists (docs : list TerragruntDoc) (h' : Heap) (w' : World) (found : option TerragruntDoc),
    run (fetchLatestDocs this) h w = (inr docs, h', w') /\
    run (getCliCommandHelp this command) h w = (inr found, h', w') /\
    let candidates :=
      filter (fun d => String.eqb (section d) "reference"
                       && Js.includes (url d) "/cli/commands/") docs in
    found =
      orElse
        (find (fun d => tierTitleEquals command d || tierUrlSegment command d) candidates)
        (find (fun d => tierTitleContains command d || tierContentContains command d)
              candidates) /\
    (found = None <->
     forall d, In d candidates ->
       tierTitleEquals command d = false /\ tierUrlSegment command d = false /\
       tierTitleContains command d = false /\ tierContentContains command d = false) /\
    (Js.toLowerCase command = command ->
     forall d, tierContentContains command d
               = Js.includes (Js.toLowerCase (content d))
                             (Js.toLowerCase (command ++ " ")%string)).
Proof.
  destruct (fetchLatestDocs_total this h w) as (docs & h' & w' & E).
  set (candidates := filter isCliDoc docs).
  set (found := orElse
        (find (fun d => tierTitleEquals command d || tierUrlSegment command d) candidates)
        (find (fun d => tierTitleContains command d || tierContentContains command d)
              candidates)).
  exists docs, h', w', found. split; [exact E |]. split; [| split; [| split]].
  4:{ intros Hl d. unfold tierContentContains.
      rewrite toLowerCase_app, Hl. reflexivity. }
  - unfold getCliCommandHelp. rewrite run_bind, E. fold candidates.
    unfold Js.find.
    rewrite (find_ext _ _ candidates (cliExact_tiers command)).
    rewrite (find_ext _ _ candidates (cliPartial_tiers command)).
    unfold found, orElse.
    destruct (find (fun d => tierTitleEquals command d || tierUrlSegment command d)
                candidates); reflexivity.
  - reflexivity.
  - fold isCliDoc. fold candidates. unfold found, orElse. split.
    + intros Hn d Hd.
      destruct (find (fun d => tierTitleEquals command d || tierUrlSegment command d)
                  candidates) eqn:F1; [discriminate |].
      pose proof (proj1 (find_none_iff _ _) F1 d Hd) as H1.
      pose proof (proj1 (find_none_iff _ _) Hn d Hd) as H2.
      cbv beta in H1, H2.
      apply orb_false_iff in H1. apply orb_false_iff in H2. tauto.
    + intros Hall.
      assert (F1 : find (fun d => tierTitleEquals command d || tierUrlSegment command d)
                     candidates = None).
      { apply find_none_iff. intros d Hd.
        destruct (Hall d Hd) as (-> & -> & _). reflexivity. }
      rewrite F1. apply find_none_iff. intros d Hd.
      destruct (Hall d Hd) as (_ & _ & -> & ->). reflexivity.
Qed.

(** C6 as stated fails when the tiers disagree. The first candidate has
    the command as a segment of its url (tier 2) and the second one has
    it as its title (tier 1): the tiers taken strictly in order give the
    second document, the source returns the first. *)
Lemma getCliCommandHelp_tier_order_counterexample :
  let docs := [SampleCli.runPlan; SampleCli.plan] in
  let h := Sample.warm docs 0 in
  let w := Sample.offline Sample.hour Sample.noSnapshot in
  outcome (fetchLatestDocs ResourceDocs) h w = inr docs /\
  lookupCommandHelp_spec "plan" docs = Some SampleCli.plan /\
  outcome (getCliCommandHelp ResourceDocs "plan") h w = inr (Some SampleCli.runPlan).
Proof. repeat split. Qed.

(* ----------------------------------------------------------------- *)
(** ** Code examples *)

Lemma slice_from_0 {A} (l : list A) (n : Z) :
  0 <= n -> Js.slice l 0 n = firstn (Z.to_nat n) l.
Proof.
  intros Hn. unfold Js.slice, Js.relIndex.
  replace (0 <? 0) with false by reflexivity.
  replace (n <? 0) with false by (symmetry; apply Z.ltb_ge; exact Hn).
  rewrite (Z.min_l 0) by lia. simpl skipn. rewrite Z.sub_0_r.
  destruct (Z.le_ge_cases n (Z.of_nat (List.length l))) as [Hle | Hge].
  - rewrite Z.min_l by exact Hle. reflexivity.
  - rewrite Z.min_r by exact Hge. rewrite Nat2Z.id.
    rewrite firstn_all. symmetry. apply firstn_all2. lia.
Qed.

Lemma dedupFrom_spec (seen l : list string) :
  NoDup (Js.dedupFrom seen l) /\
  forall x, In x (Js.dedupFrom seen l) -> In x l /\ ~ In x seen.
Proof.
  revert seen. induction l as [| x l IH]; intros seen; simpl.
  - split; [constructor | intros x []].
  - destruct (existsb (String.eqb x) seen) eqn:E.
    + destruct (IH seen) as [Hnd Hin]. split; [exact Hnd |].
      intros y Hy. destruct (Hin y Hy). auto.
    + destruct (IH (x :: seen)) as [Hnd Hin]. split.
      * constructor; [| exact Hnd].
        intros Hx. destruct (Hin x Hx) as [_ Hns]. apply Hns. left. reflexivity.
      * intros y [<- | Hy].
        -- split; [left; reflexivity |].
           intros Hs. assert (existsb (String.eqb x) seen = true) as Ht.
           { apply existsb_exists. exists x. split; [exact Hs | apply String.eqb_refl]. }
           congruence.
        -- destruct (Hin y Hy) as [Hl Hns]. split; [right; exact Hl |].
           intros Hs. apply Hns. right. exact Hs.
Qed.

Lemma NoDup_firstn {A} (n : nat) (l : list A) : NoDup l -> NoDup (firstn n l).
Proof.
  intros H. revert n. induction H as [| x l Hx Hl IH]; intros [| n]; simpl;
    try constructor.
  - intros Hin. apply Hx. revert Hin. clear. revert n.
    induction l as [| y l IH]; intros [| n]; simpl; try tauto.
    intros [-> | H]; [left; reflexivity | right; eapply IH; exact H].
  - apply IH.
Qed.

(** The fragments of a document: at most five, without repetition. *)
Lemma extractCodeBlocks_capped (c : string) :
  (List.length (extractCodeBlocks c) <= 5)%nat /\ NoDup (extractCodeBlocks c).
Proof.
  unfold extractCodeBlocks. rewrite slice_from_0 by lia. split.
  - rewrite length_firstn. apply Nat.le_min_l.
  - apply NoDup_firstn. apply dedupFrom_spec.
Qed.

Lemma collectExamples_spec (results : list CodeExamples) (docs : list TerragruntDoc) :
  collectExamples results docs =
  results ++
  map (fun d => {| doc := d; examples := extractCodeBlocks (content d) |})
      (filter (fun d => match extractCodeBlocks (content d) with
                        | [] => false | _ :: _ => true end) docs).
Proof.
  revert results. induction docs as [| d docs IH]; intros results; simpl.
  - rewrite app_nil_r. reflexivity.
  - destruct (extractCodeBlocks (content d)) as [| e es] eqn:E.
    + simpl. apply IH.
    + replace (Z.of_nat (List.length (e :: es)) >? 0) with true
        by (symmetry; apply Z.gtb_lt; simpl List.length; lia).
      rewrite IH, <- app_assoc. simpl. rewrite E. reflexivity.
Qed.

(** C7. For every topic, [getCodeExamples] takes the documents whose
    title or content contains the topic (letter case apart), keeps the
    first ten of them in the order of the corpus, extracts the fragments
    of each, and returns, in order, the candidates that have at least one
    fragment: so at most ten entries, each with between one and five
    fragments, all distinct. *)
Theorem getCodeExamples_capped (this : Ref) (topic : string) (h : Heap) (w : World) :
  exists (docs : list TerragruntDoc) (h' : Heap) (w' : World)
         (results : list CodeExamples),
    run (fetchLatestDocs this) h w = (inr docs, h', w') /\
    run (getCodeExamples this topic) h w = (inr results, h', w') /\
    let candidates :=
      firstn 10
        (filter (fun d =>
                   Js.includes (Js.toLowerCase (title d)) (Js.toLowerCase topic)
                   || Js.includes (Js.toLowerCase (content d)) (Js.toLowerCase topic))
                docs) in
    map doc results =
      filter (fun d => match extractCodeBlocks (content d) with
                       | [] => false | _ :: _ => true end) candidates /\
    (List.length results <= 10)%nat /\
    Forall (fun r => examples r = extractCodeBlocks (content (doc r)) /\
                     (1 <= List.length (examples r) <= 5)%nat /\
                     NoDup (examples r)) results.
Proof.
  destruct (fetchLatestDocs_total this h w) as (docs & h' & w' & E).
  set (relevant := filter (topicMatches (Js.toLowerCase topic)) docs).
  exists docs, h', w', (collectExamples [] (firstn 10 relevant)).
  split; [exact E |]. split.
  { unfold getCodeExamples. rewrite run_bind, E. cbn [run].
    fold relevant. rewrite slice_from_0 by lia. reflexivity. }
  fold (topicMatches (Js.toLowerCase topic)). fold relevant.
  rewrite collectExamples_spec. cbn [app]. split; [| split].
  - rewrite map_map. cbn [doc]. apply map_id.
  - rewrite length_map.
    eapply Nat.le_trans; [apply filter_length_le |].
    rewrite length_firstn. apply Nat.le_min_l.
  - apply Forall_forall. intros r Hr.
    apply in_map_iff in Hr. destruct Hr as (d & <- & Hd).
    apply filter_In in Hd. destruct Hd as [_ Hne]. cbn [doc examples].
    destruct (extractCodeBlocks_capped (content d)) as [Hle Hnd].
    split; [reflexivity |]. split; [| exact Hnd]. split; [| exact Hle].
    destruct (extractCodeBlocks (content d)); [discriminate | simpl; lia].
Qed.

(** The scenario of the twenty documents: the first ten are returned,
    each with its three distinct fragments. *)
Lemma getCodeExamples_twenty_documents :
  outcome (getCodeExamples ResourceDocs "dependency")
          (Sample.warm SampleExamples.corpus 0)
          (Sample.offline Sample.hour Sample.noSnapshot)
  = inr (map (fun d => {| doc := d; examples := SampleExamples.fragments |})
             (firstn 10 SampleExamples.corpus)).
Proof. vm_compute. reflexivity. Qed.

Lemma cleanContent_sample :
  cleanContent (String Regex.tab ("  Units " ++ String Regex.newline
                                 (String Regex.newline "  and   stacks ")))%string
  = "Units and stacks".
Proof. reflexivity. Qed.

Lemma extractSection_samples :
  extractSection "/docs/getting-started/quick-start/" = "getting-started" /\
  extractSection "/docs/" = "general".
Proof. split; reflexivity. Qed.

(* ----------------------------------------------------------------- *)
(** ** The search tool *)

Lemma searchDocs_total (this : Ref) (query : string) : Returns (searchDocs this query).
Proof.
  apply returns_bind; [apply fetchLatestDocs_total | intros; apply returns_ret].
Qed.

(** What [executeTool] does with a search whose query is truthy. *)
Lemma executeTool_search_run (args : Args) (q : string) (limit : Z) (h : Heap) (w : World)
      (matches : list TerragruntDoc) (h' : Heap) (w' : World) :
  arg_query args = Some q ->
  Js.truthy q = true ->
  limitOr5 (arg_limit args) = limit ->
  run (searchDocs ToolResourceDocs q) h w = (inr matches, h', w') ->
  run (executeTool "search_terragrunt_docs" (Some args)) h w =
  (inr (SearchResult q (map (excerpt 300) (Js.slice matches 0 limit))
          (arrayLength matches) (arrayLength matches >? limit)), h', w').
Proof.
  intros Hq Ht Hl E. unfold executeTool.
  replace (String.eqb "search_terragrunt_docs" "search_terragrunt_docs") with true
    by reflexivity.
  cbn [prop]. rewrite Hq, Hl. unfold truthyArg. rewrite Ht.
  rewrite run_tryCatch. unfold searchTerragruntDocs, searchDocumentation.
  rewrite run_bind, E. reflexivity.
Qed.

(** C8. At the search tool, for a query that passes the guard and
    whatever the matches: the reported total is the number of matches
    before slicing; a limit of 0 gives no result; a limit of at least
    the number of matches gives them all, nothing added; a negative
    limit does not throw (the call returns a search result, which holds
    the matches but the last [-limit] ones). *)
Theorem searchTerragruntDocs_limit
        (args : Args) (q : string) (limit : Z) (h : Heap) (w : World) :
  arg_query args = Some q ->
  Js.truthy q = true ->
  arg_limit args = Some limit ->
  exists (matches : list TerragruntDoc) (h' : Heap) (w' : World)
         (results : list Excerpt) (hasMore : bool),
    run (searchDocs ToolResourceDocs q) h w = (inr matches, h', w') /\
    run (executeTool "search_terragrunt_docs" (Some args)) h w =
      (inr (SearchResult q results (Z.of_nat (List.length matches)) hasMore), h', w') /\
    (limit = 0 -> results = []) /\
    (Z.of_nat (List.length matches) <= limit -> results = map (excerpt 300) matches) /\
    (limit < 0 ->
     results =
       map (excerpt 300)
           (firstn (Z.to_nat (Z.of_nat (List.length matches) + limit)) matches)).
Proof.
  intros Hq Ht Hl.
  destruct (searchDocs_total ToolResourceDocs q h w) as (matches & h' & w' & E).
  exists matches, h', w', (map (excerpt 300) (Js.slice matches 0 limit)),
    (arrayLength matches >? limit).
  split; [exact E |]. split.
  { apply executeTool_search_run; auto. rewrite Hl. reflexivity. }
  split; [| split].
  - intros ->. rewrite slice_from_0 by lia. reflexivity.
  - intros Hle. rewrite slice_from_0 by lia.
    rewrite firstn_all2 by lia. reflexivity.
  - intros Hneg. unfold Js.slice, Js.relIndex.
    replace (0 <? 0) with false by reflexivity.
    replace (limit <? 0) with true by (symmetry; apply Z.ltb_lt; exact Hneg).
    rewrite (Z.min_l 0) by lia. simpl skipn. rewrite Z.sub_0_r.
    f_equal. f_equal. lia.
Qed.

Lemma searchTerragruntDocs_limit_witness :
  exists (matches : list TerragruntDoc) (h' : Heap) (w' : World)
         (results : list Excerpt) (hasMore : bool),
    run (searchDocs ToolResourceDocs "start")
        (Sample.warm [Sample.overview; Sample.quickStart] 0)
        (Sample.offline Sample.hour Sample.noSnapshot) = (inr matches, h', w') /\
    run (executeTool "search_terragrunt_docs"
           (Some {| arg_query := Some "start"; arg_limit := Some 0;
                    arg_section := None; arg_command := None;
                    arg_config := None; arg_topic := None |}))
        (Sample.warm [Sample.overview; Sample.quickStart] 0)
        (Sample.offline Sample.hour Sample.noSnapshot) =
      (inr (SearchResult "start" results (Z.of_nat (List.length matches)) hasMore), h', w') /\
    (0 = 0 -> results = []) /\
    (Z.of_nat (List.length matches) <= 0 -> results = map (excerpt 300) matches) /\
    (0 < 0 ->
     results =
       map (excerpt 300)
           (firstn (Z.to_nat (Z.of_nat (List.length matches) + 0)) matches)).
Proof.
  apply (@searchTerragruntDocs_limit
           {| arg_query := Some "start"; arg_limit := Some 0;
              arg_section := None; arg_command := None;
              arg_config := None; arg_topic := None |} "start" 0);
    reflexivity.
Defined.

(** C10. At the tool boundary, a search whose query is the empty string
    is answered by the error object of the missing parameter; the heap
    and the world are left as they were, so no search, no reading and no
    request took place. As a consequence no call of the tool ever returns
    a search result for the empty query: the behaviour of [searchDocs] on
    the empty query cannot be reached through the tool. *)
Theorem executeTool_search_empty_query
        (limit : option Z) (sec command config topic : option string)
        (h : Heap) (w : World) :
  run (executeTool "search_terragrunt_docs"
         (Some {| arg_query := Some ""; arg_limit := limit; arg_section := sec;
                  arg_command := command; arg_config := config;
                  arg_topic := topic |})) h w =
    (inr (ErrorResult "query parameter is required"), h, w) /\
  (forall (args : option Args) (h0 : Heap) (w0 : World),
     match outcome (executeTool "search_terragrunt_docs" args) h0 w0 with
     | inr (SearchResult q _ _ _) => q <> ""
     | _ => True
     end).
Proof.
  split; [reflexivity |].
  intros [args |] h0 w0; [| exact I].
  destruct (arg_query args) as [q |] eqn:Hq.
  - destruct q as [| c q].
    + unfold outcome, executeTool. cbn [String.eqb Ascii.eqb Bool.eqb prop].
      rewrite Hq. exact I.
    + destruct (searchDocs_total ToolResourceDocs (String c q) h0 w0)
        as (matches & h' & w' & E).
      unfold outcome.
      rewrite (executeTool_search_run args h0 w0 Hq eq_refl eq_refl E).
      cbn [fst]. discriminate.
  - unfold outcome, executeTool. cbn [String.eqb Ascii.eqb Bool.eqb prop].
    rewrite Hq. exact I.
Qed.

(* ----------------------------------------------------------------- *)
(** ** The cache engine when the source is down *)

Lemma run_load (o : Ref) (h : Heap) (w : World) : run (load o) h w = (inr (h o), h, w).
Proof. reflexivity. Qed.

Lemma run_shouldRefreshCache (this : Ref) (h : Heap) (w : World) :
  run (shouldRefreshCache this) h w =
  (inr match lastFetchTime (h this) with
       | None => true
       | Some d => numGt (elapsedSince (clock w) d) cacheExpiry
       end, h, w).
Proof.
  unfold shouldRefreshCache. rewrite run_bind, run_load.
  destruct (lastFetchTime (h this)); reflexivity.
Qed.

Lemma run_cacheValues (this : Ref) (h : Heap) (w : World) :
  run (cacheValues this) h w = (inr (JsMap.values (docsCache (h this))), h, w).
Proof. reflexivity. Qed.

(** A snapshot older than the expiry is not loaded: the heap is left as
    it was. *)
Lemma loadCacheFromDisk_stale (this : Ref) (h : Heap) (w : World)
      (docs : FileState) (t n : Z) :
  disk w CacheFile = docs -> docs <> Absent ->
  disk w MetadataFile = Holds (Json (JMetadata (mkMeta (Some t) n))) ->
  cacheExpiry < clock w + 3 * latency w - t ->
  run (loadCacheFromDisk this) h w = (inr false, h, tick (tick (tick w))).
Proof.
  intros Hd Hne Hm Hs. unfold loadCacheFromDisk. rewrite run_tryCatch.
  repeat (progress (cbn; rewrite ?Hd, ?Hm)).
  destruct docs; [congruence | |];
  repeat (progress (cbn; rewrite ?Hd, ?Hm));
  (replace (86400000 <? clock w + latency w + latency w + latency w - t) with true;
    [reflexivity | symmetry; apply Z.ltb_lt; unfold cacheExpiry in Hs; lia]).
Qed.

(** When the request for the index fails, the refresh sends that one
    request and gives up: nothing is retried and the heap is left as it
    was. *)
Lemma refreshDocsCache_source_down (this : Ref) (h : Heap) (w : World) :
  net w indexUrl = None ->
  run (refreshDocsCache this) h w = (inr tt, h, tick (logRequest indexUrl w)).
Proof.
  intros Hn. unfold refreshDocsCache. rewrite run_tryCatch, run_bind.
  unfold getDocumentationPages, await. cbn [run bind perform]. rewrite Hn. reflexivity.
Qed.

(** C2, what the code does. With an empty in-process corpus, a snapshot
    on disk older than 24 hours and a source that is down,
    [fetchLatestDocs] returns the empty corpus: the stale snapshot is
    not served (the claim says that it is). *)
Theorem fetchLatestDocs_stale_snapshot_not_served
        (this : Ref) (h : Heap) (w : World)
        (docs : list (option TerragruntDoc)) (t n : Z) :
  docsCache (h this) = [] ->
  disk w CacheFile = Holds (Json (JDocs docs)) ->
  disk w MetadataFile = Holds (Json (JMetadata (mkMeta (Some t) n))) ->
  0 <= latency w ->
  cacheExpiry < clock w - t ->
  net w indexUrl = None ->
  outcome (fetchLatestDocs this) h w = inr [].
Proof.
  intros Hc Hd Hm Hl Hs Hn.
  unfold outcome, fetchLatestDocs.
  rewrite run_bind, run_load, Hc. cbn [JsMap.size List.length Z.of_nat Z.eqb].
  rewrite run_bind, run_bind.
  rewrite (@loadCacheFromDisk_stale this h w _ t n eq_refl);
    [| rewrite Hd; discriminate | exact Hm | lia].
  cbn [run]. rewrite run_bind, run_shouldRefreshCache, run_bind.
  destruct (match lastFetchTime (h this) with
            | Some d => _
            | None => true
            end).
  - rewrite refreshDocsCache_source_down by exact Hn.
    rewrite run_cacheValues, Hc. reflexivity.
  - cbn [run]. rewrite run_cacheValues, Hc. reflexivity.
Qed.

Lemma fetchLatestDocs_stale_snapshot_witness :
  outcome (fetchLatestDocs ResourceDocs) Sample.cold SampleStale.world = inr [].
Proof.
  apply (@fetchLatestDocs_stale_snapshot_not_served ResourceDocs Sample.cold
           SampleStale.world
           [Some Sample.overview; Some Sample.quickStart] SampleStale.takenAt 2).
  - reflexivity.
  - reflexivity.
  - reflexivity.
  - simpl. lia.
  - vm_compute. reflexivity.
  - reflexivity.
Defined.

(** A snapshot younger than 24 hours, on the contrary, is loaded and
    served without any request. *)
Lemma fetchLatestDocs_fresh_snapshot_served :
  let w := Sample.offline (98 * Sample.hour)
             (Sample.snapshot [Sample.overview; Sample.quickStart] SampleStale.takenAt) in
  let '(r, _, w') := run (fetchLatestDocs ResourceDocs) Sample.cold w in
  r = inr [Sample.overview; Sample.quickStart] /\ requests w' = [].
Proof. vm_compute. split; reflexivity. Qed.

(** C3, what the code does. When the request for the index fails, a
    refresh has sent exactly one request when it returns, the failed
    one: there is no second attempt (the claim says three), and the
    managers are left as they were. *)
Theorem refreshDocsCache_single_attempt (this : Ref) (h : Heap) (w : World) :
  net w indexUrl = None ->
  exists (w' : World),
    run (refreshDocsCache this) h w = (inr tt, h, w') /\
    requests w' = indexUrl :: requests w.
Proof.
  intros Hn. exists (tick (logRequest indexUrl w)).
  split; [apply refreshDocsCache_source_down; exact Hn | reflexivity].
Qed.

(** An error status for the index is not even a failure: the body of
    the answer is read as an index without links, the stale corpus is
    cleared, the four core pages are requested once each, and the empty
    corpus is stamped as fresh and saved. *)
Lemma fetchLatestDocs_index_error_status :
  let '(r, h', w') :=
    run (fetchLatestDocs ResourceDocs) SampleError.staleHeap SampleError.world in
  r = inr [] /\
  List.length (requests w') = 5%nat /\
  lastFetchTime (h' ResourceDocs) = Some (Some (100 * Sample.hour)) /\
  disk w' CacheFile = Holds (Json (JDocs [])).
Proof. vm_compute. repeat split. Qed.

Lemma refreshDocsCache_single_attempt_witness :
  exists (w' : World),
    run (refreshDocsCache ResourceDocs) Sample.cold SampleStale.world
      = (inr tt, Sample.cold, w') /\
    requests w' = indexUrl :: requests SampleStale.world.
Proof.
  apply (@refreshDocsCache_single_attempt ResourceDocs Sample.cold SampleStale.world).
  reflexivity.
Defined.

(* ----------------------------------------------------------------- *)
(** ** The corpus during a refresh *)

Section Suspensions.

Context {A : Type}.

(** A step of the scheduler is a part of the run of the call: running
    what is left after it gives what running the call gives. *)
Lemma run_segment (m : Async A) (h : Heap) (w : World) :
  let '(m', h', w') := Sched.segment m h w in
  run m h w = run m' h' w'.
Proof.
  revert h w.
  induction m as [a | e | o k IH | o s k IH | k IH | R op k IH];
    intros h w; simpl.
  - reflexivity.
  - reflexivity.
  - apply IH.
  - apply IH.
  - apply IH.
  - destruct (perform op w) as [r w']. reflexivity.
Qed.

Lemma suspensions_bind {B} (P : Heap -> Prop) (m : Async A) (f : A -> Async B)
      (h : Heap) (w : World) :
  Forall P (Sched.suspensions m h w) ->
  (forall a h' w', run m h w = (inr a, h', w') ->
                   Forall P (Sched.suspensions (f a) h' w')) ->
  Forall P (Sched.suspensions (bind m f) h w).
Proof.
  revert h w.
  induction m as [a | e | o k IH | o s k IH | k IH | R op k IH];
    intros h w Hm Hf; simpl in *.
  - apply Hf. reflexivity.
  - exact Hm.
  - apply IH; assumption.
  - apply IH; assumption.
  - apply IH; assumption.
  - destruct (perform op w) as [r w'].
    inversion Hm; subst. constructor; [assumption |].
    apply IH; assumption.
Qed.

Lemma suspensions_tryCatch (P : Heap -> Prop) (m : Async A) (c : Exn -> Async A)
      (h : Heap) (w : World) :
  Forall P (Sched.suspensions m h w) ->
  (forall e h' w', run m h w = (inl e, h', w') ->
                   Forall P (Sched.suspensions (c e) h' w')) ->
  Forall P (Sched.suspensions (tryCatch m c) h w).
Proof.
  revert h w.
  induction m as [a | e | o k IH | o s k IH | k IH | R op k IH];
    intros h w Hm Hc; simpl in *.
  - exact Hm.
  - apply Hc. reflexivity.
  - apply IH; assumption.
  - apply IH; assumption.
  - apply IH; assumption.
  - destruct (perform op w) as [r w'].
    inversion Hm; subst. constructor; [assumption |].
    apply IH; assumption.
Qed.

(** A call that assigns no field leaves the heap as it is, at every
    suspension and at its end. *)
Lemma NoStore_quiet (m : Async A) (h : Heap) (w : World) :
  NoStore m ->
  Forall (eq h) (Sched.suspensions m h w) /\ snd (fst (run m h w)) = h.
Proof.
  intros Hm. revert h w.
  induction Hm as [a | e | o k _ IH | k _ IH | R op k _ IH]; intros h w; simpl.
  - split; [repeat constructor | reflexivity].
  - split; [repeat constructor | reflexivity].
  - apply IH.
  - apply IH.
  - destruct (perform op w) as [r w']. destruct (IH r h w') as [H1 H2].
    split; [constructor; [reflexivity | exact H1] | exact H2].
Qed.

Lemma NoStore_bind {B} (m : Async A) (f : A -> Async B) :
  NoStore m -> (forall a, NoStore (f a)) -> NoStore (bind m f).
Proof.
  intros Hm Hf. induction Hm; simpl; try constructor; auto.
Qed.

Lemma NoStore_tryCatch (m : Async A) (c : Exn -> Async A) :
  NoStore m -> (forall e, NoStore (c e)) -> NoStore (tryCatch m c).
Proof.
  intros Hm Hc. induction Hm; simpl; try constructor; auto.
Qed.

End Suspensions.

Lemma NoStore_await {R} (op : IO R) : NoStore (await op).
Proof. constructor. intros [e | v]; constructor. Qed.

Lemma NoStore_awaitOk {R} (op : IO R) : NoStore (awaitOk op).
Proof. constructor. intros [e | v]; constructor. Qed.

Lemma NoStore_liftExn {A} (r : Exn + A) : NoStore (liftExn r).
Proof. destruct r; constructor. Qed.

Ltac no_store :=
  repeat first
    [ apply NoStore_await | apply NoStore_awaitOk
    | apply NoStore_liftExn
    | apply NoStore_bind | apply NoStore_tryCatch
    | apply NoStore_Ret | apply NoStore_Throw
    | apply NoStore_Load | apply NoStore_DateNow | apply NoStore_Await
    | intro
    | match goal with
      | |- NoStore (if ?b then _ else _) => destruct b
      | |- NoStore (match ?x with _ => _ end) => destruct x
      end ].

Lemma NoStore_getDocumentationPages : NoStore getDocumentationPages.
Proof. unfold getDocumentationPages. no_store. Qed.

Lemma NoStore_fetchDocumentPage (page : Page) : NoStore (fetchDocumentPage page).
Proof. unfold fetchDocumentPage. no_store. Qed.

Lemma NoStore_saveCacheToDisk (this : Ref) : NoStore (saveCacheToDisk this).
Proof. unfold saveCacheToDisk, ensureCacheDir, load, dateNow. no_store. Qed.

Lemma update_same (h : Heap) (o : Ref) (m : DocsManager) : update h o m o = m.
Proof. unfold update. destruct o; reflexivity. Qed.

Lemma cacheOf_snoc (done : list TerragruntDoc) (d : TerragruntDoc) :
  cacheOf (done ++ [d]) = JsMap.set (url d) d (cacheOf done).
Proof. unfold cacheOf. rewrite fold_left_app. reflexivity. Qed.

Lemma firstn_prefix {A} (l1 l2 : list A) : firstn (List.length l1) (l1 ++ l2) = l1.
Proof.
  rewrite <- (Nat.add_0_r (List.length l1)), firstn_app_2.
  simpl. apply app_nil_r.
Qed.

(** A call that assigns no field ends in the heap it started from. *)
Lemma NoStore_run {A} (m : Async A) (h : Heap) (w : World) :
  NoStore m -> exists r w', run m h w = (r, h, w').
Proof.
  intros Hm. destruct (NoStore_quiet h w Hm) as [_ Hh].
  destruct (run m h w) as [[r h'] w']. simpl in Hh. subst h'.
  exists r, w'. reflexivity.
Qed.

Lemma fetchDocumentPage_run (page : Page) (h : Heap) (w : World) :
  exists r w', run (fetchDocumentPage page) h w = (inr r, h, w').
Proof.
  destruct (NoStore_run h w (NoStore_fetchDocumentPage page)) as (r & w' & E).
  assert (Returns (fetchDocumentPage page)) as Hr
    by (apply returns_tryCatch; intros; apply returns_ret).
  destruct (Hr h w) as (a & h1 & w1 & E1).
  rewrite E in E1. injection E1 as -> _ _. exists a, w'. exact E.
Qed.

(** The loop over the pages extends the corpus document by document:
    it starts from the documents [done] stored so far, and at every
    suspension the corpus is made of [done] and of the first documents
    it has fetched. *)
Lemma fetchPages_generation (this : Ref) (pages : list Page) :
  forall (h : Heap) (w : World) (done : list TerragruntDoc),
    docsCache (h this) = cacheOf done ->
    exists (more : list TerragruntDoc) (h' : Heap) (w' : World),
      run (fetchPages this pages) h w = (inr tt, h', w') /\
      docsCache (h' this) = cacheOf (done ++ more) /\
      Forall (fun hs => exists k, docsCache (hs this) = cacheOf (firstn k (done ++ more)))
             (Sched.suspensions (fetchPages this pages) h w).
Proof.
  induction pages as [| page rest IH]; intros h w done Hc.
  - exists [], h, w. rewrite app_nil_r. split; [reflexivity |].
    split; [exact Hc |]. simpl. constructor; [| constructor].
    exists (List.length done). rewrite firstn_all. exact Hc.
  - destruct (fetchDocumentPage_run page h w) as (r & w1 & E).
    pose proof (proj1 (NoStore_quiet h w (NoStore_fetchDocumentPage page))) as Hq.
    cbn [fetchPages]. destruct r as [d |].
    + set (h2 := update h this
                   {| docsCache := JsMap.set (url d) d (docsCache (h this));
                      lastFetchTime := lastFetchTime (h this) |}).
      assert (Hc2 : docsCache (h2 this) = cacheOf (done ++ [d])).
      { unfold h2. rewrite update_same, cacheOf_snoc, Hc. reflexivity. }
      destruct (IH h2 w1 (done ++ [d]) Hc2) as (more & h' & w' & Er & Hf & Hs).
      rewrite <- app_assoc in Hf, Hs. cbn [app] in Hf, Hs.
      exists (d :: more), h', w'. split; [| split].
      * rewrite run_bind, E. exact Er.
      * exact Hf.
      * apply suspensions_bind.
        -- eapply Forall_impl; [| exact Hq]. intros hs <-.
           exists (List.length done). rewrite firstn_prefix. exact Hc.
        -- intros a h0 w0 E0. rewrite E in E0. injection E0 as <- <- <-.
           exact Hs.
    + destruct (IH h w1 done Hc) as (more & h' & w' & Er & Hf & Hs).
      exists more, h', w'. split; [| split].
      * rewrite run_bind, E. exact Er.
      * exact Hf.
      * apply suspensions_bind.
        -- eapply Forall_impl; [| exact Hq]. intros hs <-.
           exists (List.length done). rewrite firstn_prefix. exact Hc.
        -- intros a h0 w0 E0. rewrite E in E0. injection E0 as <- <- <-.
           exact Hs.
Qed.

(** C9, what the code does. A refresh replaces the corpus in place: it
    clears the map and stores the new documents one after the other,
    suspended at every request, and nothing keeps other calls on the
    same manager away meanwhile. Alone, a call on the stale corpus made
    of [overview] returns the new generation, [units] and [stacks], and
    all three documents match the query of the reader. With a reader
    running beside it:
    - under the schedule of [SampleRace] the reader is handed [units]
      alone, part of a generation, and saves it as the snapshot;
    - under the schedule of [SampleReload] the reader loads the
      snapshot into the map that the refresh has cleared, and the
      refresh stores its pages on top: the call that refreshes returns
      the two generations mixed, and saves them as the snapshot. *)
Theorem concurrent_refresh_races :
  let before := [Sample.overview] in
  let after := [SampleOnline.units; SampleOnline.stacks] in
  JsMap.values (docsCache (SampleOnline.staleHeap ResourceDocs)) = before /\
  filter (searchMatches "i") before = before /\
  filter (searchMatches "i") after = after /\
  outcome (fetchLatestDocs ResourceDocs) SampleOnline.staleHeap SampleOnline.world
    = inr after /\
  outcome (fetchLatestDocs ResourceDocs) SampleOnline.staleHeap SampleReload.world
    = inr after /\
  (let c := Sched.steps SampleRace.schedule SampleRace.start in
   Sched.returned (Sched.right c) = Some [SampleOnline.units] /\
   disk (Sched.world c) CacheFile = Holds (Json (JDocs [Some SampleOnline.units]))) /\
  (let c := Sched.steps SampleReload.schedule SampleReload.start in
   Sched.returned (Sched.right c) = Some before /\
   Sched.returned (Sched.left c) = Some (before ++ after) /\
   JsMap.values (docsCache (Sched.heap c ResourceDocs)) = before ++ after /\
   disk (Sched.world c) CacheFile = Holds (Json (JDocs (map Some (before ++ after))))).
Proof. repeat split; vm_compute; reflexivity. Qed.

(* ================================================================= *)
(** * Further properties of the cache engine *)

Lemma size_nonempty (m : JsMap.t) : m <> [] -> (JsMap.size m =? 0) = false.
Proof.
  intros Hm. destruct m as [| kv m]; [congruence |].
  unfold JsMap.size. apply Z.eqb_neq. simpl List.length. lia.
Qed.

Lemma fetchLatestDocs_warm (this : Ref) (h : Heap) (w : World) :
  Warm this h w ->
  run (fetchLatestDocs this) h w = (inr (JsMap.values (docsCache (h this))), h, w).
Proof.
  intros [Hne (d & Hd & Hf)]. unfold fetchLatestDocs.
  rewrite run_bind, run_load, size_nonempty by exact Hne.
  rewrite run_bind. cbn [run]. rewrite run_bind, run_shouldRefreshCache, Hd, Hf.
  rewrite run_bind. cbn [run]. apply run_cacheValues.
Qed.

(** X1. The fast path. When the manager holds documents that are not
    stale, [fetchLatestDocs] returns them as they are and touches
    nothing: no field is assigned, no file is read, no request is sent.
    A fetch time that is an invalid date is never stale, so a corpus
    stamped with one is served in this way for ever. *)
Theorem fetchLatestDocs_fast_path (this : Ref) (h : Heap) (w : World) :
  Warm this h w ->
  run (fetchLatestDocs this) h w = (inr (JsMap.values (docsCache (h this))), h, w).
Proof. exact (@fetchLatestDocs_warm this h w). Qed.

Lemma fetchLatestDocs_fast_path_witness :
  run (fetchLatestDocs ResourceDocs) (Sample.warm [Sample.overview] 0)
      (Sample.offline Sample.hour Sample.noSnapshot)
  = (inr (JsMap.values (docsCache (Sample.warm [Sample.overview] 0 ResourceDocs))),
     Sample.warm [Sample.overview] 0, Sample.offline Sample.hour Sample.noSnapshot).
Proof.
  apply fetchLatestDocs_fast_path. split.
  - simpl. discriminate.
  - exists (Some 0). split; reflexivity.
Defined.

Lemma update_other (h : Heap) (o o' : Ref) (m : DocsManager) :
  o' <> o -> update h o m o' = h o'.
Proof. unfold update. destruct o, o'; simpl; congruence. Qed.

Lemma loadCacheFromDisk_absent (this : Ref) (h : Heap) (w : World) :
  NoSnapshot w ->
  run (loadCacheFromDisk this) h w = (inr false, h, tick (tick w)).
Proof.
  intros Hn. unfold NoSnapshot in Hn. unfold loadCacheFromDisk. rewrite run_tryCatch.
  destruct (disk w CacheFile) eqn:Ec, (disk w MetadataFile) eqn:Em;
    try (destruct Hn; discriminate);
    repeat (progress (cbn; rewrite ?Ec, ?Em)); reflexivity.
Qed.

(** X2. An empty corpus is cached like any other. When the manager holds
    no document but carries a fetch time that is not stale (as it does
    after a refresh that stored nothing), and there is no snapshot on
    disk, [fetchLatestDocs] looks for the snapshot, sends no request, and
    returns the empty list: the source is not asked again before the
    fetch time expires. *)
Theorem fetchLatestDocs_empty_corpus_cached (this : Ref) (h : Heap) (w : World) :
  docsCache (h this) = [] ->
  NoSnapshot w ->
  Fresh (h this) (clock w + 2 * latency w) ->
  exists w' : World,
    run (fetchLatestDocs this) h w = (inr [], h, w') /\
    requests w' = requests w.
Proof.
  intros Hc Hn (d & Hd & Hf). exists (tick (tick w)). split; [| reflexivity].
  unfold fetchLatestDocs.
  rewrite run_bind, run_load, Hc. cbn [JsMap.size List.length Z.of_nat Z.eqb].
  rewrite run_bind, run_bind, loadCacheFromDisk_absent by exact Hn.
  cbn [run]. rewrite run_bind, run_shouldRefreshCache, Hd.
  cbn [tick clock latency].
  replace (clock w + latency w + latency w) with (clock w + 2 * latency w) by lia.
  rewrite Hf, run_bind. cbn [run]. rewrite run_cacheValues, Hc. reflexivity.
Qed.

Lemma fetchLatestDocs_empty_corpus_cached_witness :
  exists w' : World,
    run (fetchLatestDocs ResourceDocs) (Sample.warm [] 0)
        (Sample.offline Sample.hour Sample.noSnapshot)
    = (inr [], Sample.warm [] 0, w') /\
    requests w' = requests (Sample.offline Sample.hour Sample.noSnapshot).
Proof.
  apply fetchLatestDocs_empty_corpus_cached.
  - reflexivity.
  - left. reflexivity.
  - exists (Some 0). split; reflexivity.
Defined.

(* ----------------------------------------------------------------- *)
(** ** The snapshot on disk *)

Lemma set_fresh (k : string) (v : TerragruntDoc) (m : JsMap.t) :
  ~ In k (map fst m) -> JsMap.set k v m = m ++ [(k, v)].
Proof.
  induction m as [| [k' v'] m IH]; intros Hk; simpl; [reflexivity |].
  destruct (String.eqb k' k) eqn:E.
  - apply String.eqb_eq in E. exfalso. apply Hk. left. exact E.
  - rewrite IH; [reflexivity |]. intros Hin. apply Hk. right. exact Hin.
Qed.

(** Storing the values of a well-keyed map again, in order, rebuilds
    the map. *)
Lemma fold_set_values (l acc : JsMap.t) :
  WellKeyed (acc ++ l) ->
  fold_left (fun m d => JsMap.set (url d) d m) (JsMap.values l) acc = acc ++ l.
Proof.
  revert acc. induction l as [| [k v] l IH]; intros acc [Hk Hn]; simpl.
  - rewrite app_nil_r. reflexivity.
  - assert (Hkv : k = url v).
    { rewrite Forall_forall in Hk. apply (Hk (k, v)).
      apply in_or_app. right. left. reflexivity. }
    subst k. rewrite set_fresh.
    + rewrite IH; rewrite <- app_assoc; [reflexivity | split; assumption].
    + rewrite map_app in Hn. simpl in Hn.
      apply NoDup_remove_2 in Hn. intros Hin. apply Hn.
      apply in_or_app. left. exact Hin.
Qed.

Lemma cacheOf_values (m : JsMap.t) : WellKeyed m -> cacheOf (JsMap.values m) = m.
Proof. intros H. unfold cacheOf. rewrite fold_set_values; [reflexivity | exact H]. Qed.

(** The loop that stores the entries of a snapshot that has no [null]
    entry. *)
Lemma forEachSet_run (this : Ref) (docs : list TerragruntDoc) :
  forall (h : Heap) (w : World),
  exists h' : Heap,
    run (forEachSet this (map Some docs)) h w = (inr tt, h', w) /\
    h' this = {| docsCache := fold_left (fun m d => JsMap.set (url d) d m) docs
                                        (docsCache (h this));
                 lastFetchTime := lastFetchTime (h this) |} /\
    forall o, o <> this -> h' o = h o.
Proof.
  induction docs as [| d docs IH]; intros h w; simpl.
  - exists h. split; [reflexivity |]. split; [destruct (h this); reflexivity |].
    reflexivity.
  - set (h1 := update h this
                 {| docsCache := JsMap.set (url d) d (docsCache (h this));
                    lastFetchTime := lastFetchTime (h this) |}).
    destruct (IH h1 w) as (h' & E & Hs & Ho).
    exists h'. split; [exact E |]. split.
    + rewrite Hs. unfold h1. rewrite update_same. reflexivity.
    + intros o Hne. rewrite (Ho o Hne). unfold h1.
      apply update_other. exact Hne.
Qed.

Lemma loadCacheFromDisk_valid
        (this : Ref) (h : Heap) (w : World)
        (docs : list TerragruntDoc) (fetched : Date) :
  ValidSnapshot w docs fetched ->
  numGt (elapsedSince (clock w + 3 * latency w) fetched) cacheExpiry = false ->
  exists (h' : Heap) (w' : World),
    run (loadCacheFromDisk this) h w = (inr true, h', w') /\
    h' this = {| docsCache := cacheOf docs; lastFetchTime := Some fetched |} /\
    (forall o, o <> this -> h' o = h o) /\
    requests w' = requests w.
Proof.
  intros (Hd & v & Hm & Hv) Hf.
  set (h0 := update h this
               {| docsCache := JsMap.empty; lastFetchTime := lastFetchTime (h this) |}).
  set (w4 := tick (tick (tick (tick w)))).
  destruct (forEachSet_run this docs h0 w4) as (h1 & E1 & Hs1 & Ho1).
  exists (update h1 this {| docsCache := docsCache (h1 this);
                            lastFetchTime := Some fetched |}), w4.
  split; [| split; [| split]].
  - unfold loadCacheFromDisk. rewrite run_tryCatch.
    repeat (progress (cbn -[numGt elapsedSince cacheExpiry forEachSet Z.add Z.mul];
                      rewrite ?Hd, ?Hm, ?Hv)).
    replace (clock w + latency w + latency w + latency w)
      with (clock w + 3 * latency w) by lia.
    rewrite Hf.
    repeat (progress (cbn -[numGt elapsedSince cacheExpiry forEachSet Z.add Z.mul];
                      rewrite ?Hd, ?Hm, ?Hv)).
    fold h0. fold w4.
    change (forEachSet this (map Some docs) ;;; setLastFetchTime this fetched ;;; Ret true)
      with (bind (forEachSet this (map Some docs))
                 (fun _ => setLastFetchTime this fetched ;;; Ret true)).
    rewrite run_bind, E1. reflexivity.
  - rewrite update_same, Hs1. unfold h0. rewrite update_same. reflexivity.
  - intros o Hne. rewrite update_other by exact Hne.
    rewrite (Ho1 o Hne). unfold h0. apply update_other. exact Hne.
  - reflexivity.
Qed.

(** X3. Loading a snapshot. When the disk holds a well-formed snapshot
    of [docs] that is not stale when its age is tested (after the two
    existence checks and the reading of the metadata),
    [loadCacheFromDisk] returns [true]; the corpus of the manager is then
    [docs] stored in order, its fetch time is the one of the metadata,
    and the other manager is left as it was. *)
Theorem loadCacheFromDisk_loads
        (this : Ref) (h : Heap) (w : World)
        (docs : list TerragruntDoc) (fetched : Date) :
  ValidSnapshot w docs fetched ->
  numGt (elapsedSince (clock w + 3 * latency w) fetched) cacheExpiry = false ->
  exists (h' : Heap) (w' : World),
    run (loadCacheFromDisk this) h w = (inr true, h', w') /\
    h' this = {| docsCache := cacheOf docs; lastFetchTime := Some fetched |} /\
    (forall o, o <> this -> h' o = h o) /\
    requests w' = requests w.
Proof. exact (@loadCacheFromDisk_valid this h w docs fetched). Qed.

Lemma loadCacheFromDisk_loads_witness :
  exists (h' : Heap) (w' : World),
    run (loadCacheFromDisk ResourceDocs) Sample.cold
        (Sample.offline (98 * Sample.hour)
           (Sample.snapshot [Sample.overview] SampleStale.takenAt))
    = (inr true, h', w') /\
    h' ResourceDocs = {| docsCache := cacheOf [Sample.overview];
                         lastFetchTime := Some (Some SampleStale.takenAt) |} /\
    (forall o, o <> ResourceDocs -> h' o = Sample.cold o) /\
    requests w' = requests (Sample.offline (98 * Sample.hour)
                              (Sample.snapshot [Sample.overview] SampleStale.takenAt)).
Proof.
  apply loadCacheFromDisk_loads.
  - split; [reflexivity |]. eexists. split; reflexivity.
  - reflexivity.
Defined.

Lemma forEachSet_entries (this : Ref) (l : list (option TerragruntDoc)) :
  forall (h : Heap) (w : World),
    (exists docs, l = map Some docs) \/
    fst (fst (run (forEachSet this l) h w)) = inl TypeError.
Proof.
  induction l as [| [d |] l IH]; intros h w.
  - left. exists []. reflexivity.
  - simpl.
    destruct (IH (update h this
                   {| docsCache := JsMap.set (url d) d (docsCache (h this));
                      lastFetchTime := lastFetchTime (h this) |}) w)
      as [(docs & ->) | E].
    + left. exists (d :: docs). reflexivity.
    + right. exact E.
  - right. reflexivity.
Qed.

(** X4. [loadCacheFromDisk] returns [true] only for a well-formed
    snapshot that is not stale: both files exist and can be read, the
    metadata parses to something other than [null], the age test does
    not say stale, and the documents parse to an array without [null]
    entry. A missing, unreadable, unparseable or stale snapshot gives
    [false]. *)
Theorem loadCacheFromDisk_true_only (this : Ref) (h : Heap) (w : World) :
  outcome (loadCacheFromDisk this) h w = inr true ->
  exists (docs : list TerragruntDoc) (fetched : Date),
    ValidSnapshot w docs fetched /\
    numGt (elapsedSince (clock w + 3 * latency w) fetched) cacheExpiry = false.
Proof.
  unfold outcome, loadCacheFromDisk. rewrite run_tryCatch.
  destruct (disk w CacheFile) as [| | [| vd]] eqn:Ec;
  destruct (disk w MetadataFile) as [| | [| vm]] eqn:Em;
    repeat (progress (cbn -[numGt elapsedSince cacheExpiry forEachSet Z.add Z.mul];
                      rewrite ?Ec, ?Em)); try discriminate.
  all: destruct (dateOfLastFetchTime vm) as [e | fetched] eqn:Ev;
    repeat (progress (cbn -[numGt elapsedSince cacheExpiry forEachSet Z.add Z.mul];
                      rewrite ?Ec, ?Em)); try discriminate.
  all: replace (clock w + latency w + latency w + latency w)
      with (clock w + 3 * latency w) by lia.
  all: destruct (numGt (elapsedSince (clock w + 3 * latency w) fetched) cacheExpiry) eqn:Hf;
    repeat (progress (cbn -[numGt elapsedSince cacheExpiry forEachSet Z.add Z.mul];
                      rewrite ?Ec, ?Em)); try discriminate.
  destruct vd as [| m | l |]; cbn -[forEachSet]; try discriminate.
  rewrite run_bind.
  match goal with |- context [run (forEachSet this l) ?h0 ?w0] =>
    destruct (forEachSet_entries this l h0 w0) as [(docs & ->) | E];
    [| destruct (run (forEachSet this l) h0 w0) as [[r h1] w1];
       simpl in E; subst r; cbn; discriminate]
  end.
  intros _. exists docs, fetched. split; [| exact Hf].
  split; [exact Ec |]. exists vm. split; [exact Em | exact Ev].
Qed.

Lemma loadCacheFromDisk_true_only_witness :
  exists (docs : list TerragruntDoc) (fetched : Date),
    ValidSnapshot (Sample.offline (98 * Sample.hour)
                     (Sample.snapshot [Sample.overview] SampleStale.takenAt))
                  docs fetched /\
    numGt (elapsedSince
             (clock (Sample.offline (98 * Sample.hour)
                       (Sample.snapshot [Sample.overview] SampleStale.takenAt))
              + 3 * latency (Sample.offline (98 * Sample.hour)
                               (Sample.snapshot [Sample.overview] SampleStale.takenAt)))
             fetched) cacheExpiry = false.
Proof.
  apply (@loadCacheFromDisk_true_only ResourceDocs Sample.cold).
  vm_compute. reflexivity.
Defined.

(** What [saveCacheToDisk] leaves on a disk that accepts the two
    writes. *)
Lemma saveCacheToDisk_writes (this : Ref) (h : Heap) (w : World) (t : Z) :
  lastFetchTime (h this) = Some (Some t) ->
  canWrite w CacheFile = true ->
  canWrite w MetadataFile = true ->
  exists w' : World,
    run (saveCacheToDisk this) h w = (inr tt, h, w') /\
    disk w' CacheFile
      = Holds (Json (JDocs (map Some (JsMap.values (docsCache (h this)))))) /\
    disk w' MetadataFile
      = Holds (Json (JMetadata
                       {| meta_lastFetchTime := Some t;
                          docsCount := Z.of_nat (List.length (docsCache (h this))) |})) /\
    clock w' = clock w + 3 * latency w /\
    latency w' = latency w /\
    requests w' = requests w.
Proof.
  intros Ht Hc Hm. unfold saveCacheToDisk, ensureCacheDir.
  rewrite run_tryCatch, run_bind, run_tryCatch.
  cbn [run await perform].
  eexists. split.
  - destruct (canMkdir w);
      cbn [run bind load await perform tick canWrite canMkdir]; rewrite Ht;
      cbn [run bind load await perform tick canWrite canMkdir writeDisk];
      rewrite Hc, Hm; reflexivity.
  - unfold JsMap.values. rewrite length_map.
    repeat split; try reflexivity. cbn [clock latency tick writeDisk]. lia.
Qed.

(** X5. The snapshot round trip. When a manager whose map is well keyed
    saves its corpus on a disk that accepts the two writes, a manager
    that loads the snapshot before it is stale ends with the very state
    of the first: the same documents under the same keys in the same
    order, and the same fetch time. *)
Theorem snapshot_round_trip (this that : Ref) (h : Heap) (w : World) (t : Z) :
  WellKeyed (docsCache (h this)) ->
  lastFetchTime (h this) = Some (Some t) ->
  canWrite w CacheFile = true ->
  canWrite w MetadataFile = true ->
  clock w + 6 * latency w - t <= cacheExpiry ->
  exists (w1 : World) (h2 : Heap) (w2 : World),
    run (saveCacheToDisk this) h w = (inr tt, h, w1) /\
    run (loadCacheFromDisk that) h w1 = (inr true, h2, w2) /\
    h2 that = h this.
Proof.
  intros Hk Ht Hc Hm Hage.
  destruct (saveCacheToDisk_writes this h w Ht Hc Hm)
    as (w1 & Es & Hd1 & Hm1 & Hclock & Hlat & _).
  assert (Hv : ValidSnapshot w1 (JsMap.values (docsCache (h this))) (Some t)).
  { split; [exact Hd1 |]. eexists. split; [exact Hm1 | reflexivity]. }
  assert (Hf : numGt (elapsedSince (clock w1 + 3 * latency w1) (Some t)) cacheExpiry = false).
  { cbn [elapsedSince option_map numGt]. apply Z.ltb_ge. rewrite Hclock, Hlat. lia. }
  destruct (loadCacheFromDisk_valid that h Hv Hf) as (h2 & w2 & El & Hs & _).
  exists w1, h2, w2. split; [exact Es |]. split; [exact El |].
  rewrite Hs, cacheOf_values by exact Hk.
  destruct (h this) as [c l]. simpl in Ht. subst l. reflexivity.
Qed.

Lemma snapshot_round_trip_witness :
  exists (w1 : World) (h2 : Heap) (w2 : World),
    run (saveCacheToDisk ResourceDocs)
        (Sample.warm [Sample.overview; Sample.quickStart] 0)
        (Sample.offline Sample.hour Sample.noSnapshot)
    = (inr tt, Sample.warm [Sample.overview; Sample.quickStart] 0, w1) /\
    run (loadCacheFromDisk ToolDocs)
        (Sample.warm [Sample.overview; Sample.quickStart] 0) w1
    = (inr true, h2, w2) /\
    h2 ToolDocs = Sample.warm [Sample.overview; Sample.quickStart] 0 ResourceDocs.
Proof.
  apply (@snapshot_round_trip ResourceDocs ToolDocs
           (Sample.warm [Sample.overview; Sample.quickStart] 0)
           (Sample.offline Sample.hour Sample.noSnapshot) 0).
  - split.
    + repeat constructor.
    + vm_compute. repeat constructor; simpl; intuition discriminate.
  - reflexivity.
  - reflexivity.
  - reflexivity.
  - vm_compute. discriminate.
Defined.

(* ----------------------------------------------------------------- *)
(** ** The urls of a corpus are unique *)

Lemma set_keys (k : string) (v : TerragruntDoc) (m : JsMap.t) :
  map fst (JsMap.set k v m) =
  if existsb (String.eqb k) (map fst m) then map fst m else map fst m ++ [k].
Proof.
  induction m as [| [k' v'] m IH]; simpl; [reflexivity |].
  rewrite (String.eqb_sym k k').
  destruct (String.eqb k' k) eqn:E; simpl; [reflexivity |].
  rewrite IH. destruct (existsb (String.eqb k) (map fst m)); reflexivity.
Qed.

Lemma set_In (k : string) (v : TerragruntDoc) (m : JsMap.t) (kv : string * TerragruntDoc) :
  In kv (JsMap.set k v m) -> In kv m \/ kv = (k, v).
Proof.
  induction m as [| [k' v'] m IH]; simpl.
  - intros [<- | []]. right. reflexivity.
  - destruct (String.eqb k' k) eqn:E; simpl.
    + apply String.eqb_eq in E. subst k'. intros [<- | H]; auto.
    + intros [<- | H]; auto. destruct (IH H); auto.
Qed.

Lemma set_WellKeyed (d : TerragruntDoc) (m : JsMap.t) :
  WellKeyed m -> WellKeyed (JsMap.set (url d) d m).
Proof.
  intros [Hk Hn]. split.
  - apply Forall_forall. intros kv Hin.
    destruct (set_In _ _ _ _ Hin) as [H | ->]; [| reflexivity].
    rewrite Forall_forall in Hk. apply Hk. exact H.
  - rewrite set_keys.
    destruct (existsb (String.eqb (url d)) (map fst m)) eqn:E; [exact Hn |].
    apply NoDup_app; [exact Hn | repeat constructor; intros [] |].
    intros x Hx [Ex | []]. subst x.
    assert (existsb (String.eqb (url d)) (map fst m) = true) as Ht
      by (apply existsb_exists; exists (url d); split;
          [exact Hx | apply String.eqb_refl]).
    congruence.
Qed.

Lemma WellKeyed_urls (m : JsMap.t) : WellKeyed m -> NoDup (map url (JsMap.values m)).
Proof.
  intros [Hk Hn]. unfold JsMap.values. rewrite map_map.
  replace (map (fun kv => url (snd kv)) m) with (map fst m); [exact Hn |].
  apply map_ext_in. intros kv Hin. rewrite Forall_forall in Hk. apply Hk. exact Hin.
Qed.

Section KeepsLaws.

Variable I : Heap -> Prop.

Lemma keeps_bind {A B} (m : Async A) (f : A -> Async B) :
  Keeps I m -> (forall a, Keeps I (f a)) -> Keeps I (bind m f).
Proof.
  intros Hm Hf h w Hi. rewrite run_bind.
  specialize (Hm h w Hi). destruct (run m h w) as [[[e | a] h1] w1]; simpl in Hm.
  - exact Hm.
  - apply Hf. exact Hm.
Qed.

Lemma keeps_tryCatch {A} (m : Async A) (c : Exn -> Async A) :
  Keeps I m -> (forall e, Keeps I (c e)) -> Keeps I (tryCatch m c).
Proof.
  intros Hm Hc h w Hi. rewrite run_tryCatch.
  specialize (Hm h w Hi). destruct (run m h w) as [[[e | a] h1] w1]; simpl in Hm.
  - apply Hc. exact Hm.
  - exact Hm.
Qed.

Lemma keeps_NoStore {A} (m : Async A) : NoStore m -> Keeps I m.
Proof.
  intros Hm h w Hi. rewrite (proj2 (NoStore_quiet h w Hm)). exact Hi.
Qed.

End KeepsLaws.

Section UniqueUrls.

Variable this : Ref.

Let I (h : Heap) : Prop := WellKeyed (docsCache (h this)).

Lemma keeps_clearCache : Keeps I (clearCache this).
Proof.
  intros h w _. unfold I. simpl. rewrite update_same. simpl.
  split; constructor.
Qed.

Lemma keeps_cacheSet (d : TerragruntDoc) : Keeps I (cacheSet this d).
Proof.
  intros h w Hi. unfold I. simpl. rewrite update_same. simpl.
  apply set_WellKeyed. exact Hi.
Qed.

Lemma keeps_setLastFetchTime (d : Date) : Keeps I (setLastFetchTime this d).
Proof.
  intros h w Hi. unfold I. simpl. rewrite update_same. exact Hi.
Qed.

Lemma keeps_forEachSet (l : list (option TerragruntDoc)) : Keeps I (forEachSet this l).
Proof.
  induction l as [| [d |] l IH]; cbn [forEachSet].
  - apply keeps_NoStore. constructor.
  - apply keeps_bind; [apply keeps_cacheSet | intros _; exact IH].
  - apply keeps_NoStore. constructor.
Qed.

Lemma keeps_fetchPages (pages : list Page) : Keeps I (fetchPages this pages).
Proof.
  induction pages as [| p pages IH]; cbn [fetchPages].
  - apply keeps_NoStore. constructor.
  - apply keeps_bind; [apply keeps_NoStore, NoStore_fetchDocumentPage |].
    intros [d |]; (apply keeps_bind; [| intros _; exact IH]).
    + apply keeps_cacheSet.
    + apply keeps_NoStore. constructor.
Qed.

Ltac keeps_step :=
  first
    [ apply keeps_clearCache | apply keeps_cacheSet | apply keeps_setLastFetchTime
    | apply keeps_forEachSet | apply keeps_fetchPages
    | apply keeps_NoStore;
      solve [ apply NoStore_saveCacheToDisk | apply NoStore_getDocumentationPages
            | unfold shouldRefreshCache, cacheValues, load, dateNow; no_store ]
    | apply keeps_tryCatch | apply keeps_bind
    | match goal with
      | |- forall _, Keeps _ _ => intro
      | |- Keeps _ (if ?b then _ else _) => destruct b
      | |- Keeps _ (match ?x with _ => _ end) => destruct x
      end ].

Lemma keeps_loadCacheFromDisk : Keeps I (loadCacheFromDisk this).
Proof. unfold loadCacheFromDisk. repeat keeps_step. Qed.

Lemma keeps_refreshDocsCache : Keeps I (refreshDocsCache this).
Proof. unfold refreshDocsCache. repeat keeps_step. Qed.

Lemma keeps_fetchLatestDocs : Keeps I (fetchLatestDocs this).
Proof.
  unfold fetchLatestDocs.
  apply keeps_bind; [apply keeps_NoStore; unfold load; no_store |]. intros self.
  apply keeps_bind.
  - destruct (JsMap.size (docsCache self) =? 0);
      [| apply keeps_NoStore; constructor].
    apply keeps_bind; [apply keeps_loadCacheFromDisk |].
    intros [|]; repeat keeps_step.
  - intros [docs |]; [apply keeps_NoStore; constructor |].
    apply keeps_bind; [repeat keeps_step |]. intros stale.
    apply keeps_bind; [| intros; repeat keeps_step].
    destruct stale; [apply keeps_refreshDocsCache | apply keeps_NoStore; constructor].
Qed.

End UniqueUrls.

(** What [fetchLatestDocs] returns is the content of the map of the
    manager when it returns. *)
Lemma fetchLatestDocs_returns_cache (this : Ref) (h : Heap) (w : World) :
  exists (h' : Heap) (w' : World),
    run (fetchLatestDocs this) h w
    = (inr (JsMap.values (docsCache (h' this))), h', w').
Proof.
  assert (Tail : forall h1 w1, exists h' w',
    run (stale <- shouldRefreshCache this ;;
         (if stale then refreshDocsCache this else Ret tt) ;;;
         cacheValues this) h1 w1
    = (inr (JsMap.values (docsCache (h' this))), h', w')).
  { intros h1 w1. rewrite run_bind, run_shouldRefreshCache, run_bind.
    destruct (match lastFetchTime (h1 this) with
              | Some d => _ | None => true end).
    - destruct (returns_refreshDocsCache this h1 w1) as ([] & h2 & w2 & E).
      rewrite E. exists h2, w2. apply run_cacheValues.
    - exists h1, w1. cbn [run]. apply run_cacheValues. }
  unfold fetchLatestDocs. rewrite run_bind, run_load.
  destruct (JsMap.size (docsCache (h this)) =? 0).
  - rewrite run_bind, run_bind.
    destruct (returns_loadCacheFromDisk this h w) as (loaded & h1 & w1 & E).
    rewrite E. destruct loaded.
    + rewrite run_bind, run_shouldRefreshCache.
      destruct (match lastFetchTime (h1 this) with
                | Some d => _ | None => true end); cbn [negb].
      * cbn [run]. apply Tail.
      * rewrite run_bind, run_cacheValues. cbn [run]. exists h1, w1. reflexivity.
    + cbn [run]. apply Tail.
  - rewrite run_bind. cbn [run]. apply Tail.
Qed.

(** X6. The urls of the corpus are unique. If the map of a manager is
    well keyed when [fetchLatestDocs] is called (as the empty map of a
    new manager is), it is well keyed when the call returns, whatever
    was loaded or fetched in between, and the documents returned, which
    are the values of that map, have pairwise distinct urls. *)
Theorem fetchLatestDocs_unique_urls (this : Ref) (h : Heap) (w : World) :
  WellKeyed (docsCache (h this)) ->
  exists (docs : list TerragruntDoc) (h' : Heap) (w' : World),
    run (fetchLatestDocs this) h w = (inr docs, h', w') /\
    docs = JsMap.values (docsCache (h' this)) /\
    WellKeyed (docsCache (h' this)) /\
    NoDup (map url docs).
Proof.
  intros Hk. destruct (fetchLatestDocs_returns_cache this h w) as (h' & w' & E).
  pose proof (@keeps_fetchLatestDocs this h w Hk) as Hk'.
  rewrite E in Hk'. simpl in Hk'.
  exists (JsMap.values (docsCache (h' this))), h', w'.
  split; [exact E |]. split; [reflexivity |]. split; [exact Hk' |].
  apply WellKeyed_urls. exact Hk'.
Qed.

Lemma fetchLatestDocs_unique_urls_witness :
  exists (docs : list TerragruntDoc) (h' : Heap) (w' : World),
    run (fetchLatestDocs ResourceDocs) Sample.cold SampleOnline.world
    = (inr docs, h', w') /\
    docs = JsMap.values (docsCache (h' ResourceDocs)) /\
    WellKeyed (docsCache (h' ResourceDocs)) /\
    NoDup (map url docs).
Proof.
  apply fetchLatestDocs_unique_urls. split; constructor.
Defined.

(* ----------------------------------------------------------------- *)
(** ** The corpus source *)

Lemma url_absent (u : string) (pages : list Page) :
  negb (existsb (fun p => String.eqb (page_url p) u) pages) = true ->
  ~ In u (map page_url pages).
Proof.
  intros H Hin. apply negb_true_iff in H.
  apply in_map_iff in Hin. destruct Hin as (p & <- & Hp).
  assert (existsb (fun q => String.eqb (page_url q) (page_url p)) pages = true) as Ht
    by (apply existsb_exists; exists p; split; [exact Hp | apply String.eqb_refl]).
  congruence.
Qed.

Lemma url_present (u : string) (pages : list Page) :
  negb (existsb (fun p => String.eqb (page_url p) u) pages) = false ->
  In u (map page_url pages).
Proof.
  intros H. apply negb_false_iff in H. apply existsb_exists in H.
  destruct H as (p & Hp & E). apply String.eqb_eq in E. subst u.
  apply in_map. exact Hp.
Qed.

Lemma GoodPages_snoc (pages : list Page) (p : Page) :
  GoodPages pages -> ~ In (page_url p) (map page_url pages) ->
  Js.truthy (page_title p) = true -> GoodPages (pages ++ [p]).
Proof.
  intros [Hn Ht] Hu Hp. split.
  - rewrite map_app. simpl. apply NoDup_app; [exact Hn | repeat constructor; intros [] |].
    intros x Hx [Ex | []]. subst x. exact (Hu Hx).
  - apply Forall_app. split; [exact Ht | repeat constructor; exact Hp].
Qed.

Lemma addAnchor_good (pages : list Page) (a : Anchor) :
  GoodPages pages -> GoodPages (addAnchor pages a).
Proof.
  intros Hg. unfold addAnchor.
  destruct (Js.truthy (href a)); cbn [andb]; [| exact Hg].
  destruct (Js.truthy (Js.trim (text a))) eqn:Et; cbn [andb]; [| exact Hg].
  destruct (negb (existsb _ pages)) eqn:En; [| exact Hg].
  apply GoodPages_snoc; [exact Hg | apply url_absent; exact En | exact Et].
Qed.

Lemma addCoreDoc_good (pages : list Page) (c : Page) :
  In c coreDocs -> GoodPages pages -> GoodPages (addCoreDoc pages c).
Proof.
  intros Hc Hg. unfold addCoreDoc.
  destruct (negb (existsb _ pages)) eqn:En; [| exact Hg].
  apply GoodPages_snoc; [exact Hg | apply url_absent; exact En |].
  simpl in Hc. intuition (subst c; reflexivity).
Qed.

Lemma addCoreDoc_grows (pages : list Page) (c : Page) (u : string) :
  In u (map page_url pages) -> In u (map page_url (addCoreDoc pages c)).
Proof.
  intros H. unfold addCoreDoc. destruct (negb (existsb _ pages)); [| exact H].
  rewrite map_app. apply in_or_app. left. exact H.
Qed.

Lemma addCoreDoc_adds (pages : list Page) (c : Page) :
  In (page_url c) (map page_url (addCoreDoc pages c)).
Proof.
  unfold addCoreDoc. destruct (negb (existsb _ pages)) eqn:En.
  - rewrite map_app. apply in_or_app. right. left. reflexivity.
  - apply url_present. exact En.
Qed.

Lemma fold_addAnchor_good (anchors : list Anchor) (pages : list Page) :
  GoodPages pages -> GoodPages (fold_left addAnchor anchors pages).
Proof.
  revert pages. induction anchors as [| a anchors IH]; intros pages Hg; simpl.
  - exact Hg.
  - apply IH, addAnchor_good, Hg.
Qed.

Lemma fold_addCoreDoc (cores : list Page) (pages : list Page) :
  (forall c, In c cores -> In c coreDocs) ->
  GoodPages pages ->
  GoodPages (fold_left addCoreDoc cores pages) /\
  (forall u, In u (map page_url pages) ->
             In u (map page_url (fold_left addCoreDoc cores pages))) /\
  (forall c, In c cores -> In (page_url c) (map page_url (fold_left addCoreDoc cores pages))).
Proof.
  revert pages. induction cores as [| c cores IH]; intros pages Hsub Hg; simpl.
  - split; [exact Hg |]. split; [auto | intros c []].
  - destruct (IH (addCoreDoc pages c)) as (Hg' & Hmono & Hin).
    + intros c' Hc'. apply Hsub. right. exact Hc'.
    + apply addCoreDoc_good; [apply Hsub; left; reflexivity | exact Hg].
    + split; [exact Hg' |]. split.
      * intros u Hu. apply Hmono, addCoreDoc_grows, Hu.
      * intros c' [<- | Hc'].
        -- apply Hmono, addCoreDoc_adds.
        -- apply Hin, Hc'.
Qed.

(** X7. The index of the documentation. [getDocumentationPages] sends
    one request, for the index. It throws only when that request fails
    or when the body of the answer cannot be read; the status of the
    answer is not looked at. The pages it returns have pairwise distinct
    urls and titles that are not empty, and the four core pages are
    always among them, whatever the index contains. *)
Theorem getDocumentationPages_pages (h : Heap) (w : World) :
  requests (snd (run getDocumentationPages h w)) = indexUrl :: requests w /\
  match outcome getDocumentationPages h w with
  | inr pages =>
      NoDup (map page_url pages) /\
      Forall (fun p => Js.truthy (page_title p) = true) pages /\
      forall c, In c coreDocs -> In (page_url c) (map page_url pages)
  | inl _ =>
      net w indexUrl = None \/
      exists r, net w indexUrl = Some r /\ body r = None
  end.
Proof.
  unfold outcome, getDocumentationPages, await.
  cbn [run bind perform].
  destruct (net w indexUrl) as [r |] eqn:En; cbn [run bind perform].
  - destruct (body r) as [html |] eqn:Eb; cbn [run bind fst snd].
    + split; [reflexivity |].
      destruct (@fold_addCoreDoc coreDocs
                  (fold_left addAnchor (contentAnchors html)
                     (fold_left addAnchor (navAnchors html) [])))
        as (Hg & _ & Hin).
      * auto.
      * apply fold_addAnchor_good, fold_addAnchor_good. split; constructor.
      * destruct Hg as [Hn Ht]. split; [exact Hn |]. split; [exact Ht | exact Hin].
    + split; [reflexivity |].
      right. exists r. split; [reflexivity | exact Eb].
  - split; [reflexivity |]. left. reflexivity.
Qed.

(** X8. One page of the documentation. [fetchDocumentPage] never throws
    and assigns no field; it sends exactly one request, for the url of
    the page. When it returns a document, that document carries the
    url, the title and the section of the page, and the request was
    answered with a success status; a failed request, an error status,
    an unreadable body or an empty text give [null]. *)
Theorem fetchDocumentPage_result (page : Page) (h : Heap) (w : World) :
  exists (r : option TerragruntDoc) (w' : World),
    run (fetchDocumentPage page) h w = (inr r, h, w') /\
    requests w' = page_url page :: requests w /\
    match r with
    | Some d =>
        url d = page_url page /\ title d = page_title page /\
        section d = page_section page /\
        exists resp html,
          net w (page_url page) = Some resp /\ ok resp = true /\
          body resp = Some html
    | None => True
    end.
Proof.
  unfold fetchDocumentPage, await. rewrite run_tryCatch.
  cbn [run bind perform].
  destruct (net w (page_url page)) as [resp |] eqn:En; cbn [run bind].
  - destruct (ok resp) eqn:Eo; cbn [negb run bind perform].
    + destruct (body resp) as [html |] eqn:Eb; cbn [run bind].
      * match goal with
        | |- context [if negb (Js.truthy ?c) then Ret None else _] =>
            destruct (negb (Js.truthy c))
        end; cbn [run bind dateNow].
        -- eexists _, _. split; [reflexivity |]. split; [reflexivity | exact I].
        -- eexists _, _. split; [reflexivity |]. split; [reflexivity |].
           cbn [url title section]. repeat split.
           exists resp, html. repeat split; assumption.
      * eexists _, _. split; [reflexivity |]. split; [reflexivity | exact I].
    + eexists _, _. split; [reflexivity |]. split; [reflexivity | exact I].
  - eexists _, _. split; [reflexivity |]. split; [reflexivity | exact I].
Qed.

(* ----------------------------------------------------------------- *)
(** ** A refresh and its snapshot *)

Lemma perform_canWrite {R} (op : IO R) (w : World) :
  canWrite (snd (perform op w)) = canWrite w.
Proof.
  destruct op; simpl; try reflexivity.
  - destruct (canWrite w f); reflexivity.
  - destruct (canWrite w f1), (canWrite w f2); reflexivity.
Qed.

(** No call changes which files can be written. *)
Lemma run_canWrite {A} (m : Async A) (h : Heap) (w : World) :
  canWrite (snd (run m h w)) = canWrite w.
Proof.
  revert h w.
  induction m as [a | e | o k IH | o s k IH | k IH | R op k IH];
    intros h w; simpl; try reflexivity; try apply IH.
  pose proof (perform_canWrite op w) as P.
  destruct (perform op w) as [r w']. simpl in P. rewrite <- P. apply IH.
Qed.

Lemma getDocumentationPages_ok (h : Heap) (w : World) (r : Response) (html : Html) :
  net w indexUrl = Some r -> body r = Some html ->
  exists pages w1, run getDocumentationPages h w = (inr pages, h, w1).
Proof.
  intros En Eb. unfold getDocumentationPages, await.
  cbn [run bind perform]. rewrite En. cbn [run bind perform]. rewrite Eb.
  eexists _, _. reflexivity.
Qed.

(** X9. A refresh persists what it fetched. When the index is answered
    with a readable body and the disk accepts the two writes,
    [refreshDocsCache] ends with a fetch time in memory and with a
    snapshot on disk that holds exactly the documents of the in-process
    corpus, in order, stamped with that fetch time and with their
    number. *)
Theorem refreshDocsCache_persists
        (this : Ref) (h : Heap) (w : World) (r : Response) (html : Html) :
  net w indexUrl = Some r ->
  body r = Some html ->
  canWrite w CacheFile = true ->
  canWrite w MetadataFile = true ->
  exists (h' : Heap) (w' : World) (t : Z),
    run (refreshDocsCache this) h w = (inr tt, h', w') /\
    lastFetchTime (h' this) = Some (Some t) /\
    disk w' CacheFile
      = Holds (Json (JDocs (map Some (JsMap.values (docsCache (h' this)))))) /\
    disk w' MetadataFile
      = Holds (Json (JMetadata
                       {| meta_lastFetchTime := Some t;
                          docsCount := Z.of_nat (List.length (docsCache (h' this))) |})).
Proof.
  intros En Eb Hc Hm.
  destruct (getDocumentationPages_ok h w En Eb) as (pages & w1 & G).
  set (h0 := update h this
               {| docsCache := JsMap.empty; lastFetchTime := lastFetchTime (h this) |}).
  assert (Hc0 : docsCache (h0 this) = cacheOf [])
    by (unfold h0; rewrite update_same; reflexivity).
  destruct (fetchPages_generation this pages h0 w1 [] Hc0)
    as (gen & h2 & w2 & Ep & _ & _).
  set (h3 := update h2 this
               {| docsCache := docsCache (h2 this);
                  lastFetchTime := Some (Some (clock w2)) |}).
  assert (Ht3 : lastFetchTime (h3 this) = Some (Some (clock w2)))
    by (unfold h3; rewrite update_same; reflexivity).
  assert (Hw2 : canWrite w2 = canWrite w).
  { pose proof (run_canWrite (fetchPages this pages) h0 w1) as P2.
    rewrite Ep in P2. simpl in P2. rewrite P2.
    pose proof (run_canWrite getDocumentationPages h w) as P1.
    rewrite G in P1. exact P1. }
  assert (Hc2 : canWrite w2 CacheFile = true) by (rewrite Hw2; exact Hc).
  assert (Hm2 : canWrite w2 MetadataFile = true) by (rewrite Hw2; exact Hm).
  destruct (saveCacheToDisk_writes this h3 w2 Ht3 Hc2 Hm2)
    as (w3 & Es & Hd & Hmeta & _).
  exists h3, w3, (clock w2). split; [| split; [exact Ht3 | split; [exact Hd | exact Hmeta]]].
  unfold refreshDocsCache. rewrite run_tryCatch, run_bind, G.
  change (match run (fetchPages this pages ;;;
                     now <- dateNow ;;
                     setLastFetchTime this (Some now) ;;;
                     saveCacheToDisk this) h0 w1 with
          | (inl _, h', w') => run (Ret tt) h' w'
          | r0 => r0
          end = (inr tt, h3, w3)).
  rewrite run_bind, Ep.
  change (match run (saveCacheToDisk this) h3 w2 with
          | (inl _, h', w') => run (Ret tt) h' w'
          | r0 => r0
          end = (inr tt, h3, w3)).
  rewrite Es. reflexivity.
Qed.

Lemma refreshDocsCache_persists_witness :
  exists (h' : Heap) (w' : World) (t : Z),
    run (refreshDocsCache ResourceDocs) Sample.cold SampleOnline.world
    = (inr tt, h', w') /\
    lastFetchTime (h' ResourceDocs) = Some (Some t) /\
    disk w' CacheFile
      = Holds (Json (JDocs (map Some (JsMap.values (docsCache (h' ResourceDocs)))))) /\
    disk w' MetadataFile
      = Holds (Json (JMetadata
                       {| meta_lastFetchTime := Some t;
                          docsCount :=
                            Z.of_nat (List.length (docsCache (h' ResourceDocs))) |})).
Proof.
  apply (@refreshDocsCache_persists ResourceDocs Sample.cold SampleOnline.world
           SampleOnline.index
           {| navAnchors :=
                [ {| href := "/docs/features/units/"; text := "Units" |};
                  {| href := "/docs/features/stacks/"; text := "Stacks" |} ];
              contentAnchors := []; containerText := None; bodyText := "" |});
    reflexivity.
Defined.

(* ================================================================= *)
(** * Further properties of the retrieval operations *)

(** ** The list of the sections *)

Lemma strLt_trans (a b c : string) : strLt a b -> strLt b c -> strLt a c.
Proof.
  unfold strLt. intros H1 H2.
  apply OrderedTypeEx.String_as_OT.cmp_lt.
  apply OrderedTypeEx.String_as_OT.cmp_lt in H1, H2.
  eapply OrderedTypeEx.String_as_OT.lt_trans; eassumption.
Qed.

(** Two different strings are ordered one way or the other, and the
    comparison function of the sort says which. *)
Lemma stringCompare_le (y x : string) :
  x <> y ->
  ((stringCompare y x <=? 0) = true /\ strLt y x) \/
  ((stringCompare y x <=? 0) = false /\ strLt x y).
Proof.
  intros Hne. unfold stringCompare, strLt.
  destruct (String.compare y x) eqn:E.
  - apply String.compare_eq_iff in E. congruence.
  - left. split; reflexivity.
  - right. split; [reflexivity |].
    rewrite String.compare_antisym, E. reflexivity.
Qed.

Lemma insertBy_sorted (x : string) (l : list string) :
  StronglySorted strLt l -> ~ In x l ->
  StronglySorted strLt (Js.insertBy stringCompare x l).
Proof.
  intros Hs. induction Hs as [| y l Hs IH Hy]; intros Hx; simpl.
  - repeat constructor.
  - assert (Hne : x <> y) by (intros ->; apply Hx; left; reflexivity).
    destruct (stringCompare_le Hne) as [[-> Hlt] | [-> Hlt]].
    + constructor.
      * apply IH. intros Hin. apply Hx. right. exact Hin.
      * apply Forall_forall. intros z Hz. apply insertBy_In in Hz.
        destruct Hz as [-> | Hz]; [exact Hlt |].
        rewrite Forall_forall in Hy. apply Hy. exact Hz.
    + constructor; [constructor; assumption |].
      constructor; [exact Hlt |].
      eapply Forall_impl; [| exact Hy]. intros z Hz.
      eapply strLt_trans; eassumption.
Qed.

Lemma sort_strings (l acc : list string) :
  StronglySorted strLt acc -> NoDup l -> (forall x, In x l -> ~ In x acc) ->
  StronglySorted strLt (fold_left (fun a x => Js.insertBy stringCompare x a) l acc) /\
  forall z, In z (fold_left (fun a x => Js.insertBy stringCompare x a) l acc)
            <-> In z acc \/ In z l.
Proof.
  revert acc. induction l as [| x l IH]; intros acc Hs Hn Hd; simpl.
  - split; [exact Hs | intuition].
  - inversion Hn as [| ? ? Hx Hn']; subst.
    destruct (IH (Js.insertBy stringCompare x acc)) as [Hs' Hin'].
    + apply insertBy_sorted; [exact Hs | apply Hd; left; reflexivity].
    + exact Hn'.
    + intros z Hz Hz'. apply insertBy_In in Hz'. destruct Hz' as [-> | Hz'].
      * exact (Hx Hz).
      * apply (Hd z); [right; exact Hz | exact Hz'].
    + split; [exact Hs' |]. intros z. rewrite Hin', insertBy_In. intuition.
Qed.

Lemma dedupFrom_complete (seen l : list string) (x : string) :
  In x l -> In x (Js.dedupFrom seen l) \/ In x seen.
Proof.
  revert seen. induction l as [| y l IH]; intros seen; simpl; [intros [] |].
  intros [-> | Hx].
  - destruct (existsb (String.eqb x) seen) eqn:E.
    + right. apply existsb_exists in E. destruct E as (z & Hz & Ez).
      apply String.eqb_eq in Ez. subst z. exact Hz.
    + left. left. reflexivity.
  - destruct (existsb (String.eqb y) seen) eqn:E.
    + apply IH. exact Hx.
    + destruct (IH (y :: seen) Hx) as [H | [<- | H]].
      * left. right. exact H.
      * left. left. reflexivity.
      * right. exact H.
Qed.

Lemma dedup_In (l : list string) (x : string) : In x (Js.dedup l) <-> In x l.
Proof.
  unfold Js.dedup. split.
  - intros H. apply (dedupFrom_spec [] l). exact H.
  - intros H. destruct (dedupFrom_complete [] l x H) as [H' | []]. exact H'.
Qed.

Lemma StronglySorted_NoDup (l : list string) : StronglySorted strLt l -> NoDup l.
Proof.
  induction 1 as [| x l Hs IH Hx]; constructor; [| exact IH].
  intros Hin. rewrite Forall_forall in Hx. specialize (Hx x Hin).
  unfold strLt in Hx.
  assert (String.compare x x = Eq) as E
    by (apply (proj2 (OrderedTypeEx.String_as_OT.cmp_eq x x)); reflexivity).
  congruence.
Qed.

(** The sections of a corpus, as [getAvailableSections] computes
    them. *)
Lemma sections_sorted (docs : list TerragruntDoc) :
  let sections := Js.sort stringCompare (Js.dedup (map section docs)) in
  StronglySorted strLt sections /\
  forall s, In s sections <-> exists d, In d docs /\ section d = s.
Proof.
  destruct (@sort_strings (Js.dedup (map section docs)) [])
    as [Hs Hin].
  - constructor.
  - apply dedupFrom_spec.
  - intros x _ [].
  - split; [exact Hs |]. intros s. unfold Js.sort. rewrite Hin, dedup_In, in_map_iff.
    split.
    + intros [[] | (d & E & Hd)]. exists d. split; assumption.
    + intros (d & Hd & E). right. exists d. split; assumption.
Qed.

(** X10. The list of the sections. [getAvailableSections] returns the
    sections of the documents that [fetchLatestDocs] gives, each once,
    in strictly increasing order of character codes: a name is in the
    list exactly when some document has it as its section. *)
Theorem getAvailableSections_sorted (this : Ref) (h : Heap) (w : World) :
  exists (docs : list TerragruntDoc) (h' : Heap) (w' : World) (sections : list string),
    run (fetchLatestDocs this) h w = (inr docs, h', w') /\
    run (getAvailableSections this) h w = (inr sections, h', w') /\
    StronglySorted strLt sections /\
    NoDup sections /\
    forall s, In s sections <-> exists d, In d docs /\ section d = s.
Proof.
  destruct (fetchLatestDocs_total this h w) as (docs & h' & w' & E).
  exists docs, h', w', (Js.sort stringCompare (Js.dedup (map section docs))).
  split; [exact E |]. split.
  { unfold getAvailableSections. rewrite run_bind, E. reflexivity. }
  destruct (sections_sorted docs) as [Hs Hin].
  split; [exact Hs |]. split; [apply StronglySorted_NoDup; exact Hs | exact Hin].
Qed.

(* ----------------------------------------------------------------- *)
(** ** Sections and their documents *)

Lemma sum_indicator (x : string) (ks : list string) :
  NoDup ks ->
  fold_right Z.add 0 (map (fun k => if String.eqb x k then 1 else 0) ks)
  = if existsb (String.eqb x) ks then 1 else 0.
Proof.
  induction 1 as [| k ks Hk Hn IH]; simpl; [reflexivity |].
  rewrite IH. destruct (String.eqb x k) eqn:E; simpl; [| reflexivity].
  apply String.eqb_eq in E. subst k.
  destruct (existsb (String.eqb x) ks) eqn:Ex; [| reflexivity].
  apply existsb_exists in Ex. destruct Ex as (z & Hz & Ez).
  apply String.eqb_eq in Ez. subst z. contradiction.
Qed.

(** Counting the documents section by section counts each document
    once, when every section is in the list and none is there twice. *)
Lemma count_by_section (ks : list string) (docs : list TerragruntDoc) :
  NoDup ks ->
  (forall d, In d docs -> In (section d) ks) ->
  fold_right Z.add 0
    (map (fun s => arrayLength (filter (fun d => String.eqb (section d) s) docs)) ks)
  = arrayLength docs.
Proof.
  intros Hn. induction docs as [| d docs IH]; intros Hin.
  - simpl. clear. induction ks as [| k ks IHk]; simpl; [reflexivity |].
    rewrite IHk. reflexivity.
  - transitivity
      (fold_right Z.add 0 (map (fun k => if String.eqb (section d) k then 1 else 0) ks)
       + fold_right Z.add 0
           (map (fun s => arrayLength (filter (fun d => String.eqb (section d) s) docs)) ks)).
    + clear. induction ks as [| k ks IHk]; cbn [map fold_right]; [reflexivity |].
      rewrite IHk. unfold arrayLength. cbn [filter].
      destruct (String.eqb (section d) k); simpl List.length; lia.
    + rewrite IH by (intros d' Hd'; apply Hin; right; exact Hd').
      rewrite sum_indicator by exact Hn.
      assert (existsb (String.eqb (section d)) ks = true) as ->.
      { apply existsb_exists. exists (section d).
        split; [apply Hin; left; reflexivity | apply String.eqb_refl]. }
      unfold arrayLength. simpl List.length. lia.
Qed.

Lemma getAvailableSections_warm (this : Ref) (h : Heap) (w : World) :
  Warm this h w ->
  run (getAvailableSections this) h w
  = (inr (Js.sort stringCompare
            (Js.dedup (map section (JsMap.values (docsCache (h this)))))), h, w).
Proof.
  intros Hw. unfold getAvailableSections.
  rewrite run_bind, fetchLatestDocs_warm by exact Hw. reflexivity.
Qed.

Lemma getDocBySection_warm (this : Ref) (sec : string) (h : Heap) (w : World) :
  Warm this h w ->
  run (getDocBySection this sec) h w
  = (inr (filter (fun d => String.eqb (section d) sec)
                 (JsMap.values (docsCache (h this)))), h, w).
Proof.
  intros Hw. unfold getDocBySection.
  rewrite run_bind, fetchLatestDocs_warm by exact Hw. reflexivity.
Qed.

(** X11. The section counts add up. When the manager of the tool
    handler holds documents that are not stale, [getTerragruntSections]
    touches nothing and reports: the sections in increasing order, each
    with the number of its documents, which is at least one; the number
    of sections; and the number of documents, which is the sum of the
    counts of the sections. *)
Theorem getTerragruntSections_counts (h : Heap) (w : World) :
  Warm ToolDocs h w ->
  exists sections : list (string * Z),
    run getTerragruntSections h w
    = (inr (SectionsResult sections (arrayLength sections)
              (arrayLength (docsCache (h ToolDocs)))), h, w) /\
    StronglySorted strLt (map fst sections) /\
    Forall (fun sc => 1 <= snd sc) sections /\
    fold_right Z.add 0 (map snd sections) = arrayLength (docsCache (h ToolDocs)).
Proof.
  intros Hw. set (docs := JsMap.values (docsCache (h ToolDocs))).
  set (names := Js.sort stringCompare (Js.dedup (map section docs))).
  destruct (sections_sorted docs) as [Hs Hin]. fold names in Hs, Hin.
  exists (map (fun s => (s, arrayLength (filter (fun d => String.eqb (section d) s) docs)))
              names).
  assert (Hlen : arrayLength docs = arrayLength (docsCache (h ToolDocs)))
    by (unfold docs, JsMap.values, arrayLength; rewrite length_map; reflexivity).
  split; [| split; [| split]].
  - unfold getTerragruntSections.
    rewrite run_bind, getAvailableSections_warm by exact Hw.
    rewrite run_bind, fetchLatestDocs_warm by exact Hw.
    cbn [run]. fold docs. fold names. rewrite <- Hlen.
    unfold arrayLength. rewrite length_map. reflexivity.
  - rewrite map_map. cbn [fst]. rewrite map_id. exact Hs.
  - apply Forall_forall. intros sc Hsc. apply in_map_iff in Hsc.
    destruct Hsc as (s & <- & Hs'). cbn [snd].
    apply Hin in Hs'. destruct Hs' as (d & Hd & Ed).
    assert (In d (filter (fun d0 => String.eqb (section d0) s) docs)) as Hf
      by (apply filter_In; split; [exact Hd | apply String.eqb_eq; exact Ed]).
    unfold arrayLength.
    destruct (filter (fun d0 => String.eqb (section d0) s) docs);
      [destruct Hf | simpl List.length; lia].
  - rewrite map_map. cbn [snd]. rewrite <- Hlen.
    apply count_by_section.
    + apply StronglySorted_NoDup. exact Hs.
    + intros d Hd. apply Hin. exists d. split; [exact Hd | reflexivity].
Qed.

Lemma getTerragruntSections_counts_witness :
  exists sections : list (string * Z),
    run getTerragruntSections
        (Sample.warm [Sample.overview; Sample.quickStart] 0)
        (Sample.offline Sample.hour Sample.noSnapshot)
    = (inr (SectionsResult sections (arrayLength sections)
              (arrayLength
                 (docsCache (Sample.warm [Sample.overview; Sample.quickStart] 0 ToolDocs)))),
       Sample.warm [Sample.overview; Sample.quickStart] 0,
       Sample.offline Sample.hour Sample.noSnapshot) /\
    StronglySorted strLt (map fst sections) /\
    Forall (fun sc => 1 <= snd sc) sections /\
    fold_right Z.add 0 (map snd sections)
    = arrayLength (docsCache (Sample.warm [Sample.overview; Sample.quickStart] 0 ToolDocs)).
Proof.
  apply getTerragruntSections_counts. split.
  - simpl. discriminate.
  - exists (Some 0). split; reflexivity.
Defined.

(** X12. Sections can be read back. When the manager of the tool
    handler holds documents that are not stale: for a name that
    [getAvailableSections] lists, [getSectionDocs] returns the documents
    of that section, in the order of the corpus and at least one, with
    their number; for any other name it returns the not-found object,
    which carries the list of [getAvailableSections]. Names are compared
    exactly, letter case included. *)
Theorem getSectionDocs_round_trip (sec : string) (h : Heap) (w : World) :
  Warm ToolDocs h w ->
  exists (available : list string) (docs : list TerragruntDoc),
    run (getAvailableSections ToolDocs) h w = (inr available, h, w) /\
    run (getDocBySection ToolDocs sec) h w = (inr docs, h, w) /\
    (In sec available ->
     docs <> [] /\
     run (getSectionDocs sec) h w
     = (inr (SectionDocs sec (map (excerpt 500) docs) (arrayLength docs)), h, w)) /\
    (~ In sec available ->
     docs = [] /\
     run (getSectionDocs sec) h w
     = (inr (SectionNotFound sec ("No documentation found for section: " ++ sec)%string
               available), h, w)).
Proof.
  intros Hw. set (corpus := JsMap.values (docsCache (h ToolDocs))).
  destruct (sections_sorted corpus) as [_ Hin].
  exists (Js.sort stringCompare (Js.dedup (map section corpus))),
    (filter (fun d => String.eqb (section d) sec) corpus).
  split; [apply getAvailableSections_warm; exact Hw |].
  split; [apply getDocBySection_warm; exact Hw |].
  split.
  - intros Hs. apply Hin in Hs. destruct Hs as (d & Hd & Ed).
    assert (In d (filter (fun d0 => String.eqb (section d0) sec) corpus)) as Hf
      by (apply filter_In; split; [exact Hd | apply String.eqb_eq; exact Ed]).
    split; [intros E; rewrite E in Hf; destruct Hf |].
    unfold getSectionDocs. rewrite run_bind, getDocBySection_warm by exact Hw.
    fold corpus.
    destruct (filter (fun d0 => String.eqb (section d0) sec) corpus) eqn:Ef;
      [destruct Hf |].
    replace (arrayLength (t :: l) =? 0) with false; [reflexivity |].
    symmetry. apply Z.eqb_neq. unfold arrayLength. simpl List.length. lia.
  - intros Hs.
    assert (filter (fun d0 => String.eqb (section d0) sec) corpus = []) as Ef.
    { destruct (filter (fun d0 => String.eqb (section d0) sec) corpus) as [| d l] eqn:Ef;
        [reflexivity |].
      exfalso. apply Hs, Hin.
      assert (In d (d :: l)) as Hd by (left; reflexivity).
      rewrite <- Ef in Hd. apply filter_In in Hd. destruct Hd as [Hd Ed].
      exists d. split; [exact Hd | apply String.eqb_eq; exact Ed]. }
    split; [exact Ef |].
    unfold getSectionDocs. rewrite run_bind, getDocBySection_warm by exact Hw.
    fold corpus. rewrite Ef. cbn [arrayLength List.length Z.of_nat Z.eqb].
    rewrite run_bind, getAvailableSections_warm by exact Hw. reflexivity.
Qed.

Lemma getSectionDocs_round_trip_witness :
  exists (available : list string) (docs : list TerragruntDoc),
    run (getAvailableSections ToolDocs)
        (Sample.warm [Sample.overview; Sample.quickStart] 0)
        (Sample.offline Sample.hour Sample.noSnapshot)
    = (inr available, Sample.warm [Sample.overview; Sample.quickStart] 0,
       Sample.offline Sample.hour Sample.noSnapshot) /\
    run (getDocBySection ToolDocs "features")
        (Sample.warm [Sample.overview; Sample.quickStart] 0)
        (Sample.offline Sample.hour Sample.noSnapshot)
    = (inr docs, Sample.warm [Sample.overview; Sample.quickStart] 0,
       Sample.offline Sample.hour Sample.noSnapshot) /\
    (In "features" available ->
     docs <> [] /\
     run (getSectionDocs "features")
         (Sample.warm [Sample.overview; Sample.quickStart] 0)
         (Sample.offline Sample.hour Sample.noSnapshot)
     = (inr (SectionDocs "features" (map (excerpt 500) docs) (arrayLength docs)),
        Sample.warm [Sample.overview; Sample.quickStart] 0,
        Sample.offline Sample.hour Sample.noSnapshot)) /\
    (~ In "features" available ->
     docs = [] /\
     run (getSectionDocs "features")
         (Sample.warm [Sample.overview; Sample.quickStart] 0)
         (Sample.offline Sample.hour Sample.noSnapshot)
     = (inr (SectionNotFound "features"
               ("No documentation found for section: " ++ "features")%string
               available),
        Sample.warm [Sample.overview; Sample.quickStart] 0,
        Sample.offline Sample.hour Sample.noSnapshot)).
Proof.
  apply getSectionDocs_round_trip. split.
  - simpl. discriminate.
  - exists (Some 0). split; reflexivity.
Defined.

(* ================================================================= *)
(** * Further properties of the tool handler *)

(** X13. The guards of [executeTool]. Whatever the name and the
    arguments, [executeTool] returns an object and never throws. A name
    that is not one of the six tools gives the unknown-tool error. For
    each of the five tools that require a parameter, a call in which the
    arguments are absent, or the parameter is absent or is the empty
    string, gives the error of the missing parameter. In both cases
    nothing else happens: the managers and the world are left as they
    were. *)
Theorem executeTool_guards (name : string) (args : option Args) (h : Heap) (w : World) :
  (exists r h' w', run (executeTool name args) h w = (inr r, h', w')) /\
  (~ In name toolNames ->
   run (executeTool name args) h w
   = (inr (ErrorResult ("Unknown tool: " ++ name)%string), h, w)) /\
  (forall param msg,
     In (name, param, msg) guardedTools ->
     truthyArg (prop param args) = None ->
     run (executeTool name args) h w = (inr (ErrorResult msg), h, w)).
Proof.
  split; [| split].
  - apply returns_tryCatch. intros e. apply returns_ret.
  - intros Hn. unfold executeTool.
    repeat match goal with
    | |- context [String.eqb name ?s] =>
        replace (String.eqb name s) with false
          by (symmetry; apply String.eqb_neq; intros ->; apply Hn;
              unfold toolNames; simpl; tauto)
    end.
    reflexivity.
  - intros param msg Hin Hnone. unfold guardedTools in Hin. simpl in Hin.
    repeat (destruct Hin as [Hin | Hin];
            [injection Hin as <- <- <-; unfold executeTool;
             cbn [String.eqb Ascii.eqb Bool.eqb andb]; rewrite Hnone; reflexivity |]).
    destruct Hin.
Qed.


(* ----------------------------------------------------------------- *)
(** ** The page of results of the search tool *)

Lemma substring0_length (n : nat) (s : string) :
  (String.length (Js.substring0 n s) <= n)%nat.
Proof.
  unfold Js.substring0. revert s. induction n as [| n IH]; intros s.
  - destruct s; simpl; lia.
  - destruct s as [| c s]; simpl; [lia |]. specialize (IH s). lia.
Qed.

Lemma append_length (a b : string) :
  String.length (a ++ b)%string = (String.length a + String.length b)%nat.
Proof. induction a as [| c a IH]; simpl; [reflexivity | rewrite IH; reflexivity]. Qed.

(** A text cut to size has at most three characters more than the
    size. *)
Lemma truncate_length (n : nat) (s : string) :
  Js.length (truncate n s) <= Z.of_nat n + 3.
Proof.
  unfold truncate. destruct (Js.length s >? Z.of_nat n) eqn:E.
  - unfold Js.length. rewrite append_length.
    pose proof (substring0_length n s). simpl String.length. lia.
  - destruct (Z.gtb_spec (Js.length s) (Z.of_nat n)); [discriminate | lia].
Qed.

(** X14. The page of results. For a search that passes the guard, with
    a limit that is not negative (the limit given, or 5 when none is
    given): the results are the excerpts of the first [limit] matches in
    ranking order, so their number is the smaller of the limit and the
    number of matches; [hasMore] is true exactly when matches are left
    over; and no snippet is longer than 303 characters (300 of the
    content and the ellipsis). *)
Theorem searchTerragruntDocs_page
        (args : Args) (q : string) (limit : Z) (h : Heap) (w : World) :
  arg_query args = Some q ->
  Js.truthy q = true ->
  limitOr5 (arg_limit args) = limit ->
  0 <= limit ->
  exists (matches : list TerragruntDoc) (h' : Heap) (w' : World)
         (results : list Excerpt) (hasMore : bool),
    run (searchDocs ToolResourceDocs q) h w = (inr matches, h', w') /\
    run (executeTool "search_terragrunt_docs" (Some args)) h w
    = (inr (SearchResult q results (arrayLength matches) hasMore), h', w') /\
    results = map (excerpt 300) (firstn (Z.to_nat limit) matches) /\
    arrayLength results = Z.min limit (arrayLength matches) /\
    (hasMore = true <-> arrayLength results < arrayLength matches) /\
    Forall (fun e => Js.length (ex_text e) <= 303) results.
Proof.
  intros Hq Ht Hl Hpos.
  destruct (searchDocs_total ToolResourceDocs q h w) as (matches & h' & w' & E).
  exists matches, h', w', (map (excerpt 300) (firstn (Z.to_nat limit) matches)),
    (arrayLength matches >? limit).
  assert (Hlen : arrayLength (map (excerpt 300) (firstn (Z.to_nat limit) matches))
                 = Z.min limit (arrayLength matches)).
  { unfold arrayLength. rewrite length_map, length_firstn. lia. }
  split; [exact E |]. split; [| split; [reflexivity | split; [exact Hlen | split]]].
  - rewrite (executeTool_search_run args h w Hq Ht Hl E).
    rewrite slice_from_0 by exact Hpos. reflexivity.
  - rewrite Hlen, Z.gtb_gt. lia.
  - apply Forall_forall. intros e He. apply in_map_iff in He.
    destruct He as (d & <- & _). cbn [excerpt ex_text].
    apply (truncate_length 300).
Qed.

Lemma searchTerragruntDocs_page_witness :
  exists (matches : list TerragruntDoc) (h' : Heap) (w' : World)
         (results : list Excerpt) (hasMore : bool),
    run (searchDocs ToolResourceDocs "start")
        (Sample.warm [Sample.overview; Sample.quickStart] 0)
        (Sample.offline Sample.hour Sample.noSnapshot) = (inr matches, h', w') /\
    run (executeTool "search_terragrunt_docs"
           (Some {| arg_query := Some "start"; arg_limit := None;
                    arg_section := None; arg_command := None;
                    arg_config := None; arg_topic := None |}))
        (Sample.warm [Sample.overview; Sample.quickStart] 0)
        (Sample.offline Sample.hour Sample.noSnapshot)
    = (inr (SearchResult "start" results (arrayLength matches) hasMore), h', w') /\
    results = map (excerpt 300) (firstn (Z.to_nat 5) matches) /\
    arrayLength results = Z.min 5 (arrayLength matches) /\
    (hasMore = true <-> arrayLength results < arrayLength matches) /\
    Forall (fun e => Js.length (ex_text e) <= 303) results.
Proof.
  apply (@searchTerragruntDocs_page
           {| arg_query := Some "start"; arg_limit := None;
              arg_section := None; arg_command := None;
              arg_config := None; arg_topic := None |} "start" 5);
    try reflexivity.
  lia.
Defined.

(* ================================================================= *)
(** * Properties of the resource handler *)

(** ** The instance of the uri functions

    The text of some dates, leap days and the ends of the four-digit
    years among them. *)

Lemma toISOString_samples :
  map Uri.toISOString
      [0; 1700000000000; 951782400000; 4107542400000; -1;
       253402300799999; 253402300800000]
  = [ "1970-01-01T00:00:00.000Z"; "2023-11-14T22:13:20.000Z";
      "2000-02-29T00:00:00.000Z"; "2100-03-01T00:00:00.000Z";
      "1969-12-31T23:59:59.999Z"; "9999-12-31T23:59:59.999Z";
      "+010000-01-01T00:00:00.000Z" ]%string.
Proof. vm_compute. reflexivity. Qed.

(** ** The instance of the uri functions is a round trip *)

Lemma decode_encodeChar (c : ascii) (rest : string) :
  Uri.decodeURIComponent (Uri.encodeChar c ++ rest)
  = option_map (String c) (Uri.decodeURIComponent rest).
Proof.
  destruct c as [[] [] [] [] [] [] [] []]; reflexivity.
Qed.

Lemma decode_encode (s : string) :
  Uri.decodeURIComponent (Uri.encodeURIComponent s) = Some s.
Proof.
  induction s as [| c s IH]; [reflexivity |].
  cbn [Uri.encodeURIComponent]. rewrite decode_encodeChar, IH. reflexivity.
Qed.

(** ** Uris *)

Lemma startsWith_app (p r : string) : Js.startsWith (p ++ r) p = true.
Proof.
  induction p as [| c p IH]; simpl; [destruct r; reflexivity |].
  rewrite Ascii.eqb_refl. exact IH.
Qed.

Lemma startsWith_split (s p : string) :
  Js.startsWith s p = true -> exists r, s = (p ++ r)%string.
Proof.
  revert s. induction p as [| c p IH]; intros s H.
  - exists s. reflexivity.
  - destruct s as [| b s]; simpl in H; [discriminate |].
    apply andb_true_iff in H. destruct H as [Hc Hs].
    apply Ascii.eqb_eq in Hc. subst b.
    destruct (IH s Hs) as (r & ->). exists r. reflexivity.
Qed.

Lemma substring_all (q : string) (m : nat) :
  (String.length q <= m)%nat -> String.substring 0 m q = q.
Proof.
  revert m. induction q as [| a q IH]; intros [| m] Hm; simpl in *;
    try reflexivity; try lia.
  rewrite IH by lia. reflexivity.
Qed.

Lemma substring_drop (p r : string) (m : nat) :
  (String.length r <= m)%nat ->
  String.substring (String.length p) m (p ++ r)%string = r.
Proof.
  intros Hm. induction p as [| a p IH]; simpl.
  - apply substring_all. exact Hm.
  - exact IH.
Qed.

Lemma removeFirst_unfold (s pat : string) :
  JsText.removeFirst s pat =
  if Js.startsWith s pat
  then String.substring (String.length pat) (String.length s) s
  else match s with
       | EmptyString => EmptyString
       | String c s' => String c (JsText.removeFirst s' pat)
       end.
Proof. destruct s; reflexivity. Qed.

(** Removing a prefix from a string that starts with it leaves the
    rest. *)
Lemma removeFirst_prefix (p r : string) : JsText.removeFirst (p ++ r) p = r.
Proof.
  rewrite removeFirst_unfold, startsWith_app.
  apply substring_drop. rewrite append_length. lia.
Qed.

(** ** The list of the resources *)

Section ResourceProperties.

Variable isWellFormed : string -> bool.
Variable encodeURIComponent : string -> string.
Variable decodeURIComponent : string -> option string.
Variable toISOString : Z -> string.

Lemma pushPages_all (docs : list TerragruntDoc) :
  forall resources : list Resource,
    forallb (fun d => isWellFormed (url d)) docs = true ->
    pushPages isWellFormed encodeURIComponent resources docs
    = inr (resources ++ map (pageResource encodeURIComponent) docs).
Proof.
  induction docs as [| d docs IH]; intros resources H; simpl.
  - rewrite app_nil_r. reflexivity.
  - simpl in H. apply andb_true_iff in H. destruct H as [Hd H].
    rewrite Hd, IH by exact H. rewrite <- app_assoc. reflexivity.
Qed.

Lemma pushPages_throws (before : list TerragruntDoc) (d : TerragruntDoc)
      (after : list TerragruntDoc) :
  forall resources : list Resource,
    forallb (fun d => isWellFormed (url d)) before = true ->
    isWellFormed (url d) = false ->
    pushPages isWellFormed encodeURIComponent resources (before ++ d :: after)
    = inl (resources ++ map (pageResource encodeURIComponent) before).
Proof.
  induction before as [| b before IH]; intros resources H Hd; simpl.
  - rewrite Hd, app_nil_r. reflexivity.
  - simpl in H. apply andb_true_iff in H. destruct H as [Hb H].
    rewrite Hb, IH by assumption. rewrite <- app_assoc. reflexivity.
Qed.

(** What [listResources] does once its two calls have returned. *)
Lemma listResources_run (h : Heap) (w : World) :
  exists (docs : list TerragruntDoc) (sections : list string)
         (h1 : Heap) (w1 : World) (h' : Heap) (w' : World),
    run (fetchLatestDocs ResourceDocs) h w = (inr docs, h1, w1) /\
    run (getAvailableSections ResourceDocs) h1 w1 = (inr sections, h', w') /\
    run (listResources isWellFormed encodeURIComponent) h w
    = (inr match pushPages isWellFormed encodeURIComponent
                   (map sectionResource sections) (firstn 50 docs) with
           | inr resources => overviewResource :: resources
           | inl resources => resources ++ [errorResource]
           end, h', w').
Proof.
  destruct (fetchLatestDocs_total ResourceDocs h w) as (docs & h1 & w1 & E1).
  destruct (fetchLatestDocs_total ResourceDocs h1 w1) as (docs2 & h2 & w2 & E2).
  exists docs, (Js.sort stringCompare (Js.dedup (map section docs2))), h1, w1, h2, w2.
  split; [exact E1 |].
  assert (Es : run (getAvailableSections ResourceDocs) h1 w1
               = (inr (Js.sort stringCompare (Js.dedup (map section docs2))), h2, w2))
    by (unfold getAvailableSections; rewrite run_bind, E2; reflexivity).
  split; [exact Es |].
  unfold listResources.
  rewrite run_bind, run_tryCatch, run_bind, E1, run_bind, Es.
  cbn [run]. rewrite slice_from_0 by lia. change (Z.to_nat 50) with 50%nat.
  destruct (pushPages isWellFormed encodeURIComponent _ (firstn 50 docs)); reflexivity.
Qed.

(** X15. The list of the resources. [listResources] never throws. When
    the urls of the first 50 documents that [fetchLatestDocs] returned
    are all well formed, the list is the overview, then one resource for
    each section in increasing order, then one resource for each of
    those documents, and the error resource is not in it. When one of
    the urls is not well formed, the encoding throws at the first such
    document: the list is then made of the sections and of the pages
    before that document, followed by the error resource, and the
    overview is missing. *)
Theorem listResources_shape (h : Heap) (w : World) :
  exists (docs : list TerragruntDoc) (sections : list string)
         (h1 : Heap) (w1 : World) (h' : Heap) (w' : World),
    run (fetchLatestDocs ResourceDocs) h w = (inr docs, h1, w1) /\
    run (getAvailableSections ResourceDocs) h1 w1 = (inr sections, h', w') /\
    (forallb (fun d => isWellFormed (url d)) (firstn 50 docs) = true ->
     run (listResources isWellFormed encodeURIComponent) h w
     = (inr (overviewResource
               :: (map sectionResource sections
                   ++ map (pageResource encodeURIComponent) (firstn 50 docs))),
        h', w') /\
     ~ In errorResource
          (overviewResource
             :: (map sectionResource sections
                 ++ map (pageResource encodeURIComponent) (firstn 50 docs)))) /\
    (forall (before : list TerragruntDoc) (d : TerragruntDoc) (after : list TerragruntDoc),
       firstn 50 docs = before ++ d :: after ->
       forallb (fun d => isWellFormed (url d)) before = true ->
       isWellFormed (url d) = false ->
       run (listResources isWellFormed encodeURIComponent) h w
       = (inr ((map sectionResource sections
                ++ map (pageResource encodeURIComponent) before)
               ++ [errorResource]),
          h', w')).
Proof.
  destruct (listResources_run h w) as (docs & sections & h1 & w1 & h' & w' & E1 & Es & E).
  exists docs, sections, h1, w1, h', w'.
  split; [exact E1 |]. split; [exact Es |]. split.
  - intros Hall. split.
    + rewrite E, pushPages_all by exact Hall. reflexivity.
    + intros [H | H]; [discriminate |].
      apply in_app_or in H. destruct H as [H | H]; apply in_map_iff in H;
        destruct H as (x & Hx & _); discriminate.
  - intros before d after Hsplit Hb Hd.
    rewrite E, Hsplit, pushPages_throws by assumption. reflexivity.
Qed.

(** ** Reading a resource *)

Lemma getResource_run (uri : string) (h : Heap) (w : World)
      (r : string + ResourceContents) (h' : Heap) (w' : World) :
  run (getResourceBody decodeURIComponent toISOString uri) h w = (inr r, h', w') ->
  run (getResource decodeURIComponent toISOString uri) h w
  = (inr match r with
         | inl msg => plain ("Error: " ++ msg)%string
         | inr c => c
         end, h', w').
Proof.
  intros E. unfold getResource. rewrite run_bind, run_tryCatch, E. reflexivity.
Qed.

(** X16. The uris that are not documents. [getResource] never throws:
    every failure becomes a plain text that starts with [Error:]. The
    error uri gives its fixed text; a uri that is none of the overview,
    a section uri, a page uri or the error uri gives the unknown-uri
    text, which repeats the uri; a page uri whose component cannot be
    decoded gives the text of the decoding error. None of the three
    reads the corpus or touches the world. *)
Theorem getResource_fixed_texts (uri : string) (h : Heap) (w : World) :
  (exists c h' w',
     run (getResource decodeURIComponent toISOString uri) h w = (inr c, h', w')) /\
  (uri = errorUri ->
   run (getResource decodeURIComponent toISOString uri) h w
   = (inr (plain "Failed to load Terragrunt documentation. Please check your internet connection and try again."),
      h, w)) /\
  (uri <> overviewUri -> Js.startsWith uri sectionPrefix = false ->
   Js.startsWith uri pagePrefix = false -> uri <> errorUri ->
   run (getResource decodeURIComponent toISOString uri) h w
   = (inr (plain ("Error: Unknown resource URI: " ++ uri)%string), h, w)) /\
  (forall component,
     uri = (pagePrefix ++ component)%string ->
     decodeURIComponent component = None ->
     run (getResource decodeURIComponent toISOString uri) h w
     = (inr (plain "Error: URI malformed"), h, w)).
Proof.
  split; [| split; [| split]].
  - unfold getResource. apply returns_bind; [| intros; apply returns_ret].
    apply returns_tryCatch. intros e. apply returns_ret.
  - intros ->. reflexivity.
  - intros H1 H2 H3 H4. apply (@getResource_run uri h w (inl _)).
    unfold getResourceBody.
    apply String.eqb_neq in H1, H4. rewrite H1, H2, H3, H4. reflexivity.
  - intros component -> Hd. apply (@getResource_run _ h w (inl _)).
    unfold getResourceBody.
    replace (String.eqb (pagePrefix ++ component) overviewUri) with false by reflexivity.
    replace (Js.startsWith (pagePrefix ++ component) sectionPrefix)
      with false by reflexivity.
    rewrite startsWith_app, removeFirst_prefix, Hd. reflexivity.
Qed.

(** X17. Section resources can be read back. When the manager of the
    resource handler holds documents that are not stale, reading the uri
    of the resource that [listResources] builds for a section gives, for
    a section of the corpus, the markdown text made of its documents in
    the order of the corpus, and, for any other name, the error text
    that names it; the manager and the world are left as they were. *)
Theorem getResource_section (sec : string) (h : Heap) (w : World) :
  Warm ResourceDocs h w ->
  let corpus := JsMap.values (docsCache (h ResourceDocs)) in
  let docs := filter (fun d => String.eqb (section d) sec) corpus in
  run (getResource decodeURIComponent toISOString (res_uri (sectionResource sec))) h w
  = (inr (if existsb (fun d => String.eqb (section d) sec) corpus
          then markdown (sectionText sec docs)
          else plain ("Error: No documentation found for section: " ++ sec)%string),
     h, w).
Proof.
  intros Hw corpus docs.
  assert (Hb : run (getResourceBody decodeURIComponent toISOString
                      (res_uri (sectionResource sec))) h w
               = (inr (if arrayLength docs =? 0
                       then inl ("No documentation found for section: " ++ sec)%string
                       else inr (markdown (sectionText sec docs))), h, w)).
  { unfold getResourceBody. cbn [res_uri sectionResource].
    replace (String.eqb (sectionPrefix ++ sec) overviewUri) with false by reflexivity.
    rewrite startsWith_app, removeFirst_prefix.
    rewrite run_bind, getDocBySection_warm by exact Hw.
    fold corpus. fold docs. destruct (arrayLength docs =? 0); reflexivity. }
  rewrite (@getResource_run _ _ _ _ _ _ Hb).
  assert (Hex : existsb (fun d => String.eqb (section d) sec) corpus
                = negb (arrayLength docs =? 0)).
  { unfold docs, arrayLength. clear. induction corpus as [| d l IH]; [reflexivity |].
    simpl. destruct (String.eqb (section d) sec); simpl.
    - reflexivity.
    - exact IH. }
  rewrite Hex. destruct (arrayLength docs =? 0); reflexivity.
Qed.

Lemma find_unique (docs : list TerragruntDoc) (d : TerragruntDoc) :
  NoDup (map url docs) -> In d docs ->
  Js.find (fun x => String.eqb (url x) (url d)) docs = Some d.
Proof.
  unfold Js.find. induction docs as [| x docs IH]; intros Hn Hin; [destruct Hin |].
  simpl in *. inversion Hn as [| ? ? Hx Hn']; subst.
  destruct Hin as [-> | Hin].
  - rewrite String.eqb_refl. reflexivity.
  - destruct (String.eqb (url x) (url d)) eqn:E.
    + apply String.eqb_eq in E. exfalso. apply Hx. rewrite E.
      apply in_map. exact Hin.
    + apply IH; assumption.
Qed.

(** X18. Page resources can be read back. When the manager of the
    resource handler holds documents that are not stale under a
    well-keyed map, and decoding undoes encoding, reading the uri of the
    resource that [listResources] builds for a document of the corpus
    gives the markdown text of that very document, and touches
    nothing. *)
Theorem getResource_page (d : TerragruntDoc) (h : Heap) (w : World) :
  (forall s, decodeURIComponent (encodeURIComponent s) = Some s) ->
  Warm ResourceDocs h w ->
  WellKeyed (docsCache (h ResourceDocs)) ->
  In d (JsMap.values (docsCache (h ResourceDocs))) ->
  run (getResource decodeURIComponent toISOString
         (res_uri (pageResource encodeURIComponent d))) h w
  = (inr (markdown (pageText toISOString d)), h, w).
Proof.
  intros Hcodec Hw Hk Hin.
  apply (@getResource_run _ h w (inr _)).
  unfold getResourceBody. cbn [res_uri pageResource].
  replace (String.eqb (pagePrefix ++ encodeURIComponent (url d)) overviewUri)
    with false by reflexivity.
  replace (Js.startsWith (pagePrefix ++ encodeURIComponent (url d)) sectionPrefix)
    with false by reflexivity.
  rewrite startsWith_app, removeFirst_prefix, Hcodec.
  rewrite run_bind, fetchLatestDocs_warm by exact Hw.
  rewrite find_unique; [reflexivity | apply WellKeyed_urls; exact Hk | exact Hin].
Qed.

End ResourceProperties.

Lemma getResource_section_witness :
  let h := Sample.warm [Sample.overview; Sample.quickStart] 0 in
  let w := Sample.offline Sample.hour Sample.noSnapshot in
  let corpus := JsMap.values (docsCache (h ResourceDocs)) in
  let docs := filter (fun d => String.eqb (section d) "features") corpus in
  run (getResource Uri.decodeURIComponent Uri.toISOString
         (res_uri (sectionResource "features"))) h w
  = (inr (if existsb (fun d => String.eqb (section d) "features") corpus
          then markdown (sectionText "features" docs)
          else plain ("Error: No documentation found for section: " ++ "features")%string),
     h, w).
Proof.
  apply (@getResource_section Uri.decodeURIComponent Uri.toISOString "features"
           (Sample.warm [Sample.overview; Sample.quickStart] 0)
           (Sample.offline Sample.hour Sample.noSnapshot)).
  split.
  - simpl. discriminate.
  - exists (Some 0). split; reflexivity.
Defined.

Lemma getResource_page_witness :
  run (getResource Uri.decodeURIComponent Uri.toISOString
         (res_uri (pageResource Uri.encodeURIComponent Sample.quickStart)))
      (Sample.warm [Sample.overview; Sample.quickStart] 0)
      (Sample.offline Sample.hour Sample.noSnapshot)
  = (inr (markdown (pageText Uri.toISOString Sample.quickStart)),
     Sample.warm [Sample.overview; Sample.quickStart] 0,
     Sample.offline Sample.hour Sample.noSnapshot).
Proof.
  apply (@getResource_page Uri.encodeURIComponent Uri.decodeURIComponent Uri.toISOString).
  - exact decode_encode.
  - split.
    + simpl. discriminate.
    + exists (Some 0). split; reflexivity.
  - split.
    + repeat constructor.
    + vm_compute. repeat constructor; simpl; intuition discriminate.
  - vm_compute. right. left. reflexivity.
Defined.

(* ================================================================= *)
(** * Further properties of the code examples *)

Lemma string_app_assoc (a b c : string) : ((a ++ b) ++ c = a ++ (b ++ c))%string.
Proof. induction a as [| x a IH]; simpl; [reflexivity | rewrite IH; reflexivity]. Qed.

Lemma string_app_nil_r (a : string) : (a ++ "")%string = a.
Proof. induction a as [| x a IH]; simpl; [reflexivity | rewrite IH; reflexivity]. Qed.

(** A successful match consumes a prefix of the text and hands the rest
    to the continuation. *)
Lemma exec_suffix (r : Regex.re) :
  forall (s : string) (k : string -> option string) (x : string),
    Regex.exec r s k = Some x ->
    exists pre rest, s = (pre ++ rest)%string /\ k rest = Some x.
Proof.
  induction r as [p | | a IHa b IHb | greedy a IHa]; intros s k x H.
  - destruct s as [| c s']; simpl in H; [discriminate |].
    destruct (p c); [| discriminate].
    exists (String c EmptyString), s'. split; [reflexivity | exact H].
  - exists EmptyString, s. split; [reflexivity | exact H].
  - simpl in H. apply IHa in H. destruct H as (pre1 & s1 & -> & H).
    apply IHb in H. destruct H as (pre2 & rest & -> & H).
    exists (pre1 ++ pre2)%string, rest. split; [| exact H].
    symmetry. apply string_app_assoc.
  - simpl in H. revert H. generalize (String.length s) at 1. intros n.
    revert s. induction n as [| n IHn]; intros s H.
    + exists EmptyString, s. split; [reflexivity | exact H].
    + match type of H with
      | context [Regex.exec a s ?c] => destruct (Regex.exec a s c) as [y |] eqn:E
      end.
      * assert (Hx : (exists pre rest, s = (pre ++ rest)%string /\ k rest = Some x)
                     \/ y = x).
        { destruct greedy; [right; congruence |].
          destruct (k s) as [z |] eqn:Ek; [| right; congruence].
          left. exists EmptyString, s. split; [reflexivity | congruence]. }
        destruct Hx as [Hx | ->]; [exact Hx |].
        apply IHa in E. destruct E as (pre1 & s1 & -> & E).
        destruct (String.length s1 <? String.length (pre1 ++ s1))%nat; [| discriminate].
        apply IHn in E. destruct E as (pre2 & rest & -> & E).
        exists (pre1 ++ pre2)%string, rest. split; [| exact E].
        symmetry. apply string_app_assoc.
      * exists EmptyString, s. split; [reflexivity |].
        destruct greedy; [exact H |]. destruct (k s); [exact H | discriminate].
Qed.

(** A literal consumes a prefix that is the literal, letter case
    apart. *)
Lemma exec_lit (kw : string) :
  forall (s : string) (k : string -> option string) (x : string),
    Regex.exec (Regex.lit kw) s k = Some x ->
    exists pre rest,
      s = (pre ++ rest)%string /\ Js.toLowerCase pre = Js.toLowerCase kw /\
      k rest = Some x.
Proof.
  induction kw as [| c kw IH]; intros s k x H.
  - exists EmptyString, s. repeat split. exact H.
  - simpl in H. destruct s as [| b s']; [discriminate |].
    destruct (Ascii.eqb (Js.lowerChar b) (Js.lowerChar c)) eqn:Eb; [| discriminate].
    apply Ascii.eqb_eq in Eb.
    apply IH in H. destruct H as (pre & rest & -> & Hl & H).
    exists (String b pre), rest. split; [reflexivity |]. split; [| exact H].
    simpl. rewrite Eb, Hl. reflexivity.
Qed.

Lemma substring_prefix (p r : string) :
  String.substring 0 (String.length p) (p ++ r)%string = p.
Proof.
  induction p as [| c p IH]; simpl.
  - destruct r; reflexivity.
  - rewrite IH. reflexivity.
Qed.

(** The match of a pattern that starts with a literal. *)
Lemma matchAt_lit (kw : string) (r : Regex.re) (s : string) (n : nat) :
  Regex.matchAt (Regex.Seq (Regex.lit kw) r) s = Some n ->
  exists pre more rest,
    s = (pre ++ more ++ rest)%string /\ Js.toLowerCase pre = Js.toLowerCase kw /\
    String.substring 0 n s = (pre ++ more)%string.
Proof.
  unfold Regex.matchAt.
  destruct (Regex.exec (Regex.Seq (Regex.lit kw) r) s (fun rest => Some rest))
    as [x |] eqn:E; [| discriminate].
  intros Hn. injection Hn as <-.
  simpl in E. apply exec_lit in E. destruct E as (pre & s1 & -> & Hl & E).
  apply exec_suffix in E. destruct E as (more & rest & -> & E).
  injection E as ->.
  exists pre, more, x. split; [reflexivity |]. split; [exact Hl |].
  rewrite <- string_app_assoc.
  replace (String.length ((pre ++ more) ++ x)%string - String.length x)%nat
    with (String.length (pre ++ more)%string)
    by (rewrite (append_length (pre ++ more) x); lia).
  apply substring_prefix.
Qed.

(** Every match of a global search is the match of the pattern at some
    position of the text. *)
Lemma matchAllFrom_In (r : Regex.re) (s : string) :
  forall (skip : nat) (f : string),
    In f (Regex.matchAllFrom r skip s) ->
    exists before at_ n,
      s = (before ++ at_)%string /\ Regex.matchAt r at_ = Some n /\
      f = String.substring 0 n at_.
Proof.
  induction s as [| c s IH]; intros skip f H.
  - destruct skip as [| k]; simpl in H; [| destruct H].
    destruct (Regex.matchAt r "") as [n |] eqn:E; [| destruct H].
    destruct H as [<- | []]. exists EmptyString, EmptyString, n. repeat split. exact E.
  - assert (Tail : forall k, In f (Regex.matchAllFrom r k s) ->
              exists before at_ n,
                String c s = (before ++ at_)%string /\ Regex.matchAt r at_ = Some n /\
                f = String.substring 0 n at_).
    { intros k Hk. apply IH in Hk. destruct Hk as (before & at_ & n & -> & Hm & Hf).
      exists (String c before), at_, n. repeat split; assumption. }
    destruct skip as [| k]; cbn [Regex.matchAllFrom] in H; [| eapply Tail; exact H].
    destruct (Regex.matchAt r (String c s)) as [n |] eqn:E; [| eapply Tail; exact H].
    destruct H as [<- | H]; [| eapply Tail; exact H].
    exists EmptyString, (String c s), n. repeat split. exact E.
Qed.

(** Trimming leaves alone a prefix that has no white space. *)
Lemma trimEnd_prefix (pre more : string) :
  (forall c, In c (list_ascii_of_string pre) -> Js.isSpace c = false) ->
  Js.trimEnd (pre ++ more)%string = (pre ++ Js.trimEnd more)%string.
Proof.
  induction pre as [| c pre IH]; intros Hp; [reflexivity |].
  cbn [append Js.trimEnd]. rewrite IH by (intros b Hb; apply Hp; right; exact Hb).
  rewrite (Hp c) by (left; reflexivity).
  destruct (pre ++ Js.trimEnd more)%string; reflexivity.
Qed.

Lemma trimStart_prefix (c : ascii) (s : string) :
  Js.isSpace c = false -> Js.trimStart (String c s) = String c s.
Proof. intros H. simpl. rewrite H. reflexivity. Qed.

(** What trimming removes at the end. *)
Lemma trimEnd_split (s : string) : exists sp, s = (Js.trimEnd s ++ sp)%string.
Proof.
  induction s as [| c s (sp & IH)]; [exists EmptyString; reflexivity |].
  cbn [Js.trimEnd]. destruct (Js.trimEnd s) as [| d t] eqn:E.
  - destruct (Js.isSpace c).
    + exists (String c s). reflexivity.
    + exists sp. simpl. rewrite IH at 1. reflexivity.
  - exists sp. simpl. rewrite IH at 1. reflexivity.
Qed.

Lemma includes_app (a b sub : string) :
  Js.startsWith b sub = true -> Js.includes (a ++ b)%string sub = true.
Proof.
  intros H. induction a as [| c a IH].
  - destruct b; simpl in *; rewrite H; reflexivity.
  - cbn [append Js.includes]. rewrite IH. apply orb_true_r.
Qed.

Lemma lower_no_space (pre kw : string) :
  Js.toLowerCase pre = kw ->
  (forall c, In c (list_ascii_of_string kw) -> Js.isSpace c = false) ->
  forall c, In c (list_ascii_of_string pre) -> Js.isSpace c = false.
Proof.
  revert kw. induction pre as [| b pre IH]; intros kw E Hk c Hc; [destruct Hc |].
  simpl in E. subst kw. destruct Hc as [<- | Hc].
  - rewrite <- isSpace_lowerChar. apply Hk. left. reflexivity.
  - apply (IH _ eq_refl); [| exact Hc]. intros a Ha. apply Hk. right. exact Ha.
Qed.

(** The fragments of one pattern. *)
Lemma fragment_of_pattern (kw : string) (r : Regex.re) (content f : string) :
  Js.toLowerCase kw = kw ->
  kw <> EmptyString ->
  (forall c, In c (list_ascii_of_string kw) -> Js.isSpace c = false) ->
  In f (map Js.trim (Regex.matchAll (Regex.Seq (Regex.lit kw) r) content)) ->
  Js.includes content f = true /\
  Js.startsWith (Js.toLowerCase f) kw = true /\
  Js.includes (Js.toLowerCase content) kw = true.
Proof.
  intros Hl Hne Hk Hf. apply in_map_iff in Hf. destruct Hf as (m & <- & Hm).
  apply matchAllFrom_In in Hm. destruct Hm as (before & at_ & n & -> & Hm & ->).
  apply matchAt_lit in Hm. destruct Hm as (pre & more & rest & -> & Hp & ->).
  rewrite Hl in Hp.
  pose proof (@lower_no_space pre kw Hp Hk) as Hpre.
  assert (Ht : Js.trim (pre ++ more)%string = (pre ++ Js.trimEnd more)%string).
  { unfold Js.trim. destruct pre as [| c pre].
    - simpl in Hp. congruence.
    - cbn [append]. rewrite trimStart_prefix by (apply Hpre; left; reflexivity).
      apply (trimEnd_prefix (String c pre) more Hpre). }
  rewrite Ht. split; [| split].
  - destruct (trimEnd_split more) as (sp & Hs).
    remember (Js.trimEnd more) as t eqn:Et. clear Et Ht. subst more.
    replace (before ++ pre ++ (t ++ sp) ++ rest)%string
      with (before ++ (pre ++ t) ++ (sp ++ rest))%string
      by (rewrite !string_app_assoc; reflexivity).
    apply includes_app, startsWith_app.
  - rewrite toLowerCase_app, Hp. apply startsWith_app.
  - rewrite !toLowerCase_app, Hp. apply includes_app, startsWith_app.
Qed.

Lemma In_firstn {A} (n : nat) (l : list A) (x : A) : In x (firstn n l) -> In x l.
Proof.
  revert n. induction l as [| y l IH]; intros [| n]; simpl; try tauto.
  intros [-> | H]; [left; reflexivity | right; eapply IH; exact H].
Qed.

(** X19. What a code fragment is. Every fragment that
    [extractCodeBlocks] returns occurs as it is in the content, and
    begins with one of the six words of the patterns, letter case apart;
    so a content in which none of the six words occurs has no fragment,
    and [getCodeExamples] never reports its document. *)
Theorem extractCodeBlocks_keywords (content f : string) :
  In f (extractCodeBlocks content) ->
  Js.includes content f = true /\
  exists kw,
    In kw codeKeywords /\
    Js.startsWith (Js.toLowerCase f) kw = true /\
    Js.includes (Js.toLowerCase content) kw = true.
Proof.
  intros H. unfold extractCodeBlocks in H. rewrite slice_from_0 in H by lia.
  apply In_firstn in H. apply (proj1 (dedup_In _ _)) in H.
  cbn [fold_left Patterns.codePatterns app] in H.
  assert (P : forall kw r,
             In kw codeKeywords ->
             In f (map Js.trim (Regex.matchAll (Regex.Seq (Regex.lit kw) r) content)) ->
             Js.includes content f = true /\
             exists kw,
               In kw codeKeywords /\
               Js.startsWith (Js.toLowerCase f) kw = true /\
               Js.includes (Js.toLowerCase content) kw = true).
  { intros kw r Hkw Hf.
    assert (Hprops : Js.toLowerCase kw = kw /\ kw <> EmptyString /\
                     forall c, In c (list_ascii_of_string kw) -> Js.isSpace c = false).
    { unfold codeKeywords in Hkw. simpl in Hkw.
      repeat (destruct Hkw as [<- | Hkw];
              [split; [reflexivity |]; split; [discriminate |];
               intros c Hc; simpl in Hc;
               repeat (destruct Hc as [<- | Hc]; [reflexivity |]); destruct Hc |]).
      destruct Hkw. }
    destruct Hprops as (Hl & Hne & Hk).
    destruct (fragment_of_pattern r content f Hl Hne Hk Hf) as (H1 & H2 & H3).
    split; [exact H1 |]. exists kw. repeat split; assumption. }
  repeat (apply in_app_or in H; destruct H as [H | H]);
    (eapply P; [| exact H]; unfold codeKeywords; simpl; auto 10).
Qed.

Lemma extractCodeBlocks_keywords_witness :
  Js.includes "Run terragrunt plan now" "terragrunt plan now" = true /\
  exists kw,
    In kw codeKeywords /\
    Js.startsWith (Js.toLowerCase "terragrunt plan now") kw = true /\
    Js.includes (Js.toLowerCase "Run terragrunt plan now") kw = true.
Proof.
  apply extractCodeBlocks_keywords. vm_compute. left. reflexivity.
Defined.

(* ================================================================= *)
(** * Further properties of the retrieval operations *)

(** X20. The configuration reference lies within the search. For every
    name, the documents that [getHclConfigReference] returns belong to
    the reference section, and each of them is also returned by
    [searchDocs] for the same name on the same state; with the empty
    name it returns every document of the configuration reference. *)
Theorem getHclConfigReference_within_search
        (this : Ref) (config : string) (h : Heap) (w : World) :
  exists (docs : list TerragruntDoc) (h' : Heap) (w' : World)
         (found matches : list TerragruntDoc),
    run (fetchLatestDocs this) h w = (inr docs, h', w') /\
    run (getHclConfigReference this config) h w = (inr found, h', w') /\
    run (searchDocs this config) h w = (inr matches, h', w') /\
    Forall (fun d => section d = "reference"%string) found /\
    (forall d, In d found -> In d docs /\ In d matches) /\
    (config = ""%string -> found = filter isHclDoc docs).
Proof.
  destruct (fetchLatestDocs_total this h w) as (docs & h' & w' & E).
  set (q := Js.toLowerCase config).
  exists docs, h', w',
    (filter (fun d => lowerIncludes (title d) q || lowerIncludes (content d) q)
            (filter isHclDoc docs)),
    (Js.sort (searchCompare q) (filter (searchMatches q) docs)).
  split; [exact E |].
  split; [unfold getHclConfigReference; rewrite run_bind, E; reflexivity |].
  split; [unfold searchDocs; rewrite run_bind, E; reflexivity |].
  split; [| split].
  - apply Forall_forall. intros d Hd.
    apply filter_In in Hd. destruct Hd as [Hd _].
    apply filter_In in Hd. destruct Hd as [_ Hd].
    unfold isHclDoc in Hd. apply andb_true_iff in Hd. destruct Hd as [Hd _].
    apply String.eqb_eq. exact Hd.
  - intros d Hd. apply filter_In in Hd. destruct Hd as [Hd Hq].
    apply filter_In in Hd. destruct Hd as [Hd _].
    split; [exact Hd |]. apply sort_In. apply filter_In. split; [exact Hd |].
    unfold searchMatches. apply orb_true_iff in Hq.
    destruct Hq as [-> | ->]; [reflexivity |]. rewrite orb_true_r. reflexivity.
  - intros ->. apply filter_true. intros d.
    unfold q, lowerIncludes. cbn [Js.toLowerCase]. rewrite includes_empty. reflexivity.
Qed.

(* ================================================================= *)
(** * Further properties of the tool handler: the code examples *)

Lemma getCodeExamples_total (this : Ref) (topic : string) :
  Returns (getCodeExamples this topic).
Proof.
  apply returns_bind; [apply fetchLatestDocs_total | intros; apply returns_ret].
Qed.

(** The entries that the loop of [getCodeExamples] adds. *)
Lemma collectExamples_entries (docs : list TerragruntDoc) :
  (List.length (collectExamples [] docs) <= List.length docs)%nat /\
  Forall (fun r => (1 <= List.length (examples r) <= 5)%nat) (collectExamples [] docs).
Proof.
  rewrite collectExamples_spec. cbn [app]. split.
  - rewrite length_map. apply filter_length_le.
  - apply Forall_forall. intros r Hr.
    apply in_map_iff in Hr. destruct Hr as (d & <- & Hd).
    apply filter_In in Hd. destruct Hd as [_ Hne]. cbn [examples].
    destruct (extractCodeBlocks_capped (content d)) as [Hle _].
    split; [| exact Hle].
    destruct (extractCodeBlocks (content d)); [discriminate | simpl; lia].
Qed.

Lemma getCodeExamples_entries (this : Ref) (topic : string) (h : Heap) (w : World) :
  exists (results : list CodeExamples) (h' : Heap) (w' : World),
    run (getCodeExamples this topic) h w = (inr results, h', w') /\
    (List.length results <= 10)%nat /\
    Forall (fun r => (1 <= List.length (examples r) <= 5)%nat) results.
Proof.
  destruct (fetchLatestDocs_total this h w) as (docs & h' & w' & E).
  set (relevant := filter (topicMatches (Js.toLowerCase topic)) docs).
  exists (collectExamples [] (firstn 10 relevant)), h', w'.
  split.
  { unfold getCodeExamples. rewrite run_bind, E. cbn [run].
    fold relevant. rewrite slice_from_0 by lia. reflexivity. }
  destruct (collectExamples_entries (firstn 10 relevant)) as [Hlen Hall].
  split; [| exact Hall].
  eapply Nat.le_trans; [exact Hlen |]. rewrite length_firstn. apply Nat.le_min_l.
Qed.

(** X21. The page of code examples. For a call of the examples tool
    that passes the guard, with a limit that is not negative (the limit
    given, or 5 when none is given): at most ten documents are ever
    counted; when none has a fragment the tool returns its not-found
    object; otherwise it returns the entries of the first [limit]
    documents, in order, each with between one and five snippets and
    their count, and [hasMore] is true exactly when documents are left
    over. The bounds of the schema on the limit are not enforced. *)
Theorem toolGetCodeExamples_page
        (args : Args) (t : string) (limit : Z) (h : Heap) (w : World) :
  arg_topic args = Some t ->
  Js.truthy t = true ->
  limitOr5 (arg_limit args) = limit ->
  0 <= limit ->
  exists (results : list CodeExamples) (h' : Heap) (w' : World),
    run (getCodeExamples ToolDocs t) h w = (inr results, h', w') /\
    arrayLength results <= 10 /\
    (results = [] ->
     exists suggestion,
       run (executeTool "get_code_examples" (Some args)) h w
       = (inr (ExamplesNotFound t ("No code examples found for: " ++ t)%string suggestion),
          h', w')) /\
    (results <> [] ->
     exists (entries : list ExampleEntry) (hasMore : bool),
       run (executeTool "get_code_examples" (Some args)) h w
       = (inr (ExamplesResult t entries (arrayLength results) hasMore), h', w') /\
       map documentUrl entries
       = map (fun r => url (doc r)) (firstn (Z.to_nat limit) results) /\
       map codeSnippets entries = map examples (firstn (Z.to_nat limit) results) /\
       arrayLength entries = Z.min limit (arrayLength results) /\
       (hasMore = true <-> arrayLength entries < arrayLength results) /\
       Forall (fun e => snippetCount e = arrayLength (codeSnippets e) /\
                        1 <= snippetCount e <= 5) entries).
Proof.
  intros Ha Ht Hl Hpos.
  destruct (getCodeExamples_entries ToolDocs t h w) as (results & h' & w' & E & Hlen & Hall).
  exists results, h', w'. split; [exact E |].
  split; [unfold arrayLength; lia |].
  assert (Hrun : run (executeTool "get_code_examples" (Some args)) h w
                 = run (toolGetCodeExamples t limit) h w).
  { unfold executeTool.
    replace (String.eqb "get_code_examples" "search_terragrunt_docs") with false by reflexivity.
    replace (String.eqb "get_code_examples" "get_terragrunt_sections") with false by reflexivity.
    replace (String.eqb "get_code_examples" "get_section_docs") with false by reflexivity.
    replace (String.eqb "get_code_examples" "get_cli_command_help") with false by reflexivity.
    replace (String.eqb "get_code_examples" "get_hcl_config_reference") with false by reflexivity.
    replace (String.eqb "get_code_examples" "get_code_examples") with true by reflexivity.
    cbn [prop]. rewrite Ha, Hl. unfold truthyArg. rewrite Ht.
    rewrite run_tryCatch.
    destruct (getCodeExamples_total ToolDocs t h w) as (r0 & h0 & w0 & E0).
    unfold toolGetCodeExamples. rewrite run_bind, E0.
    destruct (arrayLength r0 =? 0); reflexivity. }
  rewrite Hrun. unfold toolGetCodeExamples. rewrite run_bind, E. split.
  - intros ->. eexists. reflexivity.
  - intros Hne.
    replace (arrayLength results =? 0) with false
      by (symmetry; apply Z.eqb_neq; unfold arrayLength;
          destruct results; [congruence | simpl; lia]).
    rewrite slice_from_0 by exact Hpos.
    eexists _, _. split; [reflexivity |].
    split; [rewrite map_map; reflexivity |].
    split; [rewrite map_map; reflexivity |].
    split; [unfold arrayLength; rewrite length_map, length_firstn; lia |].
    split.
    + unfold arrayLength. rewrite length_map, length_firstn.
      destruct (Z.gtb_spec (Z.of_nat (List.length results)) limit); split; intros; lia || congruence.
    + apply Forall_forall. intros e He.
      apply in_map_iff in He. destruct He as (r & <- & Hr).
      apply In_firstn in Hr. cbn [snippetCount codeSnippets].
      split; [reflexivity |].
      pose proof (proj1 (Forall_forall _ _) Hall r Hr) as Hb. cbv beta in Hb.
      unfold arrayLength. lia.
Qed.

Lemma toolGetCodeExamples_page_witness :
  let args := {| arg_query := None; arg_limit := Some 3;
                 arg_section := None; arg_command := None;
                 arg_config := None; arg_topic := Some "dependency"%string |} in
  let h := Sample.warm SampleExamples.corpus 0 in
  let w := Sample.offline Sample.hour Sample.noSnapshot in
  exists (results : list CodeExamples) (h' : Heap) (w' : World),
    run (getCodeExamples ToolDocs "dependency") h w = (inr results, h', w') /\
    arrayLength results <= 10 /\
    (results = [] ->
     exists suggestion,
       run (executeTool "get_code_examples" (Some args)) h w
       = (inr (ExamplesNotFound "dependency"
                 ("No code examples found for: " ++ "dependency")%string suggestion),
          h', w')) /\
    (results <> [] ->
     exists (entries : list ExampleEntry) (hasMore : bool),
       run (executeTool "get_code_examples" (Some args)) h w
       = (inr (ExamplesResult "dependency" entries (arrayLength results) hasMore), h', w') /\
       map documentUrl entries
       = map (fun r => url (doc r)) (firstn (Z.to_nat 3) results) /\
       map codeSnippets entries = map examples (firstn (Z.to_nat 3) results) /\
       arrayLength entries = Z.min 3 (arrayLength results) /\
       (hasMore = true <-> arrayLength entries < arrayLength results) /\
       Forall (fun e => snippetCount e = arrayLength (codeSnippets e) /\
                        1 <= snippetCount e <= 5) entries).
Proof.
  intros args h w.
  apply (@toolGetCodeExamples_page args "dependency" 3 h w); try reflexivity.
  lia.
Defined.

(* ================================================================= *)
(** * Further properties of the corpus source *)

Lemma includes_cons_false (c : ascii) (s sub : string) :
  Js.includes (String c s) sub = false -> Js.includes s sub = false.
Proof.
  cbn [Js.includes]. intros H. apply orb_false_iff in H. apply H.
Qed.

Lemma split_no_sep (s : string) :
  Js.includes s "/" = false -> Js.split "/" s = [s].
Proof.
  induction s as [| c s IH]; intros H; [reflexivity |].
  cbn [Js.split]. rewrite IH by (eapply includes_cons_false; exact H).
  destruct (Ascii.eqb c "/") eqn:E; [| reflexivity].
  apply Ascii.eqb_eq in E. subst c. destruct s; discriminate.
Qed.

Lemma split_app (a b : string) :
  Js.includes a "/" = false ->
  Js.split "/" (a ++ String "/" b)%string = a :: Js.split "/" b.
Proof.
  induction a as [| c a IH]; intros H; [reflexivity |].
  cbn [append Js.split]. rewrite IH by (eapply includes_cons_false; exact H).
  destruct (Ascii.eqb c "/") eqn:E; [| reflexivity].
  apply Ascii.eqb_eq in E. subst c. destruct a; discriminate.
Qed.

(** No part of a split holds the separator. *)
Lemma split_parts (s : string) :
  Forall (fun p => Js.includes p "/" = false) (Js.split "/" s).
Proof.
  induction s as [| c s IH]; [repeat constructor |].
  cbn [Js.split]. destruct (Ascii.eqb c "/") eqn:E.
  - constructor; [reflexivity | exact IH].
  - assert (Hc : Ascii.eqb "/" c = false) by (rewrite Ascii.eqb_sym; exact E).
    destruct (Js.split "/" s) as [| p ps].
    + constructor; [| constructor].
      cbn [Js.includes Js.startsWith]. rewrite Hc. reflexivity.
    + inversion IH as [| ? ? Hp Hps]; subst. constructor; [| exact Hps].
      cbn [Js.includes Js.startsWith]. rewrite Hc, Hp. reflexivity.
Qed.

Lemma extractSection_docs (tail : string) :
  extractSection ("/docs/" ++ tail) =
  match filter Js.truthy (Js.split "/" tail) with
  | s :: _ => s
  | [] => "general"%string
  end.
Proof.
  unfold extractSection.
  change ("/docs/" ++ tail)%string with ("" ++ String "/" ("docs" ++ String "/" tail))%string.
  rewrite split_app by reflexivity. rewrite split_app by reflexivity.
  reflexivity.
Qed.

(** X22. The section of a link. [extractSection] never returns the
    empty string nor a text that holds a slash; for a link that starts
    with [/docs/] it returns the path segment that follows, whatever
    comes after that segment, and [general] when nothing follows. A
    segment is taken as it is: a fragment or a query that follows
    [/docs/] directly becomes the section. *)
Theorem extractSection_segment (href : string) :
  Js.truthy (extractSection href) = true /\
  Js.includes (extractSection href) "/" = false /\
  (href = "/docs/"%string -> extractSection href = "general"%string) /\
  (forall sec rest,
     Js.truthy sec = true -> Js.includes sec "/" = false ->
     href = ("/docs/" ++ sec)%string \/ href = ("/docs/" ++ sec ++ String "/" rest)%string ->
     extractSection href = sec).
Proof.
  assert (Shape : Js.truthy (extractSection href) = true /\
                  Js.includes (extractSection href) "/" = false).
  { unfold extractSection.
    assert (Hall : Forall (fun p => Js.truthy p = true /\ Js.includes p "/" = false)
                     (filter Js.truthy (Js.split "/" href))).
    { apply Forall_forall. intros p Hp. apply filter_In in Hp. destruct Hp as [Hp Ht].
      split; [exact Ht |].
      exact (proj1 (Forall_forall _ _) (split_parts href) p Hp). }
    destruct (filter Js.truthy (Js.split "/" href)) as [| a [| b l]];
      try (split; reflexivity).
    inversion Hall as [| ? ? _ Hl]; subst. inversion Hl as [| ? ? Hb _]; subst.
    exact Hb. }
  destruct Shape as [S1 S2]. split; [exact S1 |]. split; [exact S2 |]. split.
  - intros ->. reflexivity.
  - intros sec rest Ht Hs [-> | ->]; rewrite extractSection_docs.
    + rewrite split_no_sep by exact Hs. cbn [filter]. rewrite Ht. reflexivity.
    + rewrite split_app by exact Hs. cbn [filter]. rewrite Ht. reflexivity.
Qed.

(* ================================================================= *)
(** * Further properties of the corpus source: the text of a page *)

(** ** White space at the ends *)

Lemma trimStart_head (s : string) :
  match Js.trimStart s with
  | EmptyString => True
  | String d _ => Js.isSpace d = false
  end.
Proof.
  induction s as [| c s IH]; simpl; [exact I |].
  destruct (Js.isSpace c) eqn:E; [exact IH | exact E].
Qed.

Lemma trimStart_split (s : string) : exists sp, s = (sp ++ Js.trimStart s)%string.
Proof.
  induction s as [| c s (sp & IH)]; [exists EmptyString; reflexivity |].
  simpl. destruct (Js.isSpace c).
  - exists (String c sp). simpl. rewrite <- IH. reflexivity.
  - exists EmptyString. reflexivity.
Qed.

Lemma trimStart_length (s : string) :
  (String.length (Js.trimStart s) <= String.length s)%nat.
Proof.
  induction s as [| c s IH]; simpl; [lia |].
  destruct (Js.isSpace c); simpl; lia.
Qed.

Lemma trimEnd_idem (s : string) : Js.trimEnd (Js.trimEnd s) = Js.trimEnd s.
Proof.
  induction s as [| c s IH]; [reflexivity |].
  cbn [Js.trimEnd]. destruct (Js.trimEnd s) as [| e t] eqn:E.
  - destruct (Js.isSpace c) eqn:Ec; [reflexivity |].
    cbn [Js.trimEnd]. rewrite Ec. reflexivity.
  - cbn [Js.trimEnd] in IH |- *.
    destruct (Js.trimEnd t) as [| e' t'] eqn:Et.
    + destruct (Js.isSpace e); [discriminate |]. rewrite IH. reflexivity.
    + rewrite IH. reflexivity.
Qed.

Lemma trimEnd_cons (d : ascii) (s : string) :
  Js.isSpace d = false -> Js.trimEnd (String d s) = String d (Js.trimEnd s).
Proof.
  intros H. apply (trimEnd_prefix (String d EmptyString) s).
  intros c [<- | []]. exact H.
Qed.

Lemma trim_idem (s : string) : Js.trim (Js.trim s) = Js.trim s.
Proof.
  unfold Js.trim. pose proof (trimStart_head s) as H.
  destruct (Js.trimStart s) as [| d u]; [reflexivity |].
  rewrite (@trimEnd_cons d u H). rewrite (@trimStart_prefix d _ H).
  rewrite (@trimEnd_cons d _ H), trimEnd_idem. reflexivity.
Qed.

Lemma In_app_string (c : ascii) (a b : string) :
  In c (list_ascii_of_string (a ++ b)%string) <->
  In c (list_ascii_of_string a) \/ In c (list_ascii_of_string b).
Proof.
  induction a as [| x a IH]; simpl; [tauto | rewrite IH; tauto].
Qed.

Lemma startsWith_weaken (a b x : string) :
  Js.startsWith a x = true -> Js.startsWith (a ++ b)%string x = true.
Proof.
  revert a. induction x as [| c x IH]; intros a H;
    [destruct (a ++ b)%string; reflexivity |].
  destruct a as [| d a]; simpl in H; [discriminate |].
  apply andb_true_iff in H. destruct H as [H1 H2].
  cbn [append Js.startsWith]. rewrite H1, (IH a H2). reflexivity.
Qed.

Lemma includes_prefix (a b x : string) :
  Js.includes (a ++ b)%string x = false -> Js.includes a x = false.
Proof.
  induction a as [| c a IH]; intros H.
  - cbn [Js.includes]. rewrite orb_false_r.
    destruct (Js.startsWith "" x) eqn:E; [| reflexivity].
    rewrite <- H. symmetry.
    destruct b; cbn [append Js.includes]; rewrite ?orb_false_r;
      change (Js.startsWith "" x) with (Js.startsWith ("" ++ "") x) in E.
    + exact E.
    + apply orb_true_iff. left. apply (startsWith_weaken "" (String a b) x E).
  - cbn [append Js.includes] in H |- *. apply orb_false_iff in H. destruct H as [H1 H2].
    rewrite (IH H2), orb_false_r.
    destruct (Js.startsWith (String c a) x) eqn:E; [| reflexivity].
    rewrite <- H1. symmetry. apply (startsWith_weaken (String c a) b x E).
Qed.

Lemma includes_suffix (a b x : string) :
  Js.includes (a ++ b)%string x = false -> Js.includes b x = false.
Proof.
  induction a as [| c a IH]; intros H; [exact H |].
  apply IH. eapply includes_cons_false. exact H.
Qed.

(** ** The three replacements *)

(** Greedy white space takes all the white space there is. *)
Lemma exec_star_space (s : string) :
  Regex.exec (Regex.Star true Regex.space) s (fun rest => Some rest)
  = Some (Js.trimStart s).
Proof.
  simpl. remember (String.length s) as n eqn:Hn.
  assert (Hle : (String.length s <= n)%nat) by lia. clear Hn.
  revert s Hle. induction n as [| n IH]; intros s Hle.
  - destruct s; [reflexivity | simpl in Hle; lia].
  - destruct s as [| c t]; [reflexivity |].
    cbn [Regex.exec Regex.space Js.trimStart]. destruct (Js.isSpace c); [| reflexivity].
    replace (String.length t <? String.length (String c t))%nat with true
      by (symmetry; apply Nat.ltb_lt; simpl; lia).
    rewrite IH by (simpl in Hle; lia). reflexivity.
Qed.

Lemma matchAt_spaces (c : ascii) (s : string) :
  Regex.matchAt (Regex.Plus true Regex.space) (String c s)
  = if Js.isSpace c
    then Some (S (String.length s - String.length (Js.trimStart s)))
    else None.
Proof.
  unfold Regex.matchAt, Regex.Plus.
  change (Regex.exec (Regex.Seq Regex.space (Regex.Star true Regex.space)) (String c s)
            (fun rest => Some rest))
    with (if Js.isSpace c
          then Regex.exec (Regex.Star true Regex.space) s (fun rest => Some rest)
          else None).
  destruct (Js.isSpace c); [| reflexivity].
  rewrite exec_star_space. pose proof (trimStart_length s).
  f_equal. simpl String.length. lia.
Qed.

Lemma replaceFrom_skip (r : Regex.re) (by_ s : string) :
  Regex.replaceFrom r by_ (String.length s - String.length (Js.trimStart s)) s
  = Regex.replaceFrom r by_ 0 (Js.trimStart s).
Proof.
  induction s as [| d t IH]; [reflexivity |].
  cbn [Js.trimStart]. destruct (Js.isSpace d).
  - pose proof (trimStart_length t).
    replace (String.length (String d t) - String.length (Js.trimStart t))%nat
      with (S (String.length t - String.length (Js.trimStart t)))
      by (simpl String.length; lia).
    exact IH.
  - rewrite Nat.sub_diag. reflexivity.
Qed.

(** The first replacement, one character at a time: a run of white
    space becomes one space. *)
Lemma collapse_cons (c : ascii) (s : string) :
  Regex.replaceAll (Regex.Plus true Regex.space) " " (String c s)
  = if Js.isSpace c
    then String " " (Regex.replaceAll (Regex.Plus true Regex.space) " " (Js.trimStart s))
    else String c (Regex.replaceAll (Regex.Plus true Regex.space) " " s).
Proof.
  unfold Regex.replaceAll. cbn [Regex.replaceFrom]. rewrite matchAt_spaces.
  destruct (Js.isSpace c); [| reflexivity].
  rewrite replaceFrom_skip. reflexivity.
Qed.

(** A pattern that starts with a character that the text does not hold
    replaces nothing. *)
Lemma replaceAll_absent (p : ascii -> bool) (r : Regex.re) (by_ s : string) :
  (forall c, In c (list_ascii_of_string s) -> p c = false) ->
  Regex.replaceAll (Regex.Seq (Regex.Chr p) r) by_ s = s.
Proof.
  unfold Regex.replaceAll. induction s as [| c s IH]; intros H; [reflexivity |].
  cbn [Regex.replaceFrom]. unfold Regex.matchAt. cbn [Regex.exec].
  rewrite (H c) by (left; reflexivity).
  rewrite IH by (intros b Hb; apply H; right; exact Hb). reflexivity.
Qed.

(** ** Single-spaced texts *)

Lemma collapse_shape :
  forall (n : nat) (s : string),
    (String.length s <= n)%nat ->
    let t := Regex.replaceAll (Regex.Plus true Regex.space) " " s in
    (forall c, In c (list_ascii_of_string t) -> Js.isSpace c = true -> c = " "%char) /\
    Js.includes t "  " = false /\
    match s with
    | EmptyString => t = EmptyString
    | String c _ => Js.isSpace c = false -> exists t', t = String c t'
    end.
Proof.
  induction n as [| n IH]; intros s Hle.
  - destruct s; [| simpl in Hle; lia]. repeat split. intros c [].
  - destruct s as [| c s]; [repeat split; intros c [] |].
    cbn zeta. rewrite collapse_cons. destruct (Js.isSpace c) eqn:Ec.
    + pose proof (trimStart_length s) as Hl. pose proof (trimStart_head s) as Hh.
      destruct (IH (Js.trimStart s)) as (P1 & P2 & P3); [simpl in Hle; lia |].
      cbv zeta in P1, P2, P3. split; [| split].
      * intros b [<- | Hb] Hs; [reflexivity | exact (P1 b Hb Hs)].
      * cbn [Js.includes]. rewrite P2, orb_false_r.
        destruct (Js.trimStart s) as [| d u].
        -- rewrite P3. reflexivity.
        -- destruct (P3 Hh) as (t' & ->). cbn [Js.startsWith].
           replace (Ascii.eqb " " d) with false; [reflexivity |].
           symmetry. apply Ascii.eqb_neq. intros <-. discriminate.
      * discriminate.
    + destruct (IH s) as (P1 & P2 & _); [simpl in Hle; lia |].
      cbv zeta in P1, P2. split; [| split].
      * intros b [<- | Hb] Hs; [congruence | exact (P1 b Hb Hs)].
      * cbn [Js.includes Js.startsWith]. rewrite P2, orb_false_r.
        replace (Ascii.eqb " " c) with false; [reflexivity |].
        symmetry. apply Ascii.eqb_neq. intros <-. discriminate.
      * intros _. eexists. reflexivity.
Qed.

(** On a single-spaced text the first replacement changes nothing. *)
Lemma collapse_fixed (t : string) :
  (forall c, In c (list_ascii_of_string t) -> Js.isSpace c = true -> c = " "%char) ->
  Js.includes t "  " = false ->
  Regex.replaceAll (Regex.Plus true Regex.space) " " t = t.
Proof.
  induction t as [| c t IH]; intros P1 P2; [reflexivity |].
  assert (P1' : forall b, In b (list_ascii_of_string t) -> Js.isSpace b = true -> b = " "%char)
    by (intros b Hb; apply P1; right; exact Hb).
  pose proof (includes_cons_false _ _ _ P2) as P2'.
  rewrite collapse_cons. destruct (Js.isSpace c) eqn:Ec.
  - rewrite (P1 c) by (try (left; reflexivity); exact Ec).
    assert (Hc : c = " "%char) by (apply P1; [left; reflexivity | exact Ec]). subst c.
    assert (Ht : Js.trimStart t = t).
    { destruct t as [| d u]; [reflexivity |].
      destruct (Js.isSpace d) eqn:Ed; [| apply trimStart_prefix; exact Ed].
      assert (d = " "%char) by (apply P1'; [left; reflexivity | exact Ed]). subst d.
      cbn [Js.includes Js.startsWith] in P2. destruct u; discriminate. }
    rewrite Ht, IH by assumption. reflexivity.
  - rewrite IH by assumption. reflexivity.
Qed.

(** On a text without line break and without tab, the second and the
    third replacement change nothing. *)
Lemma later_replacements (t : string) :
  (forall c, In c (list_ascii_of_string t) -> Js.isSpace c = true -> c = " "%char) ->
  Js.trim
    (Regex.replaceAll (Regex.Plus true (Regex.chr Regex.tab)) " "
       (Regex.replaceAll
          (Regex.Seq (Regex.chr Regex.newline)
             (Regex.Seq (Regex.Star true Regex.space) (Regex.chr Regex.newline)))
          (String Regex.newline EmptyString) t))
  = Js.trim t.
Proof.
  intros P1. unfold Regex.Plus, Regex.chr.
  rewrite (@replaceAll_absent (Ascii.eqb Regex.newline)).
  - rewrite (@replaceAll_absent (Ascii.eqb Regex.tab)); [reflexivity |].
    intros c Hc. destruct (Ascii.eqb Regex.tab c) eqn:E; [| reflexivity].
    apply Ascii.eqb_eq in E. subst c.
    assert (Regex.tab = " "%char) by (apply (P1 _ Hc); reflexivity). discriminate.
  - intros c Hc. destruct (Ascii.eqb Regex.newline c) eqn:E; [| reflexivity].
    apply Ascii.eqb_eq in E. subst c.
    assert (Regex.newline = " "%char) by (apply (P1 _ Hc); reflexivity). discriminate.
Qed.

(** X23. The text of a page is single-spaced. Whatever the content,
    the result of [cleanContent] holds no white space other than the
    space character, never two spaces in a row, and no space at either
    end: every run of white space, line breaks included, has become one
    space. The second and the third replacement of the method never
    change anything, for the first one leaves no line break and no
    tab. Cleaning a cleaned text gives it back. *)
Theorem cleanContent_single_spaced (content : string) :
  let r := cleanContent content in
  r = Js.trim (Regex.replaceAll (Regex.Plus true Regex.space) " " content) /\
  (forall c, In c (list_ascii_of_string r) -> Js.isSpace c = true -> c = " "%char) /\
  Js.includes r "  " = false /\
  Js.trim r = r /\
  cleanContent r = r.
Proof.
  assert (Noop : forall t,
            (forall c, In c (list_ascii_of_string t) -> Js.isSpace c = true -> c = " "%char) ->
            Js.includes t "  " = false ->
            cleanContent t = Js.trim t).
  { intros t P1 P2. unfold cleanContent. cbv zeta.
    rewrite collapse_fixed by assumption. apply later_replacements. exact P1. }
  set (t := Regex.replaceAll (Regex.Plus true Regex.space) " " content).
  destruct (@collapse_shape _ content (Nat.le_refl (String.length content)))
    as (P1 & P2 & _).
  cbv zeta in P1, P2. fold t in P1, P2.
  assert (E : cleanContent content = Js.trim t).
  { unfold cleanContent. cbv zeta. fold t. apply later_replacements. exact P1. }
  cbv zeta. rewrite E.
  destruct (trimStart_split t) as (sp1 & H1).
  destruct (trimEnd_split (Js.trimStart t)) as (sp2 & H2).
  fold (Js.trim t) in H2.
  assert (Q1 : forall c, In c (list_ascii_of_string (Js.trim t)) ->
                         Js.isSpace c = true -> c = " "%char).
  { intros c Hc. apply P1. rewrite H1. apply In_app_string. right.
    rewrite H2. apply In_app_string. left. exact Hc. }
  assert (Q2 : Js.includes (Js.trim t) "  " = false).
  { apply (includes_prefix _ sp2). rewrite <- H2.
    apply (includes_suffix sp1). rewrite <- H1. exact P2. }
  split; [reflexivity |]. split; [exact Q1 |]. split; [exact Q2 |].
  split; [apply trim_idem |].
  rewrite (Noop _ Q1 Q2). apply trim_idem.
Qed.

(* ================================================================= *)
(** * Properties of the request handlers *)

Section ServerProperties.

Variable stringify : ToolResult -> string.
Variable isWellFormed : string -> bool.
Variable encodeURIComponent : string -> string.
Variable decodeURIComponent : string -> option string.
Variable toISOString : Z -> string.

Lemma executeTool_total (name : string) (args : option Args) :
  Returns (executeTool name args).
Proof. apply returns_tryCatch. intros e. apply returns_ret. Qed.

Lemma getResource_total (uri : string) :
  Returns (getResource decodeURIComponent toISOString uri).
Proof.
  unfold getResource. apply returns_bind; [| intros; apply returns_ret].
  apply returns_tryCatch. intros e. apply returns_ret.
Qed.

(** X24. The handlers of the server never take their [catch] branch.
    A tool call is answered with the text of the object that
    [executeTool] returned and never with [isError] set, also when that
    object is an error object; the resource list is the list of
    [listResources], which is never empty; a resource read is answered
    with the text that [getResource] returned, its type dropped. *)
Theorem handlers_never_catch (name uri : string) (args : option Args)
        (h : Heap) (w : World) :
  (exists result h' w',
     run (executeTool name args) h w = (inr result, h', w') /\
     run (callToolHandler stringify name args) h w
     = (inr {| ctr_text := stringify result; ctr_isError := false |}, h', w')) /\
  (exists resources h' w',
     run (listResources isWellFormed encodeURIComponent) h w = (inr resources, h', w') /\
     run (listResourcesHandler isWellFormed encodeURIComponent) h w
     = (inr resources, h', w') /\
     resources <> []) /\
  (exists resource h' w',
     run (getResource decodeURIComponent toISOString uri) h w = (inr resource, h', w') /\
     run (readResourceHandler decodeURIComponent toISOString uri) h w
     = (inr (rc_text resource), h', w')).
Proof.
  split; [| split].
  - destruct (executeTool_total name args h w) as (result & h' & w' & E).
    exists result, h', w'. split; [exact E |].
    unfold callToolHandler. rewrite run_tryCatch, run_bind, E. reflexivity.
  - destruct (listResources_run isWellFormed encodeURIComponent h w)
      as (docs & sections & h1 & w1 & h' & w' & _ & _ & E).
    eexists _, h', w'. split; [exact E |]. split.
    + unfold listResourcesHandler. rewrite run_tryCatch, E. reflexivity.
    + destruct (pushPages isWellFormed encodeURIComponent _ (firstn 50 docs))
        as [resources | resources]; [| discriminate].
      destruct resources; discriminate.
  - destruct (getResource_total uri h w) as (resource & h' & w' & E).
    exists resource, h', w'. split; [exact E |].
    unfold readResourceHandler. rewrite run_tryCatch, run_bind, E. reflexivity.
Qed.

End ServerProperties.

(* ================================================================= *)
(** * Further properties of the cache engine: failures *)

(** X25. The two writes of a snapshot are not one. When the disk
    refuses the documents but accepts the metadata, [saveCacheToDisk]
    returns as if nothing had happened, at the refusal: the documents
    on disk are the old ones, and the write of the new metadata is left
    in flight. Once that write has landed, the new metadata lies beside
    the old documents, and a manager that loads the snapshot takes the
    old documents for a corpus fetched at the new time. *)
Theorem saveCacheToDisk_not_atomic
        (this that : Ref) (h : Heap) (w : World) (t : Z) (old : list TerragruntDoc) :
  lastFetchTime (h this) = Some (Some t) ->
  canWrite w CacheFile = false ->
  canWrite w MetadataFile = true ->
  disk w CacheFile = Holds (Json (JDocs (map Some old))) ->
  inflight w = [] ->
  clock w + 5 * latency w - t <= cacheExpiry ->
  let metadata :=
    Json (JMetadata {| meta_lastFetchTime := Some t;
                       docsCount := Z.of_nat (List.length (docsCache (h this))) |}) in
  exists (w1 : World) (h2 : Heap) (w2 : World),
    run (saveCacheToDisk this) h w = (inr tt, h, w1) /\
    disk w1 CacheFile = disk w CacheFile /\
    inflight w1 = [(MetadataFile, metadata)] /\
    disk (landWrites w1) CacheFile = disk w CacheFile /\
    disk (landWrites w1) MetadataFile = Holds metadata /\
    run (loadCacheFromDisk that) h (landWrites w1) = (inr true, h2, w2) /\
    h2 that = {| docsCache := cacheOf old; lastFetchTime := Some (Some t) |}.
Proof.
  intros Ht Hc Hm Hold Hin Hage metadata.
  assert (Save : exists w1,
             run (saveCacheToDisk this) h w = (inr tt, h, w1) /\
             disk w1 = disk w /\
             inflight w1 = [(MetadataFile, metadata)] /\
             clock w1 = clock w + 2 * latency w /\ latency w1 = latency w).
  { unfold saveCacheToDisk, ensureCacheDir.
    rewrite run_tryCatch, run_bind, run_tryCatch.
    cbn [run await perform].
    eexists. split.
    - destruct (canMkdir w);
        cbn [run bind load await perform tick canWrite canMkdir]; rewrite Ht;
        cbn [run bind load await perform tick canWrite canMkdir];
        rewrite Hc, Hm; reflexivity.
    - cbn [disk inflight clock latency tick leaveInFlight]. rewrite Hin.
      unfold metadata, JsMap.values. rewrite length_map.
      repeat split; try reflexivity. lia. }
  destruct Save as (w1 & Es & Hd1 & Hi1 & Hclock & Hlat).
  assert (Hl1 : disk (landWrites w1) CacheFile = disk w CacheFile)
    by (unfold landWrites; rewrite Hi1, Hd1; reflexivity).
  assert (Hl2 : disk (landWrites w1) MetadataFile = Holds metadata)
    by (unfold landWrites; rewrite Hi1; reflexivity).
  assert (Hv : ValidSnapshot (landWrites w1) old (Some t)).
  { split; [rewrite Hl1; exact Hold |]. eexists. split; [exact Hl2 | reflexivity]. }
  assert (Hf : numGt (elapsedSince (clock (landWrites w1) + 3 * latency (landWrites w1))
                        (Some t)) cacheExpiry = false).
  { replace (clock (landWrites w1)) with (clock w1)
      by (unfold landWrites; rewrite Hi1; reflexivity).
    replace (latency (landWrites w1)) with (latency w1)
      by (unfold landWrites; rewrite Hi1; reflexivity).
    cbn [elapsedSince option_map numGt]. apply Z.ltb_ge. rewrite Hclock, Hlat. lia. }
  destruct (@loadCacheFromDisk_valid that h (landWrites w1) old (Some t) Hv Hf)
    as (h2 & w2 & El & Hs & _).
  exists w1, h2, w2.
  split; [exact Es |]. split; [rewrite Hd1; reflexivity |]. split; [exact Hi1 |].
  split; [exact Hl1 |]. split; [exact Hl2 |].
  split; [exact El | exact Hs].
Qed.

Lemma saveCacheToDisk_not_atomic_witness :
  let w := {| clock := Sample.hour; latency := 0;
              disk := Sample.snapshot [Sample.overview] 0;
              canMkdir := true;
              canWrite := fun f => match f with CacheFile => false | MetadataFile => true end;
              net := fun _ => None; requests := []; inflight := [] |} in
  let h := Sample.warm [Sample.quickStart] Sample.hour in
  let metadata :=
    Json (JMetadata {| meta_lastFetchTime := Some Sample.hour;
                       docsCount :=
                         Z.of_nat (List.length (docsCache (h ResourceDocs))) |}) in
  exists (w1 : World) (h2 : Heap) (w2 : World),
    run (saveCacheToDisk ResourceDocs) h w = (inr tt, h, w1) /\
    disk w1 CacheFile = disk w CacheFile /\
    inflight w1 = [(MetadataFile, metadata)] /\
    disk (landWrites w1) CacheFile = disk w CacheFile /\
    disk (landWrites w1) MetadataFile = Holds metadata /\
    run (loadCacheFromDisk ToolDocs) h (landWrites w1) = (inr true, h2, w2) /\
    h2 ToolDocs = {| docsCache := cacheOf [Sample.overview];
                     lastFetchTime := Some (Some Sample.hour) |}.
Proof.
  intros w h.
  apply (@saveCacheToDisk_not_atomic ResourceDocs ToolDocs h w Sample.hour [Sample.overview]).
  - reflexivity.
  - reflexivity.
  - reflexivity.
  - reflexivity.
  - reflexivity.
  - vm_compute. discriminate.
Defined.

(** X26. The corpus in memory outlives the source. When the request
    for the index fails, a manager that holds documents returns them,
    however old they are, and keeps its state, fetch time included: a
    stale corpus is asked for again at every call, with one request,
    and a corpus that is not stale with none. *)
Theorem fetchLatestDocs_source_down (this : Ref) (h : Heap) (w : World) :
  docsCache (h this) <> [] ->
  net w indexUrl = None ->
  let stale := match lastFetchTime (h this) with
               | None => true
               | Some d => numGt (elapsedSince (clock w) d) cacheExpiry
               end in
  run (fetchLatestDocs this) h w
  = (inr (JsMap.values (docsCache (h this))), h,
     if stale then tick (logRequest indexUrl w) else w).
Proof.
  intros Hne Hn stale. unfold fetchLatestDocs.
  rewrite run_bind, run_load, size_nonempty by exact Hne.
  rewrite run_bind. cbn [run]. rewrite run_bind, run_shouldRefreshCache.
  fold stale. destruct stale.
  - rewrite run_bind, refreshDocsCache_source_down by exact Hn. apply run_cacheValues.
  - rewrite run_bind. cbn [run]. apply run_cacheValues.
Qed.

Lemma fetchLatestDocs_source_down_witness :
  let h := Sample.warm [Sample.overview] 0 in
  let w := Sample.offline (100 * Sample.hour) Sample.noSnapshot in
  let stale := match lastFetchTime (h ResourceDocs) with
               | None => true
               | Some d => numGt (elapsedSince (clock w) d) cacheExpiry
               end in
  run (fetchLatestDocs ResourceDocs) h w
  = (inr (JsMap.values (docsCache (h ResourceDocs))), h,
     if stale then tick (logRequest indexUrl w) else w).
Proof.
  intros h w.
  apply (@fetchLatestDocs_source_down ResourceDocs h w).
  - simpl. discriminate.
  - reflexivity.
Defined.

Lemma perform_net {R} (op : IO R) (w : World) : net (snd (perform op w)) = net w.
Proof.
  destruct op; simpl; try reflexivity.
  - destruct (canWrite w f); reflexivity.
  - destruct (canWrite w f1), (canWrite w f2); reflexivity.
Qed.

(** No call changes what the network answers. *)
Lemma run_net {A} (m : Async A) (h : Heap) (w : World) :
  net (snd (run m h w)) = net w.
Proof.
  revert h w.
  induction m as [a | e | o k IH | o s k IH | k IH | R op k IH];
    intros h w; simpl; try reflexivity; try apply IH.
  pose proof (perform_net op w) as P.
  destruct (perform op w) as [r w']. simpl in P. rewrite <- P. apply IH.
Qed.

(** A page that is not answered with a success status gives no
    document. *)
Lemma fetchDocumentPage_refused (page : Page) (h : Heap) (w : World) :
  (forall u r, net w u = Some r -> ok r = false) ->
  exists w', run (fetchDocumentPage page) h w = (inr None, h, w').
Proof.
  intros Hbad. unfold fetchDocumentPage, await. rewrite run_tryCatch.
  cbn [run bind perform].
  destruct (net w (page_url page)) as [resp |] eqn:En; cbn [run bind].
  - rewrite (Hbad _ _ En). cbn [negb run]. eexists. reflexivity.
  - eexists. reflexivity.
Qed.

Lemma fetchPages_refused (this : Ref) (pages : list Page) :
  forall (h : Heap) (w : World),
    (forall u r, net w u = Some r -> ok r = false) ->
    exists w', run (fetchPages this pages) h w = (inr tt, h, w').
Proof.
  induction pages as [| page rest IH]; intros h w Hbad.
  - exists w. reflexivity.
  - destruct (@fetchDocumentPage_refused page h w Hbad) as (w1 & E).
    assert (Hbad1 : forall u r, net w1 u = Some r -> ok r = false).
    { pose proof (run_net (fetchDocumentPage page) h w) as P.
      rewrite E in P. simpl in P. rewrite P. exact Hbad. }
    destruct (IH h w1 Hbad1) as (w' & E').
    exists w'. cbn [fetchPages]. rewrite run_bind, E. exact E'.
Qed.

(** X27. An outage with error pages empties the corpus. When every
    request is answered with an error status or not at all, but the
    answer for the index has a readable body, [refreshDocsCache] takes
    that body for the index, clears the corpus, stores no document, and
    stamps the empty corpus with a fetch time: the documents held before
    are lost, in memory and in the snapshot when the disk accepts it. *)
Theorem refreshDocsCache_error_pages
        (this : Ref) (h : Heap) (w : World) (r : Response) (html : Html) :
  net w indexUrl = Some r ->
  body r = Some html ->
  (forall u r', net w u = Some r' -> ok r' = false) ->
  exists (h' : Heap) (w' : World) (t : Z),
    run (refreshDocsCache this) h w = (inr tt, h', w') /\
    h' this = {| docsCache := JsMap.empty; lastFetchTime := Some (Some t) |} /\
    (canWrite w CacheFile = true -> canWrite w MetadataFile = true ->
     disk w' CacheFile = Holds (Json (JDocs []))).
Proof.
  intros En Eb Hbad.
  destruct (getDocumentationPages_ok h w En Eb) as (pages & w1 & G).
  set (h0 := update h this
               {| docsCache := JsMap.empty; lastFetchTime := lastFetchTime (h this) |}).
  assert (Hbad1 : forall u r', net w1 u = Some r' -> ok r' = false).
  { pose proof (run_net getDocumentationPages h w) as P.
    rewrite G in P. simpl in P. rewrite P. exact Hbad. }
  destruct (@fetchPages_refused this pages h0 w1 Hbad1) as (w2 & Ep).
  set (h3 := update h0 this
               {| docsCache := docsCache (h0 this);
                  lastFetchTime := Some (Some (clock w2)) |}).
  assert (H3 : h3 this = {| docsCache := JsMap.empty;
                            lastFetchTime := Some (Some (clock w2)) |})
    by (unfold h3, h0; rewrite !update_same; reflexivity).
  destruct (NoStore_run h3 w2 (NoStore_saveCacheToDisk this)) as (rs & w3 & Es).
  assert (Hrun : run (refreshDocsCache this) h w = (inr tt, h3, w3)).
  { unfold refreshDocsCache. rewrite run_tryCatch, run_bind, G.
    change (match run (fetchPages this pages ;;;
                       now <- dateNow ;;
                       setLastFetchTime this (Some now) ;;;
                       saveCacheToDisk this) h0 w1 with
            | (inl _, h', w') => run (Ret tt) h' w'
            | r0 => r0
            end = (inr tt, h3, w3)).
    rewrite run_bind, Ep.
    change (match run (saveCacheToDisk this) h3 w2 with
            | (inl _, h', w') => run (Ret tt) h' w'
            | r0 => r0
            end = (inr tt, h3, w3)).
    rewrite Es. destruct rs as [e | []]; reflexivity. }
  exists h3, w3, (clock w2). split; [exact Hrun |]. split; [exact H3 |].
  intros Hc Hm.
  assert (Hw2 : canWrite w2 = canWrite w).
  { pose proof (run_canWrite (fetchPages this pages) h0 w1) as P2.
    rewrite Ep in P2. simpl in P2. rewrite P2.
    pose proof (run_canWrite getDocumentationPages h w) as P1.
    rewrite G in P1. exact P1. }
  assert (Ht3 : lastFetchTime (h3 this) = Some (Some (clock w2)))
    by (rewrite H3; reflexivity).
  assert (Hc2 : canWrite w2 CacheFile = true) by (rewrite Hw2; exact Hc).
  assert (Hm2 : canWrite w2 MetadataFile = true) by (rewrite Hw2; exact Hm).
  destruct (saveCacheToDisk_writes this h3 w2 Ht3 Hc2 Hm2) as (w3' & Es' & Hd & _).
  rewrite Es in Es'. injection Es' as _ <-.
  rewrite Hd, H3. reflexivity.
Qed.

Lemma refreshDocsCache_error_pages_witness :
  exists (h' : Heap) (w' : World) (t : Z),
    run (refreshDocsCache ResourceDocs) SampleError.staleHeap SampleError.world
    = (inr tt, h', w') /\
    h' ResourceDocs = {| docsCache := JsMap.empty; lastFetchTime := Some (Some t) |} /\
    (canWrite SampleError.world CacheFile = true ->
     canWrite SampleError.world MetadataFile = true ->
     disk w' CacheFile = Holds (Json (JDocs []))).
Proof.
  apply (@refreshDocsCache_error_pages ResourceDocs SampleError.staleHeap
           SampleError.world SampleError.errorPage
           {| navAnchors := []; contentAnchors := []; containerText := None;
              bodyText := "Internal Server Error" |}).
  - reflexivity.
  - reflexivity.
  - intros u r' E. injection E as <-. reflexivity.
Defined.

(* ================================================================= *)
(** * Further properties of the command lookup *)

Lemma lowerChar_idem (c : ascii) : Js.lowerChar (Js.lowerChar c) = Js.lowerChar c.
Proof. destruct c as [[] [] [] [] [] [] [] []]; reflexivity. Qed.

Lemma toLowerCase_idem (s : string) : Js.toLowerCase (Js.toLowerCase s) = Js.toLowerCase s.
Proof.
  induction s as [| c s IH]; simpl; [reflexivity |].
  rewrite lowerChar_idem, IH. reflexivity.
Qed.

Lemma toLowerCase_length (s : string) :
  String.length (Js.toLowerCase s) = String.length s.
Proof. induction s as [| c s IH]; simpl; [reflexivity | rewrite IH; reflexivity]. Qed.

Lemma includes_split (s x : string) :
  Js.includes s x = true -> exists a b, s = (a ++ x ++ b)%string.
Proof.
  induction s as [| c s IH]; cbn [Js.includes]; intros H.
  - rewrite orb_false_r in H. apply startsWith_split in H. destruct H as (r & H).
    exists EmptyString, r. exact H.
  - apply orb_true_iff in H. destruct H as [H | H].
    + apply startsWith_split in H. destruct H as (r & H).
      exists EmptyString, r. exact H.
    + destruct (IH H) as (a & b & ->). exists (String c a), b. reflexivity.
Qed.

Lemma string_app_inj (a a' r r' : string) :
  String.length a = String.length a' ->
  (a ++ r)%string = (a' ++ r')%string -> a = a' /\ r = r'.
Proof.
  revert a'. induction a as [| c a IH]; intros [| c' a'] Hl H; simpl in Hl;
    try discriminate.
  - split; [reflexivity | exact H].
  - simpl in H. injection H as -> H. injection Hl as Hl.
    destruct (IH a' Hl H) as [-> ->]. split; reflexivity.
Qed.

(** What occurs in a lower-cased text is in lower case. *)
Lemma includes_lower (s x : string) :
  Js.includes (Js.toLowerCase s) x = true -> Js.toLowerCase x = x.
Proof.
  intros H. apply includes_split in H. destruct H as (a & b & E).
  pose proof (toLowerCase_idem s) as I. rewrite E in I.
  rewrite !toLowerCase_app in I.
  apply string_app_inj in I; [| apply toLowerCase_length]. destruct I as [_ I].
  apply string_app_inj in I; [| apply toLowerCase_length]. apply I.
Qed.

(** X28. The letter case of the command. The content of a document is
    searched in lower case for the command as it was given: a command
    that holds a capital letter matches no content, so
    [getCliCommandHelp] then finds a document only by its title or by
    its url, which are compared letter case apart. *)
Theorem getCliCommandHelp_capital_letter
        (this : Ref) (command : string) (h : Heap) (w : World) :
  Js.toLowerCase command <> command ->
  exists (docs : list TerragruntDoc) (h' : Heap) (w' : World) (found : option TerragruntDoc),
    run (fetchLatestDocs this) h w = (inr docs, h', w') /\
    run (getCliCommandHelp this command) h w = (inr found, h', w') /\
    (forall d, tierContentContains command d = false) /\
    (forall d, found = Some d ->
       In d docs /\
       (tierTitleEquals command d || tierUrlSegment command d
        || tierTitleContains command d) = true).
Proof.
  intros Hcap.
  assert (Hc : forall d, tierContentContains command d = false).
  { intros d. unfold tierContentContains.
    destruct (Js.includes (Js.toLowerCase (content d)) (command ++ " ")%string) eqn:E;
      [| reflexivity].
    apply includes_lower in E. rewrite toLowerCase_app in E.
    apply string_app_inj in E; [| apply toLowerCase_length].
    destruct Hcap. apply E. }
  destruct (fetchLatestDocs_total this h w) as (docs & h' & w' & E).
  set (candidates := filter isCliDoc docs).
  exists docs, h', w',
    (match Js.find (cliExact command) candidates with
     | Some d => Some d
     | None => Js.find (cliPartial command) candidates
     end).
  split; [exact E |]. split.
  { unfold getCliCommandHelp. rewrite run_bind, E. fold candidates.
    destruct (Js.find (cliExact command) candidates); reflexivity. }
  split; [exact Hc |].
  intros d Hd. unfold Js.find in Hd.
  destruct (find (cliExact command) candidates) as [d1 |] eqn:F1.
  - injection Hd as ->. apply find_some in F1. destruct F1 as [Hin Hex].
    split; [apply filter_In in Hin; apply Hin |].
    rewrite cliExact_tiers in Hex. rewrite Hex. reflexivity.
  - apply find_some in Hd. destruct Hd as [Hin Hp].
    split; [apply filter_In in Hin; apply Hin |].
    rewrite cliPartial_tiers, Hc, orb_false_r in Hp. rewrite Hp.
    apply orb_true_r.
Qed.

Lemma getCliCommandHelp_capital_letter_witness :
  let h := Sample.warm [SampleCli.runPlan; SampleCli.plan] 0 in
  let w := Sample.offline Sample.hour Sample.noSnapshot in
  exists (docs : list TerragruntDoc) (h' : Heap) (w' : World) (found : option TerragruntDoc),
    run (fetchLatestDocs ResourceDocs) h w = (inr docs, h', w') /\
    run (getCliCommandHelp ResourceDocs "Run") h w = (inr found, h', w') /\
    (forall d, tierContentContains "Run" d = false) /\
    (forall d, found = Some d ->
       In d docs /\
       (tierTitleEquals "Run" d || tierUrlSegment "Run" d
        || tierTitleContains "Run" d) = true).
Proof.
  intros h w. apply (@getCliCommandHelp_capital_letter ResourceDocs "Run" h w).
  discriminate.
Defined.
(* ================================================================= *)
(** * Further properties of the cache engine: a damaged snapshot *)

(** The loop over the entries stops at the first [null], with the
    documents before it stored. *)
Lemma forEachSet_partial (this : Ref) (pre : list TerragruntDoc)
      (rest : list (option TerragruntDoc)) :
  forall (h : Heap) (w : World),
  exists h' : Heap,
    run (forEachSet this (map Some pre ++ None :: rest)) h w = (inl TypeError, h', w) /\
    h' this = {| docsCache := fold_left (fun m d => JsMap.set (url d) d m) pre
                                        (docsCache (h this));
                 lastFetchTime := lastFetchTime (h this) |} /\
    forall o, o <> this -> h' o = h o.
Proof.
  induction pre as [| d pre IH]; intros h w; simpl.
  - exists h. split; [reflexivity |]. split; [destruct (h this); reflexivity |].
    reflexivity.
  - set (h1 := update h this
                 {| docsCache := JsMap.set (url d) d (docsCache (h this));
                    lastFetchTime := lastFetchTime (h this) |}).
    destruct (IH h1 w) as (h' & E & Hs & Ho).
    exists h'. split; [exact E |]. split.
    + rewrite Hs. unfold h1. rewrite update_same. reflexivity.
    + intros o Hne. rewrite (Ho o Hne). unfold h1.
      apply update_other. exact Hne.
Qed.

Lemma loadCacheFromDisk_damaged
      (this : Ref) (h : Heap) (w : World)
      (pre : list TerragruntDoc) (rest : list (option TerragruntDoc)) (fetched : Date) :
  disk w CacheFile = Holds (Json (JDocs (map Some pre ++ None :: rest))) ->
  (exists v, disk w MetadataFile = Holds (Json v) /\ dateOfLastFetchTime v = inr fetched) ->
  numGt (elapsedSince (clock w + 3 * latency w) fetched) cacheExpiry = false ->
  exists (h' : Heap),
    run (loadCacheFromDisk this) h w = (inr false, h', tick (tick (tick (tick w)))) /\
    h' this = {| docsCache := cacheOf pre; lastFetchTime := lastFetchTime (h this) |} /\
    (forall o, o <> this -> h' o = h o).
Proof.
  intros Hd (v & Hm & Hv) Hf.
  set (h0 := update h this
               {| docsCache := JsMap.empty; lastFetchTime := lastFetchTime (h this) |}).
  set (w4 := tick (tick (tick (tick w)))).
  destruct (forEachSet_partial this pre rest h0 w4) as (h1 & E1 & Hs1 & Ho1).
  exists h1. split; [| split].
  - unfold loadCacheFromDisk. rewrite run_tryCatch.
    repeat (progress (cbn -[numGt elapsedSince cacheExpiry forEachSet Z.add Z.mul];
                      rewrite ?Hd, ?Hm, ?Hv)).
    replace (clock w + latency w + latency w + latency w)
      with (clock w + 3 * latency w) by lia.
    rewrite Hf.
    repeat (progress (cbn -[numGt elapsedSince cacheExpiry forEachSet Z.add Z.mul];
                      rewrite ?Hd, ?Hm, ?Hv)).
    fold h0. fold w4.
    change (forEachSet this (map Some pre ++ None :: rest) ;;;
            setLastFetchTime this fetched ;;; Ret true)
      with (bind (forEachSet this (map Some pre ++ None :: rest))
                 (fun _ => setLastFetchTime this fetched ;;; Ret true)).
    rewrite run_bind, E1. reflexivity.
  - rewrite Hs1. unfold h0. rewrite update_same. reflexivity.
  - intros o Hne. rewrite (Ho1 o Hne). unfold h0. apply update_other. exact Hne.
Qed.

(** X29. A damaged snapshot is served in part. When the documents of a
    snapshot that is not stale hold a [null] entry, [loadCacheFromDisk]
    fails only once the entries before it are stored. A new manager
    whose source is down then returns those first documents as its
    corpus: the part of the snapshot before the damage, without a fetch
    time, so that the source is asked again at the next call. *)
Theorem fetchLatestDocs_damaged_snapshot
        (this : Ref) (h : Heap) (w : World)
        (pre : list TerragruntDoc) (rest : list (option TerragruntDoc)) (fetched : Date) :
  h this = newDocsManager ->
  disk w CacheFile = Holds (Json (JDocs (map Some pre ++ None :: rest))) ->
  (exists v, disk w MetadataFile = Holds (Json v) /\ dateOfLastFetchTime v = inr fetched) ->
  numGt (elapsedSince (clock w + 3 * latency w) fetched) cacheExpiry = false ->
  net w indexUrl = None ->
  exists (h' : Heap) (w' : World),
    run (fetchLatestDocs this) h w = (inr (JsMap.values (cacheOf pre)), h', w') /\
    h' this = {| docsCache := cacheOf pre; lastFetchTime := None |} /\
    requests w' = indexUrl :: requests w.
Proof.
  intros Hnew Hd Hm Hf Hn.
  destruct (@loadCacheFromDisk_damaged this h w pre rest fetched Hd Hm Hf)
    as (h1 & El & Hs & _).
  rewrite Hnew in Hs. cbn [lastFetchTime newDocsManager] in Hs.
  set (w4 := tick (tick (tick (tick w)))) in *.
  assert (Hn4 : net w4 indexUrl = None) by exact Hn.
  exists h1, (tick (logRequest indexUrl w4)).
  split; [| split; [exact Hs | reflexivity]].
  unfold fetchLatestDocs.
  rewrite run_bind, run_load, Hnew. cbn [docsCache newDocsManager JsMap.size List.length
                                         Z.of_nat Z.eqb JsMap.empty].
  rewrite run_bind, run_bind, El. cbn [run].
  rewrite run_bind, run_shouldRefreshCache, Hs. cbn [lastFetchTime].
  rewrite run_bind, refreshDocsCache_source_down by exact Hn4.
  rewrite run_cacheValues, Hs. reflexivity.
Qed.

Lemma fetchLatestDocs_damaged_snapshot_witness :
  let w := Sample.offline Sample.hour
             (fun f => match f with
                       | CacheFile =>
                           Holds (Json (JDocs [Some Sample.overview; None;
                                               Some Sample.quickStart]))
                       | MetadataFile =>
                           Holds (Json (JMetadata {| meta_lastFetchTime := Some 0;
                                                     docsCount := 3 |}))
                       end) in
  exists (h' : Heap) (w' : World),
    run (fetchLatestDocs ResourceDocs) Sample.cold w
    = (inr (JsMap.values (cacheOf [Sample.overview])), h', w') /\
    h' ResourceDocs = {| docsCache := cacheOf [Sample.overview]; lastFetchTime := None |} /\
    requests w' = indexUrl :: requests w.
Proof.
  intros w.
  apply (@fetchLatestDocs_damaged_snapshot ResourceDocs Sample.cold w
           [Sample.overview] [Some Sample.quickStart] (Some 0)).
  - reflexivity.
  - reflexivity.
  - eexists. split; reflexivity.
  - reflexivity.
  - reflexivity.
Defined.
